(** * avito.py: a shallow embedding of the classifieds scraper

    The development follows the layout of [src/avito.py]:
    [clean_text], [parse_publication_date], [get_links],
    [fetch_page_with_selenium], [parse_publication], [save_csv], [main].

    Python text is a sequence of Unicode code points; a code point is a
    natural number.  Library functions whose behaviour depends on tables
    shipped with the interpreter or on another package ([urljoin], the
    decimal-digit table behind [\d] and [int], [str.lower], the HTML
    parser) are taken as arguments of the functions that call them. *)

From Stdlib Require Import List Bool Arith NArith ZArith Lia String Ascii.
From Stdlib Require Import DecimalString.
Import ListNotations.

(* ------------------------------------------------------------------ *)
(** ** Text *)

Definition char := N.
Definition str := list char.

(** An ASCII literal as Python text. *)
Definition lit (s : string) : str :=
  map N_of_ascii (list_ascii_of_string s).

Module Str.

Definition eqb (a b : str) : bool :=
  if list_eq_dec N.eq_dec a b then true else false.

(** [x in xs] for a list of texts. *)
Definition mem (x : str) (xs : list str) : bool := existsb (eqb x) xs.

(** [s.startswith(p)] *)
Fixpoint startswith (p s : str) : bool :=
  match p, s with
  | [], _ => true
  | _ :: _, [] => false
  | a :: p', b :: s' => N.eqb a b && startswith p' s'
  end.

(** [p in s] for texts: some suffix of [s] starts with [p]. *)
Fixpoint contains (p s : str) : bool :=
  startswith p s ||
  match s with
  | [] => false
  | _ :: s' => contains p s'
  end.

(** [s.split(c)[0]] for a one-character separator. *)
Fixpoint before (c : char) (s : str) : str :=
  match s with
  | [] => []
  | a :: s' => if N.eqb a c then [] else a :: before c s'
  end.

(** [s.replace(old, new)] for one-character [old] and [new]. *)
Definition replace (old new : char) (s : str) : str :=
  map (fun c => if N.eqb c old then new else c) s.

Fixpoint dropwhile (f : char -> bool) (s : str) : str :=
  match s with
  | [] => []
  | a :: s' => if f a then dropwhile f s' else s
  end.

End Str.

Definition LF : char := 10%N.
Definition CR : char := 13%N.
Definition TAB : char := 9%N.
Definition SP : char := 32%N.

(* ------------------------------------------------------------------ *)
(** ** FETCH PAGE + EQUIPMENTS via SELENIUM: the stabilisation poll

    [samples k] is the number of equipment images that the [k]-th call
    (from 0) of [driver.find_elements] inside the loop returns. *)

Record poll_result := {
  polls : nat;        (* calls of find_elements made by the loop *)
  last_count : nat;   (* curr_count of the last call, 0 if none *)
  stable : bool       (* the loop left through [break] *)
}.

(** The loop [for _ in range(n)] with [k] polls already made and
    [prev_count = prev]. *)
Fixpoint poll_loop (samples : nat -> nat) (n k prev : nat) : poll_result :=
  match n with
  | 0 => {| polls := k; last_count := prev; stable := false |}
  | S n' =>
      let curr_count := samples k in
      if (0 <? curr_count) && (curr_count =? prev)
      then {| polls := S k; last_count := curr_count; stable := true |}
      else poll_loop samples n' (S k) curr_count
  end.

Definition POLL_BOUND : nat := 10.

Definition wait_equipment_stable (samples : nat -> nat) : poll_result :=
  poll_loop samples POLL_BOUND 0 0.

(** A count sequence given as a list, sampled once per poll. *)
Definition sampled (l : list nat) : nat -> nat := fun k => nth k l 0.

(** The spec's fixed point at poll [i] (from 0): the count is nonzero and
    equals the count of the poll just before. *)
Definition fixed_point_at (samples : nat -> nat) (i : nat) : Prop :=
  exists j, i = S j /\ 0 < samples i /\ samples i = samples j.

(** What [prev_count] holds just before poll [k]. *)
Definition prev_at (samples : nat -> nat) (k : nat) : nat :=
  match k with 0 => 0 | S j => samples j end.

(* ------------------------------------------------------------------ *)
(** ** CLEAN TEXT *)

(** Whitespace as [str.isspace], which is also what [\s] matches in a
    text pattern and what [str.strip] removes. *)
Definition isspace (c : char) : bool :=
  ((9 <=? c) && (c <=? 13) || (28 <=? c) && (c <=? 32) ||
   (c =? 133) || (c =? 160) || (c =? 5760) ||
   (8192 <=? c) && (c <=? 8202) || (c =? 8232) || (c =? 8233) ||
   (c =? 8239) || (c =? 8287) || (c =? 12288))%N.

(** [re.sub(r"\s+", " ", s)]: every maximal run of whitespace becomes
    one space.  [in_run] tells that the character before was whitespace
    of the run being replaced. *)
Fixpoint sub_spaces (in_run : bool) (s : str) : str :=
  match s with
  | [] => []
  | c :: r =>
      if isspace c
      then if in_run then sub_spaces true r else SP :: sub_spaces true r
      else c :: sub_spaces false r
  end.

Definition lstrip (s : str) : str := Str.dropwhile isspace s.

Fixpoint rstrip (s : str) : str :=
  match s with
  | [] => []
  | c :: r =>
      match rstrip r with
      | [] => if isspace c then [] else [c]
      | r' => c :: r'
      end
  end.

(** [s.strip()] *)
Definition strip (s : str) : str := rstrip (lstrip s).

(** [clean_text(value)]; [None] is Python's [None].  An empty text is
    falsy as [None] is. *)
Definition clean_text (value : option str) : str :=
  match value with
  | None => []
  | Some [] => []
  | Some v =>
      let v := Str.replace TAB SP (Str.replace CR SP (Str.replace LF SP v)) in
      let v := sub_spaces false v in
      strip v
  end.

(** The words of a text, as [s.split()] gives them: its maximal runs of
    characters that are not whitespace. *)
Definition word_break (r : str) : bool :=
  match r with [] => true | c :: _ => isspace c end.

Definition push_char (c : char) (ws : list str) : list str :=
  match ws with
  | w :: ws' => (c :: w) :: ws'
  | [] => [[c]]
  end.

Fixpoint words (s : str) : list str :=
  match s with
  | [] => []
  | c :: r =>
      if isspace c then words r
      else if word_break r then [c] :: words r
      else push_char c (words r)
  end.

(** [" ".join(ws)] *)
Fixpoint join_sp (ws : list str) : str :=
  match ws with
  | [] => []
  | [w] => w
  | w :: ws' => w ++ SP :: join_sp ws'
  end.

(** A text in which every whitespace character is a single space between
    two other characters or at an end; [prev_ws] tells that the character
    before was whitespace. *)
Fixpoint collapsed (prev_ws : bool) (s : str) : bool :=
  match s with
  | [] => true
  | c :: r =>
      if isspace c then negb prev_ws && N.eqb c SP && collapsed true r
      else collapsed false r
  end.

Definition starts_with_space (s : str) : bool :=
  match s with [] => false | c :: _ => isspace c end.

Fixpoint ends_with_space (s : str) : bool :=
  match s with
  | [] => false
  | [c] => isspace c
  | _ :: r => ends_with_space r
  end.

(* ------------------------------------------------------------------ *)
(** ** Library functions the scraper calls

    Their results depend on data outside the repository: the Unicode
    tables of the interpreter, the URL and date parsers of the standard
    library, the HTML parser behind BeautifulSoup. *)

Class PyLib := {
  (** [urllib.parse.urljoin(base, url)] *)
  urljoin : str -> str -> str;
  (** the characters that [\d] matches in a text pattern *)
  isdecimal : char -> bool;
  (** the digit value that [int] gives such a character *)
  decimal_value : char -> Z;
  (** [str.lower] *)
  lower : str -> str;
  (** equality of two characters under [re.IGNORECASE] *)
  caseless_eqb : char -> char -> bool
}.

(** An instance for pure ASCII text: ASCII digits and letters, and
    [urljoin] on a base with an empty path and a reference that starts
    with a single [/] and has no dot segment, parameters or fragment,
    where it appends the reference to the base. *)
Definition ascii_digit (c : char) : bool := ((48 <=? c) && (c <=? 57))%N.

Definition ascii_lower_char (c : char) : char :=
  if ((65 <=? c) && (c <=? 90))%N then (c + 32)%N else c.

#[export] Instance ascii_lib : PyLib := {|
  urljoin := fun base url =>
    if Str.startswith (lit "/") url then base ++ url else url;
  isdecimal := ascii_digit;
  decimal_value := fun c => Z.of_N (c - 48);
  lower := map ascii_lower_char;
  caseless_eqb := fun a b => N.eqb (ascii_lower_char a) (ascii_lower_char b)
|}.

(* ------------------------------------------------------------------ *)
(** ** Patterns

    The patterns of the source are sequences of single characters,
    character classes, [+] repetitions of a class and the end anchor. *)

Inductive atom :=
| One (f : char -> bool)     (* one character of a class *)
| Many1 (f : char -> bool)   (* [c+] *)
| Eos.                       (* [$]: at the end, or before a final newline *)

Definition at_end (s : str) : bool :=
  match s with
  | [] => true
  | [c] => N.eqb c LF
  | _ => false
  end.

(** [re.match]: the pattern matches at the start of [s]. *)
Fixpoint match_here (p : list atom) : str -> bool :=
  match p with
  | [] => fun _ => true
  | One f :: p' => fun s =>
      match s with
      | c :: r => f c && match_here p' r
      | [] => false
      end
  | Many1 f :: p' =>
      fix many (s : str) : bool :=
        match s with
        | c :: r => f c && (many r || match_here p' r)
        | [] => false
        end
  | Eos :: p' => fun s => at_end s && match_here p' s
  end.

(** [re.search]: the pattern matches somewhere in [s]. *)
Fixpoint search (p : list atom) (s : str) : bool :=
  match_here p s ||
  match s with
  | [] => false
  | _ :: r => search p r
  end.

Definition chars (s : string) : list atom := map (fun c => One (N.eqb c)) (lit s).

(* ------------------------------------------------------------------ *)
(** ** CONFIG *)

Definition BASE_URL : str := lit "https://www.avito.ma".
Definition MAX_PAGES : nat := 10.
Definition MAX_LINKS : nat := 300.

(* ------------------------------------------------------------------ *)
(** ** GET LINKS

    [fetch page] is what [requests.get] and BeautifulSoup give for the
    listing page [page]: [None] when the request raised, and otherwise
    the [href] values of [soup.find_all("a", href=True)] in document
    order. *)

Section GetLinks.

Context {lib : PyLib}.
Variable fetch : nat -> option (list str).
Variables max_pages max_links : nat.

(** [r"_\d+\.htm$"] *)
Definition detail_pattern : list atom :=
  chars "_" ++ [Many1 isdecimal] ++ chars ".htm" ++ [Eos].

Definition is_detail (href : str) : bool := search detail_pattern href.

(** The reference as the scan sees it after the [startswith("/")]
    test. *)
Definition resolve (href : str) : str :=
  if Str.startswith (lit "/") href then urljoin BASE_URL href else href.

Definition strip_query (href : str) : str := Str.before 63%N href.

(** The body of [for a in soup.find_all("a", href=True)], from the
    anchor list left to scan, [links] and [new_found]. *)
Fixpoint scan_page (hrefs : list str) (links : list str) (new_found : nat)
  : list str * nat :=
  match hrefs with
  | [] => (links, new_found)
  | href :: rest =>
      let href := resolve href in
      let '(links, new_found) :=
        if is_detail href then
          let href := strip_query href in
          if Str.mem href links then (links, new_found)
          else (links ++ [href], S new_found)
        else (links, new_found) in
      if max_links <=? List.length links then (links, new_found)
      else scan_page rest links new_found
  end.

(** What happened to one listing page. *)
Inductive page_outcome :=
| FetchFailed              (* the request raised: [break] *)
| Scanned (new_found : nat).

Record discovery := {
  links : list str;                    (* the returned list *)
  pages : list (nat * page_outcome)    (* the pages requested, in order *)
}.

(** [for page in range(page, page + n)] *)
Fixpoint pages_loop (n page : nat) (links : list str)
         (log : list (nat * page_outcome)) : discovery :=
  match n with
  | 0 => {| links := links; pages := log |}
  | S n' =>
      match fetch page with
      | None => {| links := links; pages := log ++ [(page, FetchFailed)] |}
      | Some hrefs =>
          let '(links, new_found) := scan_page hrefs links 0 in
          let log := log ++ [(page, Scanned new_found)] in
          if new_found =? 0 then {| links := links; pages := log |}
          else pages_loop n' (S page) links log
      end
  end.

Definition get_links : discovery := pages_loop max_pages 1 [] [].

End GetLinks.

(** Listing pages given as a list: page [k] is the [k]-th element, and a
    request past the last one fails. *)
Definition listing (pages : list (list str)) : nat -> option (list str) :=
  fun page => match page with 0 => None | S k => nth_error pages k end.

(** The pages of the failing run of the link cap: 300 detail links on the
    first listing page and one more on the second. *)
Definition detail_href (n : nat) : str :=
  lit "/fr/maroc/a_" ++ lit (NilEmpty.string_of_uint (Nat.to_uint n))
      ++ lit ".htm".

Definition crowded_listing : nat -> option (list str) :=
  listing [map detail_href (seq 1 300); [detail_href 301]].

(** The invariant of a ListingLink as the spec words it, with the
    detail-page pattern of the source; absolute means that the link
    begins with the scheme and host of the base. *)
Definition ListingLink_invariant {lib : PyLib} (ls : list str) : Prop :=
  NoDup ls /\
  Forall (fun l => Str.startswith (BASE_URL ++ lit "/") l = true /\
                   ~ In 63%N l /\
                   is_detail l = true) ls.

(** Where a link of the result comes from: an anchor of the page whose
    resolved reference matches the pattern, cut at its first [?]. *)
Definition from_anchor {lib : PyLib} (hrefs : list str) (l : str) : Prop :=
  exists href, In href hrefs /\ is_detail (resolve href) = true /\
               l = strip_query (resolve href).

Definition discovered {lib : PyLib} (fetch : nat -> option (list str))
           (l : str) : Prop :=
  exists page hrefs, fetch page = Some hrefs /\ from_anchor hrefs l.

(** Every page of the log added at least one link. *)
Definition growing (log : list (nat * page_outcome)) : Prop :=
  Forall (fun e => exists n, snd e = Scanned (S n)) log.

(* ------------------------------------------------------------------ *)
(** ** SAVE CSV

    A row is a Python [dict] from text keys to text values, kept as the
    list of its items in insertion order. *)

Definition dict := list (str * str).

Fixpoint dict_get (d : dict) (k : str) : option str :=
  match d with
  | [] => None
  | (k', v) :: d' => if Str.eqb k' k then Some v else dict_get d' k
  end.

(** [d[k] = v]: a key already present keeps its place. *)
Fixpoint dict_set (d : dict) (k v : str) : dict :=
  match d with
  | [] => [(k, v)]
  | (k', v') :: d' =>
      if Str.eqb k' k then (k', v) :: d' else (k', v') :: dict_set d' k v
  end.

Definition keys : list str :=
  [ lit "id"; lit "url"; lit "title"; lit "price"; lit "location";
    lit "publication_time"; lit "breadcrumb"; lit "category";
    lit "seller"; lit "description"; lit "properties"; lit "equipments";
    lit "images" ].

Definition QUOTE : char := 34%N.
Definition COMMA : char := 44%N.

(** One field under [csv.QUOTE_ALL]: quoted, with each quote of the value
    written twice. *)
Definition quote_field (v : str) : str :=
  QUOTE :: flat_map (fun c => if N.eqb c QUOTE then [QUOTE; QUOTE] else [c]) v
        ++ [QUOTE].

Fixpoint join (sep : str) (xs : list str) : str :=
  match xs with
  | [] => []
  | [x] => x
  | x :: xs' => x ++ sep ++ join sep xs'
  end.

(** [writer.writerow(cells)] with the default line terminator. *)
Definition csv_line (cells : list str) : str :=
  join [COMMA] (map quote_field cells) ++ [CR; LF].

(** The cells [csv.DictWriter.writerow] writes for a row: the values in
    the order of [fieldnames], the empty text for a missing key, and
    [None] (a [ValueError]) when the row has a key outside
    [fieldnames]. *)
Definition row_cells (fieldnames : list str) (row : dict) : option (list str) :=
  if forallb (fun kv => Str.mem (fst kv) fieldnames) row
  then Some (map (fun k => match dict_get row k with
                           | Some v => v
                           | None => []
                           end) fieldnames)
  else None.

(** The code points that the [utf-8] codec of the file encodes: all but
    the surrogates U+D800 to U+DFFF, on which it raises
    [UnicodeEncodeError]. *)
Definition utf8_encodable (c : char) : bool :=
  (c <? 55296)%N || (57343 <? c)%N.

Definition encodable (s : str) : bool := forallb utf8_encodable s.

(** What the output file holds when the [with] block is left: all the
    lines, or the lines written before the row that raised. *)
Inductive written :=
| Saved (out : str)
| Failed (out : str).

(** The loop over the rows, from the text written so far.  A row raises
    when it has a key outside [fieldnames], and when its line, which is
    encoded as it is written, has a code point that cannot be encoded. *)
Fixpoint write_rows (fieldnames : list str) (data_list : list dict) (out : str)
  : written :=
  match data_list with
  | [] => Saved out
  | row :: rest =>
      match row_cells fieldnames row with
      | Some cells =>
          let line := csv_line cells in
          if encodable line then write_rows fieldnames rest (out ++ line)
          else Failed out
      | None => Failed out
      end
  end.

(** The output file after [save_csv(data_list)]. *)
Definition save_csv_file (data_list : list dict) : written :=
  write_rows keys data_list (csv_line keys).

(** [save_csv(data_list)]: the text of the file, or [None] when it
    raised.  The file system is taken to accept what is written. *)
Definition save_csv (data_list : list dict) : option str :=
  match save_csv_file data_list with
  | Saved out => Some out
  | Failed _ => None
  end.

(** The field order as the spec lists the attributes of a record. *)
Definition spec_field_order : list str :=
  [ lit "id"; lit "url"; lit "title"; lit "price"; lit "location";
    lit "publication_time"; lit "seller"; lit "category";
    lit "description"; lit "breadcrumb"; lit "properties";
    lit "equipments"; lit "images" ].

(* ------------------------------------------------------------------ *)
(** ** MAIN

    [parse_publication i link] is what the [i]-th call (from 0) of
    [parse_publication(driver, link)] does. *)

Inductive outcome :=
| Returned (data : option dict)   (* a record, or [None] *)
| Raised                          (* an exception caught by [except Exception] *)
| Aborted.                        (* one that is not, as [KeyboardInterrupt] *)

Inductive event :=
| NoLinksFound                 (* [print("No links found")] *)
| CreateDriver (ok : bool)     (* [create_driver()], which may raise *)
| Visit (link : str)           (* [parse_publication(driver, link)] *)
| Pause                        (* [time.sleep(random.uniform(1, 2))] *)
| Quit                         (* [driver.quit()] *)
| SaveCsv (rows : list dict).  (* [save_csv(results)] *)

Section Main.

Variable parse_publication : nat -> str -> outcome.

(** The [for] loop inside [try]: the results and the events so far,
    and whether the loop was left by an exception. *)
Fixpoint visit_links (i : nat) (todo : list str) (results : list dict)
         (trace : list event) : list dict * list event * bool :=
  match todo with
  | [] => (results, trace, false)
  | link :: rest =>
      let trace := trace ++ [Visit link] in
      match parse_publication i link with
      | Returned (Some (item :: items)) =>            (* [if data:] *)
          visit_links (S i) rest (results ++ [item :: items])
                      (trace ++ [Pause])
      | Returned (Some []) | Returned None | Raised =>
          visit_links (S i) rest results (trace ++ [Pause])
      | Aborted => (results, trace, true)
      end
  end.

(** [main()], from the links that [get_links()] returned.  The result
    is the trace of the run and whether it ended normally.  [driver_ok]
    tells that [create_driver()] returns, [quit_ok] that [driver.quit()]
    does: an exception that it raises in the [finally] block leaves
    [main]. *)
Definition main (driver_ok quit_ok : bool) (links : list str)
  : list event * bool :=
  match links with
  | [] => ([NoLinksFound], true)
  | _ =>
      if driver_ok then
        let '(results, trace, aborted) :=
          visit_links 0 links [] [CreateDriver true] in
        let trace := trace ++ [Quit] in                   (* finally *)
        if aborted || negb quit_ok then (trace, false)
        else (trace ++ [SaveCsv results], true)
      else ([CreateDriver false], false)
  end.

(** The records of the links whose processing gave one that is not
    empty, in the order of the links. *)
Fixpoint successes (i : nat) (links : list str) : list dict :=
  match links with
  | [] => []
  | link :: rest =>
      match parse_publication i link with
      | Returned (Some (item :: items)) =>
          (item :: items) :: successes (S i) rest
      | _ => successes (S i) rest
      end
  end.

Fixpoint no_abort (i : nat) (links : list str) : Prop :=
  match links with
  | [] => True
  | link :: rest => parse_publication i link <> Aborted /\ no_abort (S i) rest
  end.

End Main.

Definition is_quit (e : event) : bool :=
  match e with Quit => true | _ => false end.

Definition is_create (e : event) : bool :=
  match e with CreateDriver true => true | _ => false end.

Definition saved (e : event) : option (list dict) :=
  match e with SaveCsv rows => Some rows | _ => None end.

(** The rows handed to [save_csv] during a run, one entry per call. *)
Definition saves (trace : list event) : list (list dict) :=
  flat_map (fun e => match saved e with Some r => [r] | None => [] end) trace.

Definition closes (trace : list event) : nat :=
  List.length (filter is_quit trace).

Definition opens (trace : list event) : nat :=
  List.length (filter is_create trace).

(** A tidy text: see [collapsed]. *)
Definition tidy (s : str) : Prop :=
  collapsed false s = true /\
  starts_with_space s = false /\ ends_with_space s = false.

(** The links visited during a run, in order. *)
Definition visited (trace : list event) : list str :=
  flat_map (fun e => match e with Visit l => [l] | _ => [] end) trace.

(** Three links of which the second raises, and the record of a link. *)
Definition stub_record (link : str) : dict := [(lit "url", link)].

Definition second_fails (i : nat) (link : str) : outcome :=
  if i =? 1 then Raised else Returned (Some (stub_record link)).

Definition three_links : list str :=
  [lit "https://www.avito.ma/fr/maroc/a_1.htm";
   lit "https://www.avito.ma/fr/maroc/a_2.htm";
   lit "https://www.avito.ma/fr/maroc/a_3.htm"].

Definition value_of (row : dict) (k : str) : str :=
  match dict_get row k with Some v => v | None => [] end.

(* ------------------------------------------------------------------ *)
(** ** The standard library's [datetime] and [timedelta]

    A naive [datetime] is its fields; the calendar arithmetic is the one
    of the standard library's [datetime] module, on days counted from
    0001-01-01 as day 1. *)

Record datetime := {
  year : Z; month : Z; day : Z;
  hour : Z; minute : Z; second : Z; microsecond : Z
}.

Definition is_leap (y : Z) : bool :=
  ((y mod 4 =? 0) && (negb (y mod 100 =? 0) || (y mod 400 =? 0)))%Z.

Definition days_before_year (y : Z) : Z :=
  (let y := y - 1 in y * 365 + y / 4 - y / 100 + y / 400)%Z.

Definition DAYS_IN_MONTH : list Z :=
  [-1; 31; 28; 31; 30; 31; 30; 31; 31; 30; 31; 30; 31]%Z.

Definition DAYS_BEFORE_MONTH : list Z :=
  [-1; 0; 31; 59; 90; 120; 151; 181; 212; 243; 273; 304; 334]%Z.

Definition days_before_month (leap : bool) (m : Z) : Z :=
  (nth (Z.to_nat m) DAYS_BEFORE_MONTH 0
   + if (2 <? m) && leap then 1 else 0)%Z.

(** The number of days of month [m] of a year. *)
Definition days_in_month (leap : bool) (m : Z) : Z :=
  (nth (Z.to_nat m) DAYS_IN_MONTH 0
   + if (m =? 2) && leap then 1 else 0)%Z.

Definition ymd2ord (y m d : Z) : Z :=
  (days_before_year y + days_before_month (is_leap y) m + d)%Z.

Definition DI400Y : Z := 146097.
Definition DI100Y : Z := 36524.
Definition DI4Y : Z := 1461.
Definition MAXORDINAL : Z := 3652059.

(** The month and day of the day [n] (from 0) of a year. *)
Definition month_day (leapyear : bool) (n : Z) : Z * Z :=
  (let m := Z.shiftr (n + 50) 5 in
   let preceding := days_before_month leapyear m in
   if n <? preceding then
     let m := m - 1 in
     let preceding := preceding - days_in_month leapyear m in
     (m, n - preceding + 1)
   else (m, n - preceding + 1))%Z.

(** The year, month and day of ordinal [n]. *)
Definition ord2ymd (n : Z) : Z * Z * Z :=
  (let n := n - 1 in
   let n400 := n / DI400Y in let n := n mod DI400Y in
   let n100 := n / DI100Y in let n := n mod DI100Y in
   let n4 := n / DI4Y in let n := n mod DI4Y in
   let n1 := n / 365 in let n := n mod 365 in
   let y := n400 * 400 + 1 + n100 * 100 + n4 * 4 + n1 in
   if (n1 =? 4) || (n100 =? 4) then (y - 1, 12, 31)
   else
     let leapyear := (n1 =? 3) && (negb (n4 =? 24) || (n100 =? 3)) in
     let '(m, d) := month_day leapyear n in
     (y, m, d))%Z.

Definition toordinal (dt : datetime) : Z := ymd2ord (year dt) (month dt) (day dt).

(** A [timedelta] of whole seconds, normalised as the constructor does. *)
Record timedelta := { td_days : Z; td_seconds : Z }.

(** [timedelta(days=days, seconds=seconds)] for integer arguments;
    [None] is the [OverflowError] of a magnitude above 999999999 days. *)
Definition make_timedelta (days seconds : Z) : option timedelta :=
  (let d := days + seconds / 86400 in
   let s := seconds mod 86400 in
   if Z.abs d <=? 999999999 then Some {| td_days := d; td_seconds := s |}
   else None)%Z.

(** [dt - td]; [None] is the [OverflowError] of a result outside the
    years 1 to 9999. *)
Definition datetime_sub (dt : datetime) (td : timedelta) : option datetime :=
  (let secs := hour dt * 3600 + minute dt * 60 + second dt - td_seconds td in
   let days := toordinal dt - td_days td + secs / 86400 in
   let secs := secs mod 86400 in
   if (0 <? days) && (days <=? MAXORDINAL) then
     let '(y, m, d) := ord2ymd days in
     Some {| year := y; month := m; day := d;
             hour := secs / 3600; minute := secs mod 3600 / 60;
             second := secs mod 60; microsecond := microsecond dt |}
   else None)%Z.

Definition digit_char (d : Z) : char := (48 + Z.to_N d)%N.

(** [n] in decimal with two digits, for [0 <= n <= 99]. *)
Definition pad2 (n : Z) : str :=
  [digit_char (n / 10); digit_char (n mod 10)]%Z.

(** [n] in decimal without leading zeros, for [0 <= n <= 9999]. *)
Definition decimal (n : Z) : str :=
  (if n <? 10 then [digit_char n]
   else if n <? 100 then [digit_char (n / 10); digit_char (n mod 10)]
   else if n <? 1000 then
     [digit_char (n / 100); digit_char (n / 10 mod 10); digit_char (n mod 10)]
   else
     [digit_char (n / 1000); digit_char (n / 100 mod 10);
      digit_char (n / 10 mod 10); digit_char (n mod 10)])%Z.

(** [dt.strftime("%Y-%m-%d %H:%M:%S")] with the C library's [strftime]
    of Linux: the year of [%Y] has no leading zeros, so a year below 1000
    has fewer than four digits; the other fields have two digits. *)
Definition strftime (dt : datetime) : str :=
  decimal (year dt) ++ lit "-" ++ pad2 (month dt) ++ lit "-" ++ pad2 (day dt)
       ++ lit " " ++ pad2 (hour dt) ++ lit ":" ++ pad2 (minute dt)
       ++ lit ":" ++ pad2 (second dt).

(* ------------------------------------------------------------------ *)
(** ** PARSE PUBLICATION DATE: the relative text *)

Fixpoint takewhile (f : char -> bool) (s : str) : str :=
  match s with
  | [] => []
  | a :: s' => if f a then a :: takewhile f s' else []
  end.

Section RelativeDate.

Context {lib : PyLib}.

(** [re.search(r"\d+", text)]: the first maximal run of digits. *)
Definition first_digits (text : str) : option str :=
  match takewhile isdecimal (Str.dropwhile (fun c => negb (isdecimal c)) text) with
  | [] => None
  | ds => Some ds
  end.

(** [int(ds)] for a text of decimal digits. *)
Definition int_of_digits (ds : str) : Z :=
  fold_left (fun acc c => 10 * acc + decimal_value c)%Z ds 0%Z.

Inductive unit_of_time := Minutes | Hours | Days | Months | Years.

(** The chain of [in] tests, in the order of the source. *)
Definition unit_in (text : str) : option unit_of_time :=
  if Str.contains (lit "minute") text then Some Minutes
  else if Str.contains (lit "heure") text then Some Hours
  else if Str.contains (lit "jour") text then Some Days
  else if Str.contains (lit "mois") text then Some Months
  else if Str.contains (lit "an") text then Some Years
  else None.

(** The [timedelta] built in the branch of a unit. *)
Definition delta_of (u : unit_of_time) (n : Z) : option timedelta :=
  match u with
  | Minutes => make_timedelta 0 (n * 60)
  | Hours => make_timedelta 0 (n * 3600)
  | Days => make_timedelta n 0
  | Months => make_timedelta (n * 30) 0
  | Years => make_timedelta (n * 365) 0
  end.

Definition count_in (text : str) : Z :=
  match first_digits text with
  | Some ds => int_of_digits ds
  | None => 1%Z
  end.

(** The fallback of [parse_publication_date] from the lower-cased clean
    text of the [time] tag and [now = datetime.now()].  An exception in
    the [try] block returns the text. *)
Definition relative_date (now : datetime) (text : str) : str :=
  let n := count_in text in
  match unit_in text with
  | None => text
  | Some u =>
      match delta_of u n with
      | None => text
      | Some td =>
          match datetime_sub now td with
          | None => text
          | Some dt => strftime dt
          end
      end
  end.

End RelativeDate.

Definition feb_1_2024 : datetime :=
  {| year := 2024; month := 2; day := 1;
     hour := 0; minute := 0; second := 0; microsecond := 0 |}.

(** Seconds from the start of day 0 to [dt], and the seconds that a
    count of a unit stands for. *)
Definition timeline (dt : datetime) : Z :=
  (toordinal dt * 86400 + hour dt * 3600 + minute dt * 60 + second dt)%Z.

Definition seconds_of (u : unit_of_time) (n : Z) : Z :=
  match u with
  | Minutes => n * 60
  | Hours => n * 3600
  | Days => n * 86400
  | Months => n * 30 * 86400
  | Years => n * 365 * 86400
  end%Z.

(** The days [0 .. k-1] of a year get a month and a day that count back
    to them. *)
Definition month_day_ok (leap : bool) (n : Z) : bool :=
  (let '(m, d) := month_day leap n in
   (1 <=? m) && (m <=? 12) && (1 <=? d) && (d <=? days_in_month leap m) &&
   (days_before_month leap m + d =? n + 1))%Z.

Definition year_days_ok (leap : bool) (k : nat) : bool :=
  forallb (fun i => month_day_ok leap (Z.of_nat i)) (seq 0 k).

(* ------------------------------------------------------------------ *)
(** ** The document tree of BeautifulSoup *)

#[warnings="-register-all"]
Inductive node :=
| Elem (name : str) (attrs : list (str * str)) (children : list node)
| Text (s : str)       (* a plain string, or a CDATA section *)
| Special (container : str) (s : str).
                       (* a string of another class: the text inside a
                          tag [container] that has a string class of its
                          own, as [script] and [style]; or, with the empty
                          name, a comment, a declaration or a doctype *)

Definition is_elem (n : node) : bool :=
  match n with Elem _ _ _ => true | _ => false end.

Definition name_of (n : node) : str :=
  match n with Elem t _ _ => t | _ => [] end.

Definition children_of (n : node) : list node :=
  match n with Elem _ _ cs => cs | _ => [] end.

(** [tag.get(k)] *)
Definition attr (k : str) (n : node) : option str :=
  match n with Elem _ a _ => dict_get a k | _ => None end.

(** The tags at and under a node, in document order. *)
Fixpoint elements (n : node) : list node :=
  match n with
  | Elem _ _ cs => n :: flat_map elements cs
  | _ => []
  end.

(** The tags under a tag, or of a whole document. *)
Definition descendants (n : node) : list node :=
  flat_map elements (children_of n).

Definition soup_elements (soup : list node) : list node :=
  flat_map elements soup.

(** The tags whose strings have a class of their own. *)
Definition string_containers : list str :=
  [lit "rt"; lit "rp"; lit "style"; lit "script"; lit "template"].

(** The strings under a node that a tag is interested in, joined: the
    plain strings for most tags, and for a tag that is a string container
    the strings of its own class. *)
Fixpoint text_of (container : option str) (n : node) : str :=
  match n with
  | Elem _ _ cs => flat_map (text_of container) cs
  | Text s => match container with None => s | Some _ => [] end
  | Special c s =>
      match container with
      | Some c' => if Str.eqb c c' then s else []
      | None => []
      end
  end.

(** [tag.get_text()] *)
Definition get_text (n : node) : str :=
  match n with
  | Elem name _ _ =>
      text_of (if Str.mem name string_containers then Some name else None) n
  | Text s => s
  | Special _ s => s
  end.

(** [tag.string] *)
Fixpoint string_of (n : node) : option str :=
  match n with
  | Elem _ _ [c] => string_of c
  | Elem _ _ _ => None
  | Text s => Some s
  | Special _ s => Some s
  end.

(** The first tag of a list that satisfies [f], with the tags after it. *)
Fixpoint find_rest (f : node -> bool) (els : list node)
  : option (node * list node) :=
  match els with
  | [] => None
  | e :: rest => if f e then Some (e, rest) else find_rest f rest
  end.

Definition find_first (f : node -> bool) (els : list node) : option node :=
  option_map fst (find_rest f els).

Definition has_name (t : string) (n : node) : bool := Str.eqb (name_of n) (lit t).

(** [class_=re.compile(pat)] for a pattern of plain characters without
    whitespace: some class of the tag contains [pat]. *)
Definition has_class (pat : string) (n : node) : bool :=
  match attr (lit "class") n with
  | Some v => Str.contains (lit pat) v
  | None => false
  end.

(** [attrs={k: v}] *)
Definition has_attr (k v : string) (n : node) : bool :=
  match attr (lit k) n with
  | Some v' => Str.eqb v' (lit v)
  | None => false
  end.

(* ------------------------------------------------------------------ *)
(** ** PARSE PUBLICATION DATE *)

(** [s.replace("Z", "+00:00")] *)
Definition replace_Z (s : str) : str :=
  flat_map (fun c => if N.eqb c 90 then lit "+00:00" else [c]) s.

Section ParsePublicationDate.

Context {lib : PyLib}.
(** [datetime.fromisoformat] followed by [replace(tzinfo=None)]; [None]
    when it raises. *)
Variable fromisoformat : str -> option datetime.
Variable now : datetime.

Definition parse_publication_date (soup : list node) : str :=
  match find_first (has_name "time") (soup_elements soup) with
  | None => []
  | Some time_tag =>
      let fallback :=
        relative_date now (lower (clean_text (Some (get_text time_tag)))) in
      match attr (lit "datetime") time_tag with
      | None | Some [] => fallback
      | Some datetime_attr =>
          match fromisoformat (replace_Z datetime_attr) with
          | Some dt => strftime dt
          | None => fallback
          end
      end
  end.

End ParsePublicationDate.

(** A [time] tag with only a text. *)
Definition time_tag_with (text : string) : list node :=
  [Elem (lit "html") []
        [Elem (lit "body") []
              [Elem (lit "time") [] [Text (lit text)]]]].

(** A [time] tag whose text is spread over several strings, with
    whitespace to clean, capital letters and a comment. *)
Definition untidy_time_tag : list node :=
  [Elem (lit "html") []
        [Elem (lit "body") []
              [Elem (lit "time") []
                    [Text (lit "  Il y a  ");
                     Elem (lit "b") [] [Text (lit "2")];
                     Special [] (lit "3 jours");
                     Text ([LF; TAB] ++ lit "HEURES ")]]]].

(** The result for a [time] tag with only a text, on the first of
    February 2024. *)
Definition date_of_text {lib : PyLib} (fromisoformat : str -> option datetime)
           (text : string) : str :=
  parse_publication_date fromisoformat feb_1_2024 (time_tag_with text).

(** A [datetime] that the class accepts: a day of a month of the years
    1 to 9999 and a time of that day. *)
Definition valid_date (y m d : Z) : Prop :=
  (1 <= y <= 9999 /\ 1 <= m <= 12 /\ 1 <= d <= days_in_month (is_leap y) m)%Z.

Definition valid_datetime (dt : datetime) : Prop :=
  (valid_date (year dt) (month dt) (day dt) /\
   0 <= hour dt < 24 /\ 0 <= minute dt < 60 /\ 0 <= second dt < 60 /\
   0 <= microsecond dt < 1000000)%Z.

(** The [time] tag has no [datetime] attribute that
    [datetime.fromisoformat] reads: the text of the tag is used. *)
Definition on_text_path (fromisoformat : str -> option datetime)
           (time_tag : node) : Prop :=
  attr (lit "datetime") time_tag = None \/
  attr (lit "datetime") time_tag = Some [] \/
  exists a, attr (lit "datetime") time_tag = Some a /\
            fromisoformat (replace_Z a) = None.

(** [w in text] *)
Definition has_word (w : string) (text : str) : bool :=
  Str.contains (lit w) text.

(* ------------------------------------------------------------------ *)
(** ** [json.dumps(value, ensure_ascii=False)] for lists and dicts of
    texts *)

Definition BACKSLASH : char := 92%N.

Definition hex_char (d : N) : char :=
  (if d <? 10 then 48 + d else 87 + d)%N.

Definition json_escape (c : char) : str :=
  (if c =? QUOTE then [BACKSLASH; QUOTE]
   else if c =? BACKSLASH then [BACKSLASH; BACKSLASH]
   else if c =? LF then BACKSLASH :: lit "n"
   else if c =? CR then BACKSLASH :: lit "r"
   else if c =? TAB then BACKSLASH :: lit "t"
   else if c =? 8 then BACKSLASH :: lit "b"
   else if c =? 12 then BACKSLASH :: lit "f"
   else if c <? 32 then BACKSLASH :: lit "u00" ++ [hex_char (c / 16); hex_char (c mod 16)]
   else [c])%N.

Definition json_string (s : str) : str :=
  QUOTE :: flat_map json_escape s ++ [QUOTE].

Definition json_list (l : list str) : str :=
  lit "[" ++ join (lit ", ") (map json_string l) ++ lit "]".

Definition json_dict (d : dict) : str :=
  lit "{"
  ++ join (lit ", ")
          (map (fun kv => json_string (fst kv) ++ lit ": " ++ json_string (snd kv)) d)
  ++ lit "}".

(* ------------------------------------------------------------------ *)
(** ** [str(uuid.uuid4())] from the 16 random bytes read as a number *)

Definition uuid4 (random : N) : N :=
  (let n := random mod 2 ^ 128 in
   let n := N.ldiff n (N.shiftl 49152 48) in     (* int &= ~(0xc000 << 48) *)
   let n := N.lor n (N.shiftl 32768 48) in       (* int |= 0x8000 << 48 *)
   let n := N.ldiff n (N.shiftl 61440 64) in     (* int &= ~(0xf000 << 64) *)
   N.lor n (N.shiftl 4 76))%N.                   (* int |= 4 << 76 *)

(** ['%032x' % n] *)
Definition hex32 (n : N) : str :=
  map (fun i => hex_char (N.shiftr n (4 * N.of_nat (31 - i)) mod 16)%N)
      (seq 0 32).

Definition uuid_str (n : N) : str :=
  let h := hex32 n in
  firstn 8 h ++ lit "-" ++ firstn 4 (skipn 8 h) ++ lit "-"
         ++ firstn 4 (skipn 12 h) ++ lit "-" ++ firstn 4 (skipn 16 h)
         ++ lit "-" ++ skipn 20 h.

(* ------------------------------------------------------------------ *)
(** ** FETCH PAGE + EQUIPMENTS via SELENIUM: what is returned

    What the driver shows for one url.  The waits of the function (for
    the heading, after the scroll, and [wait_equipment_stable]) pass time
    and do not enter the result. *)

Record page_view := {
  get_raises : bool;               (* [driver.get(url)] raises *)
  equip_alts : list (option str);  (* [alt] of the equipment images found
                                      at the end, [None] without one *)
  equip_raises : option nat;       (* the extraction raises after that
                                      many images, which is caught *)
  page_source : str                (* [driver.page_source] *)
}.

(** [if alt and alt not in equipments: equipments.append(alt)] *)
Definition add_equipment (equipments : list str) (alt : option str) : list str :=
  match alt with
  | None | Some [] => equipments
  | Some a => if Str.mem a equipments then equipments else equipments ++ [a]
  end.

(** The [equipments] list when the [try] block is left. *)
Definition equipments_of (view : page_view) : list str :=
  let seen := match equip_raises view with
              | Some k => firstn k (equip_alts view)
              | None => equip_alts view
              end in
  fold_left add_equipment seen [].

(** [None] when the navigation raised. *)
Definition fetch_page_with_selenium (view : page_view) : option (str * list str) :=
  if get_raises view then None
  else Some (page_source view, equipments_of view).

(* ------------------------------------------------------------------ *)
(** ** PARSE PUBLICATION *)

(** [re.sub(p, "", s)] for a pattern of plain characters; [skip] counts
    the characters of a match still to drop. *)
Fixpoint remove_sub (p s : str) (skip : nat) : str :=
  match s with
  | [] => []
  | c :: r =>
      match skip with
      | S k => remove_sub p r k
      | 0 => if Str.startswith p s then remove_sub p r (List.length p - 1)
             else c :: remove_sub p r 0
      end
  end.

Record fields := {
  f_id : str; f_url : str; f_title : str; f_price : str; f_location : str;
  f_publication_time : str; f_seller : str; f_category : str;
  f_description : str; f_breadcrumb : str; f_properties : str;
  f_equipments : str; f_images : str
}.

(** The dict [data], in the order its keys are set. *)
Definition to_dict (r : fields) : dict :=
  [ (lit "id", f_id r); (lit "url", f_url r); (lit "title", f_title r);
    (lit "price", f_price r); (lit "location", f_location r);
    (lit "publication_time", f_publication_time r);
    (lit "seller", f_seller r); (lit "category", f_category r);
    (lit "description", f_description r);
    (lit "breadcrumb", f_breadcrumb r); (lit "properties", f_properties r);
    (lit "equipments", f_equipments r); (lit "images", f_images r) ].

Section ParsePublication.

Context {lib : PyLib}.
(** [BeautifulSoup(html, "lxml")]: the top-level nodes of the tree. *)
Variable BeautifulSoup : str -> list node.
Variable fromisoformat : str -> option datetime.

(** [clean_text(el.get_text()) if el else ""] *)
Definition text_or_empty (el : option node) : str :=
  match el with
  | Some e => clean_text (Some (get_text e))
  | None => []
  end.

(** [re.compile(r"Cat[eé]gorie", re.I)] *)
Definition category_pattern : list atom :=
  map (fun c => One (caseless_eqb c)) (lit "Cat")
  ++ [One (fun c => caseless_eqb 101%N c || caseless_eqb 233%N c)]
  ++ map (fun c => One (caseless_eqb c)) (lit "gorie").

Definition is_category_label (n : node) : bool :=
  has_name "span" n &&
  match string_of n with
  | Some s => search category_pattern s
  | None => false
  end.

Definition category_of (els : list node) : str :=
  match find_rest is_category_label els with
  | Some (_, after) => text_or_empty (find_first (has_name "span") after)
  | None => []
  end.

Definition breadcrumb_item (li : node) : list str :=
  let text := clean_text (Some (get_text li)) in
  let text := strip (remove_sub (lit "Home Icon") text 0) in
  match text with
  | [] => []
  | _ => [text]
  end.

Definition breadcrumb_of (els : list node) : list str :=
  match find_first (has_name "ol") els with
  | Some ol => flat_map breadcrumb_item (filter (has_name "li") (descendants ol))
  | None => []
  end.

Definition add_property (properties : dict) (param : node) : dict :=
  let value := find_first (fun n => has_name "span" n && has_class "fjZBup" n)
                          (descendants param) in
  let label := find_first (fun n => has_name "span" n && has_class "bXFCIH" n)
                          (descendants param) in
  match value, label with
  | Some value, Some label =>
      dict_set properties (clean_text (Some (get_text label)))
               (clean_text (Some (get_text value)))
  | _, _ => properties
  end.

Definition properties_of (els : list node) : dict :=
  fold_left add_property
            (filter (fun n => has_name "div" n && has_class "sc-cd1c365e-1" n) els)
            [].

Definition add_image (images : list str) (img : node) : list str :=
  match attr (lit "src") img with
  | None | Some [] => images
  | Some src =>
      if Str.contains (lit "content.avito.ma") src
         && negb (Str.contains (lit "?t=card") src)
         && negb (Str.mem src images)
      then images ++ [src] else images
  end.

Definition images_of (els : list node) : list str :=
  fold_left add_image (filter (has_name "img") els) [].

(** The body of [parse_publication] after the page was fetched. *)
Definition extract (now : datetime) (random : N) (url : str)
           (soup : list node) (equipments : list str) : fields :=
  let els := soup_elements soup in
  {| f_id := uuid_str (uuid4 random);
     f_url := url;
     f_title := text_or_empty (find_first (has_name "h1") els);
     f_price :=
       text_or_empty
         (find_first (fun n => has_name "p" n && has_class "sc-16573058-12" n) els);
     f_location :=
       text_or_empty
         (find_first (fun n => has_name "span" n && has_class "sc-16573058-17" n) els);
     f_publication_time := parse_publication_date fromisoformat now soup;
     f_seller :=
       text_or_empty (find_first (has_attr "data-testid" "SellerName") els);
     f_category := category_of els;
     f_description :=
       text_or_empty
         (find_first (fun n => has_name "div" n && has_class "sc-9bb253d7-0" n) els);
     f_breadcrumb := json_list (breadcrumb_of els);
     f_properties := json_dict (properties_of els);
     f_equipments := json_list equipments;
     f_images := json_list (images_of els) |}.

(** [parse_publication(driver, url)]; [now] and [random] are what
    [datetime.now()] and the random source give during the call. *)
Definition parse_publication (now : datetime) (random : N)
           (view : page_view) (url : str) : outcome :=
  match fetch_page_with_selenium view with
  | None => Raised
  | Some (html, equipments) =>
      match html with
      | [] => Returned None
      | _ =>
          Returned (Some (to_dict (extract now random url
                                           (BeautifulSoup html) equipments)))
      end
  end.

End ParsePublication.

(** A document without any of the markers, and a view of it. *)
Definition bare_soup : list node :=
  [Elem (lit "html") []
        [Elem (lit "head") [] [Elem (lit "title") [] [Text (lit "Avito")]];
         Elem (lit "body") []
              [Elem (lit "section") [(lit "class", lit "empty")]
                    [Text (lit "rien"); Special [] (lit "note")]]]].

Definition bare_view : page_view :=
  {| get_raises := false; equip_alts := []; equip_raises := None;
     page_source := lit "<html>...</html>" |}.

Definition empty_view : page_view :=
  {| get_raises := false; equip_alts := []; equip_raises := None;
     page_source := [] |}.

Definition unreachable_view : page_view :=
  {| get_raises := true; equip_alts := []; equip_raises := None;
     page_source := [] |}.

(** Three links of which the second cannot be loaded; the others show a
    document without markers. *)
Definition second_unreachable (i : nat) (link : str) : outcome :=
  parse_publication (fun _ => bare_soup) (fun _ => None) feb_1_2024
                    (N.of_nat i)
                    (if i =? 1 then unreachable_view else bare_view) link.

(** The record of a document without markers: empty texts and the JSON
    texts of the empty list and the empty dict. *)
Definition default_fields (random : N) (url : str) : fields :=
  {| f_id := uuid_str (uuid4 random); f_url := url;
     f_title := []; f_price := []; f_location := [];
     f_publication_time := []; f_seller := []; f_category := [];
     f_description := []; f_breadcrumb := lit "[]"; f_properties := lit "{}";
     f_equipments := lit "[]"; f_images := lit "[]" |}.

(** A tag that one of the selection rules of [parse_publication] can
    pick. *)
Definition is_marker (n : node) : bool :=
  has_name "h1" n || has_name "p" n || has_name "span" n
  || has_name "time" n || has_name "ol" n || has_name "div" n
  || has_name "img" n || has_attr "data-testid" "SellerName" n.

(* ------------------------------------------------------------------ *)
(** ** FETCH PAGE + EQUIPMENTS via SELENIUM: the waits

    [present k] tells whether the [k]-th call (from 0) of
    [driver.find_elements(By.TAG_NAME, "h1")] finds a heading. *)

Record heading_wait := {
  h_polls : nat;     (* calls of find_elements made by the loop *)
  h_sleeps : nat;    (* calls of [time.sleep(0.5)] *)
  h_found : bool     (* the loop left through [break] *)
}.

(** [for _ in range(n)] with [k] polls, and as many sleeps, made. *)
Fixpoint heading_loop (present : nat -> bool) (n k : nat) : heading_wait :=
  match n with
  | 0 => {| h_polls := k; h_sleeps := k; h_found := false |}
  | S n' =>
      if present k
      then {| h_polls := S k; h_sleeps := k; h_found := true |}
      else heading_loop present n' (S k)
  end.

Definition HEADING_BOUND : nat := 20.

Definition wait_heading (present : nat -> bool) : heading_wait :=
  heading_loop present HEADING_BOUND 0.

(** The equipment loop with its calls of [time.sleep(0.2)] counted:
    one after every poll that does not leave the loop. *)
Fixpoint poll_loop_sleeps (samples : nat -> nat) (n k prev sleeps : nat) : nat :=
  match n with
  | 0 => sleeps
  | S n' =>
      let curr_count := samples k in
      if (0 <? curr_count) && (curr_count =? prev) then sleeps
      else poll_loop_sleeps samples n' (S k) curr_count (S sleeps)
  end.

(** The time [fetch_page_with_selenium] spends in [time.sleep], in
    tenths of a second: half a second per heading sleep, one second after
    the scroll, a fifth of a second per equipment sleep. *)
Definition sleep_tenths (present : nat -> bool) (samples : nat -> nat) : nat :=
  5 * h_sleeps (wait_heading present) + 10
  + 2 * poll_loop_sleeps samples POLL_BOUND 0 0 0.

(** [main()] with its call of [get_links()]: the trace of the run and
    whether it ended normally. *)
Definition run {lib : PyLib} (fetch : nat -> option (list str))
           (parse_publication : nat -> str -> outcome)
           (driver_ok quit_ok : bool)
  : list event * bool :=
  main parse_publication driver_ok quit_ok
       (links (get_links fetch MAX_PAGES MAX_LINKS)).

(** What the log of a discovery says about the pages: a failed entry is
    a page whose request failed, a scanned entry one that was fetched. *)
Definition log_sound (fetch : nat -> option (list str))
           (log : list (nat * page_outcome)) : Prop :=
  Forall (fun e => match snd e with
                   | FetchFailed => fetch (fst e) = None
                   | Scanned _ => fetch (fst e) <> None
                   end) log.

(** The events of the loop over the links. *)
Definition is_step (e : event) : bool :=
  match e with Visit _ | Pause => true | _ => false end.

Definition is_pause (e : event) : bool :=
  match e with Pause => true | _ => false end.

Definition pauses (trace : list event) : nat :=
  List.length (filter is_pause trace).

(** The third of three links is interrupted. *)
Definition third_interrupted (i : nat) (link : str) : outcome :=
  if i =? 2 then Aborted else Returned (Some (stub_record link)).

Definition nonspace (c : char) : bool := negb (isspace c).

(* ------------------------------------------------------------------ *)
(** ** Reading back what [save_csv] writes

    A reader for files in which every field is quoted, as [csv.reader]
    reads them: inside a field two quotes stand for one, fields are
    separated by commas and a record ends with a carriage return and a
    newline. *)

(** A field from just after its opening quote: the value, and the text
    after the closing quote. *)
Fixpoint read_quoted (s : str) : option (str * str) :=
  match s with
  | [] => None
  | c :: r =>
      if N.eqb c QUOTE then
        match r with
        | c' :: r' =>
            if N.eqb c' QUOTE then
              match read_quoted r' with
              | Some (v, rest) => Some (QUOTE :: v, rest)
              | None => None
              end
            else Some ([], r)
        | [] => Some ([], [])
        end
      else
        match read_quoted r with
        | Some (v, rest) => Some (c :: v, rest)
        | None => None
        end
  end.

(** One record: its fields, and the text after its line end. *)
Fixpoint read_record (fuel : nat) (s : str) : option (list str * str) :=
  match fuel, s with
  | S fuel', q :: r =>
      if N.eqb q QUOTE then
        match read_quoted r with
        | Some (v, c :: rest) =>
            if N.eqb c COMMA then
              match read_record fuel' rest with
              | Some (cells, rest') => Some (v :: cells, rest')
              | None => None
              end
            else if N.eqb c CR then
              match rest with
              | c' :: rest' => if N.eqb c' LF then Some ([v], rest') else None
              | [] => None
              end
            else None
        | _ => None
        end
      else None
  | _, _ => None
  end.

Fixpoint read_records (fuel : nat) (s : str) : option (list (list str)) :=
  match s, fuel with
  | [], _ => Some []
  | _, 0 => None
  | _, S fuel' =>
      match read_record (List.length s) s with
      | Some (cells, rest) =>
          match read_records fuel' rest with
          | Some records => Some (cells :: records)
          | None => None
          end
      | None => None
      end
  end.

Definition csv_reader (s : str) : option (list (list str)) :=
  read_records (List.length s) s.

(** A row all of whose keys are field names. *)
Definition known_keys (fieldnames : list str) (row : dict) : Prop :=
  forall k, In k (map fst row) -> In k fieldnames.

(** A row that [DictWriter.writerow] writes: its keys are field names
    and its values under the field names can be encoded. *)
Definition writable (fieldnames : list str) (row : dict) : Prop :=
  known_keys fieldnames row /\
  forallb encodable (map (value_of row) fieldnames) = true.

(** A value with a quote, a comma and a line end in it. *)
Definition awkward_row : dict :=
  [(lit "title", lit "a" ++ [QUOTE; COMMA; CR; LF; QUOTE] ++ lit "b")].

(* ------------------------------------------------------------------ *)
(** ** What the loops of [parse_publication] pick *)

(** The label and the value of a property block, when it has both. *)
Definition label_value (param : node) : option (str * str) :=
  match find_first (fun n => has_name "span" n && has_class "fjZBup" n)
                   (descendants param),
        find_first (fun n => has_name "span" n && has_class "bXFCIH" n)
                   (descendants param) with
  | Some value, Some label =>
      Some (clean_text (Some (get_text label)),
            clean_text (Some (get_text value)))
  | _, _ => None
  end.

Definition is_property_block (n : node) : bool :=
  has_name "div" n && has_class "sc-cd1c365e-1" n.

(** The source of an image tag, when the test of the image loop lets it
    through apart from the test for duplicates. *)
Definition listing_image (img : node) : option str :=
  match attr (lit "src") img with
  | None | Some [] => None
  | Some src =>
      if Str.contains (lit "content.avito.ma") src
         && negb (Str.contains (lit "?t=card") src)
      then Some src else None
  end.

(** The label of an equipment image, when it has one that is not
    empty. *)
Definition equipment_label (alt : option str) : option str :=
  match alt with
  | None | Some [] => None
  | Some a => Some a
  end.

(** Appending what [pick] gives for an item unless it is there
    already. *)
Definition add_new {A} (pick : A -> option str) (acc : list str) (x : A)
  : list str :=
  match pick x with
  | Some v => if Str.mem v acc then acc else acc ++ [v]
  | None => acc
  end.

(** A property block with a label and a value. *)
Definition property_block (label value : string) : node :=
  Elem (lit "div") [(lit "class", lit "sc-cd1c365e-1 x")]
       [Elem (lit "span") [(lit "class", lit "fjZBup")] [Text (lit value)];
        Elem (lit "span") [(lit "class", lit "bXFCIH")] [Text (lit label)]].

(** The line of a record in the file: its fields in the order of the
    header. *)
Definition record_cells (r : fields) : list str :=
  [ f_id r; f_url r; f_title r; f_price r; f_location r;
    f_publication_time r; f_breadcrumb r; f_category r; f_seller r;
    f_description r; f_properties r; f_equipments r; f_images r ].

(** A record all of whose fields can be encoded. *)
Definition record_encodable (r : fields) : Prop :=
  forallb encodable (record_cells r) = true.

(** A row whose title is a lone surrogate. *)
Definition surrogate_row : dict := [(lit "title", [55296%N])].

Definition is_hex (c : char) : bool :=
  ((48 <=? c) && (c <=? 57) || (97 <=? c) && (c <=? 102))%N.

Definition DASH : char := 45%N.

(* ------------------------------------------------------------------ *)
(** ** Reading back the JSON text of a list of texts *)

Definition hex_value (c : char) : option N :=
  (if (48 <=? c) && (c <=? 57) then Some (c - 48)
   else if (97 <=? c) && (c <=? 102) then Some (c - 87)
   else None)%N.

(** The character that a backslash and [e] stand for. *)
Definition unescape (e : char) : option char :=
  (if e =? QUOTE then Some QUOTE
   else if e =? BACKSLASH then Some BACKSLASH
   else if e =? 110 then Some LF
   else if e =? 114 then Some CR
   else if e =? 116 then Some TAB
   else if e =? 98 then Some 8
   else if e =? 102 then Some 12
   else None)%N.

Definition hex4 (a b c d : char) : option char :=
  match hex_value a, hex_value b, hex_value c, hex_value d with
  | Some a, Some b, Some c, Some d => Some (((a * 16 + b) * 16 + c) * 16 + d)%N
  | _, _, _, _ => None
  end.

(** A string from just after its opening quote: the text, and what
    follows the closing quote. *)
Fixpoint read_json_string (s : str) : option (str * str) :=
  match s with
  | [] => None
  | c :: r =>
      if N.eqb c QUOTE then Some ([], r)
      else if N.eqb c BACKSLASH then
        match r with
        | [] => None
        | e :: r' =>
            if N.eqb e 117 then
              match r' with
              | h1 :: h2 :: h3 :: h4 :: r'' =>
                  match hex4 h1 h2 h3 h4, read_json_string r'' with
                  | Some x, Some (v, rest) => Some (x :: v, rest)
                  | _, _ => None
                  end
              | _ => None
              end
            else
              match unescape e, read_json_string r' with
              | Some x, Some (v, rest) => Some (x :: v, rest)
              | _, _ => None
              end
        end
      else
        match read_json_string r with
        | Some (v, rest) => Some (c :: v, rest)
        | None => None
        end
  end.

(** The items of a list from its first item on, up to the closing
    bracket. *)
Fixpoint read_json_items (fuel : nat) (s : str) : option (list str) :=
  match fuel, s with
  | S fuel', q :: r =>
      if N.eqb q QUOTE then
        match read_json_string r with
        | Some (v, c :: rest) =>
            if N.eqb c 93 then
              match rest with [] => Some [v] | _ => None end
            else if N.eqb c COMMA then
              match rest with
              | sp :: rest' =>
                  if N.eqb sp SP then
                    match read_json_items fuel' rest' with
                    | Some vs => Some (v :: vs)
                    | None => None
                    end
                  else None
              | [] => None
              end
            else None
        | _ => None
        end
      else None
  | _, _ => None
  end.

Definition read_json_list (s : str) : option (list str) :=
  match s with
  | c :: r =>
      if N.eqb c 91 then
        match r with
        | [c'] => if N.eqb c' 93 then Some [] else read_json_items (List.length r) r
        | _ => read_json_items (List.length r) r
        end
      else None
  | [] => None
  end.

(* ================================================================== *)
(** * Properties *)

Section StabilizerFacts.

Variable samples : nat -> nat.
Local Abbreviation prev_at := (prev_at samples).

Lemma break_iff_fixed_point k :
  (0 <? samples k) && (samples k =? prev_at k) = true <->
  fixed_point_at samples k.
Proof.
  rewrite andb_true_iff, Nat.ltb_lt, Nat.eqb_eq. unfold fixed_point_at.
  destruct k as [|j]; simpl.
  - split.
    + intros [H1 H2]. lia.
    + intros (j & Hj & _). discriminate.
  - split.
    + intros [H1 H2]. exists j. auto.
    + intros (j' & Hj & H1 & H2). injection Hj as <-. auto.
Qed.

Lemma poll_loop_spec n k :
  let r := poll_loop samples n k (prev_at k) in
  (forall i, k <= i < k + n -> ~ fixed_point_at samples i) ->
  polls r = k + n /\ stable r = false /\ last_count r = prev_at (k + n).
Proof.
  revert k. induction n as [|n IH]; intros k r Hno; subst r; simpl.
  - rewrite Nat.add_0_r. auto.
  - destruct ((0 <? samples k) && (samples k =? prev_at k)) eqn:E.
    + apply break_iff_fixed_point in E. exfalso. apply (Hno k); [lia|exact E].
    + replace (k + S n) with (S k + n) by lia.
      apply (IH (S k)). intros i Hi. apply Hno. lia.
Qed.

Lemma poll_loop_break n k i :
  k <= i < k + n ->
  (forall i', k <= i' < i -> ~ fixed_point_at samples i') ->
  fixed_point_at samples i ->
  let r := poll_loop samples n k (prev_at k) in
  polls r = S i /\ stable r = true /\ last_count r = samples i.
Proof.
  revert k. induction n as [|n IH]; intros k Hi Hbefore Hfix r; subst r.
  - lia.
  - simpl. destruct ((0 <? samples k) && (samples k =? prev_at k)) eqn:E.
    + apply break_iff_fixed_point in E.
      assert (i = k) as ->.
      { destruct (Nat.eq_dec i k) as [|Hne]; [assumption|].
        exfalso. apply (Hbefore k); [lia|exact E]. }
      simpl. auto.
    + assert (i <> k) as Hne.
      { intros ->. apply break_iff_fixed_point in Hfix. congruence. }
      apply (IH (S k)); [lia| |exact Hfix].
      intros i' Hi'. apply Hbefore. lia.
Qed.

Lemma poll_loop_polls_le n k prev :
  polls (poll_loop samples n k prev) <= k + n.
Proof.
  revert k prev. induction n as [|n IH]; intros k prev; simpl.
  - lia.
  - destruct ((0 <? samples k) && (samples k =? prev)).
    + simpl. lia.
    + specialize (IH (S k) (samples k)). lia.
Qed.

End StabilizerFacts.

Lemma strictly_increasing_no_fixed_point (samples : nat -> nat) :
  (forall i, samples i < samples (S i)) ->
  forall i, ~ fixed_point_at samples i.
Proof.
  intros Hinc i (j & -> & _ & Heq). specialize (Hinc j). lia.
Qed.

(** C1. The equipment-count poll makes at most 10 attempts.  It stops at
    the first attempt whose count is nonzero and equal to the count of the
    attempt just before, and when there is no such attempt among the first
    10 it stops only after the 10th.  On the sampled counts [0,2,2] it
    stops at the third poll with count 2; on a strictly increasing count
    sequence it stops only at the bound. *)
Theorem stabilization_fixed_point :
  (forall samples, polls (wait_equipment_stable samples) <= 10) /\
  (forall samples i,
      i < 10 ->
      fixed_point_at samples i ->
      (forall i', i' < i -> ~ fixed_point_at samples i') ->
      polls (wait_equipment_stable samples) = S i /\
      stable (wait_equipment_stable samples) = true /\
      last_count (wait_equipment_stable samples) = samples i) /\
  (forall samples,
      (forall i, i < 10 -> ~ fixed_point_at samples i) ->
      polls (wait_equipment_stable samples) = 10 /\
      stable (wait_equipment_stable samples) = false) /\
  (polls (wait_equipment_stable (sampled [0; 2; 2])) = 3 /\
   last_count (wait_equipment_stable (sampled [0; 2; 2])) = 2 /\
   stable (wait_equipment_stable (sampled [0; 2; 2])) = true) /\
  (forall samples,
      (forall i, samples i < samples (S i)) ->
      polls (wait_equipment_stable samples) = 10 /\
      stable (wait_equipment_stable samples) = false).
Proof.
  unfold wait_equipment_stable, POLL_BOUND.
  split; [|split; [|split; [|split]]].
  - intros samples. apply (poll_loop_polls_le samples 10 0 0).
  - intros samples i Hi Hfix Hbefore.
    apply (poll_loop_break samples 10 0 i); [lia| |exact Hfix].
    intros i' Hi'. apply Hbefore. lia.
  - intros samples Hno.
    destruct (poll_loop_spec samples 10 0) as (H1 & H2 & _).
    + intros i Hi. apply Hno. lia.
    + simpl in H1, H2. auto.
  - repeat split; reflexivity.
  - intros samples Hinc.
    destruct (poll_loop_spec samples 10 0) as (H1 & H2 & _).
    + intros i _. apply strictly_increasing_no_fixed_point. exact Hinc.
    + simpl in H1, H2. auto.
Qed.

(** The poll on the counts 1, 2, 3, ... runs to the bound; on 0, 2, 2 it
    stops at the third poll. *)
Lemma stabilization_fixed_point_witness :
  (polls (wait_equipment_stable S) = 10 /\
   stable (wait_equipment_stable S) = false) /\
  (polls (wait_equipment_stable (sampled [0; 2; 2])) = 3 /\
   stable (wait_equipment_stable (sampled [0; 2; 2])) = true /\
   last_count (wait_equipment_stable (sampled [0; 2; 2])) = 2).
Proof.
  destruct stabilization_fixed_point as (_ & Hbreak & _ & _ & Hinc).
  split.
  - apply (Hinc S). intros i. lia.
  - apply (Hbreak (sampled [0; 2; 2]) 2).
    + lia.
    + exists 1. unfold sampled. simpl. repeat split; lia.
    + intros i' Hi' (j & Hj & Hpos & Heq).
      destruct i' as [|[|i']]; [discriminate| |lia].
      injection Hj as <-. unfold sampled in Heq. simpl in Heq. lia.
Defined.

(* ------------------------------------------------------------------ *)
(** ** clean_text *)

Section CleanTextFacts.

Local Arguments isspace : simpl never.

Lemma isspace_SP : isspace SP = true.
Proof. reflexivity. Qed.

Lemma sub_spaces_collapsed b s : collapsed b (sub_spaces b s) = true.
Proof.
  revert b. induction s as [|c r IH]; intros b; simpl; [reflexivity|].
  destruct (isspace c) eqn:E.
  - destruct b; simpl; apply IH.
  - simpl. rewrite E. apply IH.
Qed.

Lemma collapsed_weaken s : collapsed true s = true -> collapsed false s = true.
Proof.
  destruct s as [|c r]; simpl; [reflexivity|].
  destruct (isspace c); [discriminate|auto].
Qed.

Lemma collapsed_tail b c r :
  collapsed b (c :: r) = true -> collapsed false r = true.
Proof.
  simpl. destruct (isspace c).
  - rewrite !andb_true_iff. intros [_ H]. apply collapsed_weaken, H.
  - auto.
Qed.

Lemma collapsed_sub_spaces b s : collapsed b s = true -> sub_spaces b s = s.
Proof.
  revert b. induction s as [|c r IH]; intros b; simpl; [reflexivity|].
  destruct (isspace c).
  - rewrite !andb_true_iff. intros [[Hb Hc] Hr].
    apply N.eqb_eq in Hc. subst c.
    destruct b; [discriminate|]. f_equal. apply IH, Hr.
  - intros Hr. f_equal. apply IH, Hr.
Qed.

Lemma collapsed_replace b x s :
  isspace x = true -> x <> SP ->
  collapsed b s = true -> Str.replace x SP s = s.
Proof.
  intros Hx Hne. revert b. induction s as [|c r IH]; intros b; simpl;
    [reflexivity|].
  destruct (N.eqb_spec c x) as [->|Hcx].
  - rewrite Hx, !andb_true_iff. intros [[_ Hc] _].
    apply N.eqb_eq in Hc. contradiction.
  - intros H. f_equal. destruct (isspace c).
    + rewrite !andb_true_iff in H. apply (IH true), H.
    + apply (IH false), H.
Qed.

Lemma collapsed_lstrip b s :
  collapsed b s = true -> collapsed false (lstrip s) = true.
Proof.
  unfold lstrip. revert b. induction s as [|c r IH]; intros b H; simpl.
  - reflexivity.
  - destruct (isspace c) eqn:E.
    + apply (IH false). apply (collapsed_tail b c), H.
    + simpl in *. rewrite E in *. exact H.
Qed.

Lemma collapsed_rstrip b s :
  collapsed b s = true -> collapsed b (rstrip s) = true.
Proof.
  revert b. induction s as [|c r IH]; intros b; simpl; [reflexivity|].
  destruct (isspace c) eqn:E.
  - rewrite !andb_true_iff. intros [[Hb Hc] Hr].
    specialize (IH true Hr). destruct (rstrip r) as [|c' r'].
    + reflexivity.
    + change (collapsed b (c :: c' :: r') = true).
      cbn [collapsed]. rewrite E, Hb, Hc. exact IH.
  - intros Hr. specialize (IH false Hr). destruct (rstrip r) as [|c' r'].
    + simpl. rewrite E. reflexivity.
    + change (collapsed b (c :: c' :: r') = true).
      cbn [collapsed]. rewrite E. exact IH.
Qed.

Lemma lstrip_no_leading_space s : starts_with_space (lstrip s) = false.
Proof.
  unfold lstrip. induction s as [|c r IH]; simpl; [reflexivity|].
  destruct (isspace c) eqn:E; [exact IH|]. simpl. exact E.
Qed.

Lemma lstrip_fixed s : starts_with_space s = false -> lstrip s = s.
Proof.
  unfold lstrip. destruct s as [|c r]; simpl; [reflexivity|].
  intros ->. reflexivity.
Qed.

Lemma rstrip_keeps_head s :
  starts_with_space s = false -> starts_with_space (rstrip s) = false.
Proof.
  destruct s as [|c r]; simpl; [reflexivity|]. intros E.
  destruct (rstrip r); [rewrite E|]; simpl; auto.
Qed.

Lemma rstrip_no_trailing_space s : ends_with_space (rstrip s) = false.
Proof.
  induction s as [|c r IH]; simpl; [reflexivity|].
  destruct (rstrip r) as [|c' r'].
  - destruct (isspace c) eqn:E; simpl; auto.
  - exact IH.
Qed.

Lemma rstrip_fixed s : ends_with_space s = false -> rstrip s = s.
Proof.
  induction s as [|c r IH]; [reflexivity|].
  destruct r as [|c' r'].
  - simpl. intros ->. reflexivity.
  - intros H. change (ends_with_space (c' :: r') = false) in H.
    specialize (IH H). cbn [rstrip] in *. rewrite IH. reflexivity.
Qed.

(** The three stages leave the words of the text as they are. *)
Lemma words_replace x s :
  isspace x = true -> words (Str.replace x SP s) = words s.
Proof.
  intros Hx. unfold Str.replace.
  assert (Hf : forall c, isspace (if N.eqb c x then SP else c) = isspace c).
  { intros c. destruct (N.eqb_spec c x) as [->|]; [now rewrite Hx|reflexivity]. }
  assert (Hb : forall r,
             word_break (map (fun c => if N.eqb c x then SP else c) r)
             = word_break r).
  { destruct r; simpl; auto. }
  induction s as [|c r IH]; simpl; [reflexivity|].
  rewrite Hf, Hb, IH. destruct (isspace c) eqn:E; [reflexivity|].
  destruct (N.eqb_spec c x) as [->|]; [congruence|reflexivity].
Qed.

Lemma word_break_sub_spaces r :
  word_break (sub_spaces false r) = word_break r.
Proof.
  destruct r as [|c r]; simpl; [reflexivity|].
  destruct (isspace c) eqn:E; simpl; auto.
Qed.

Lemma words_sub_spaces b s : words (sub_spaces b s) = words s.
Proof.
  revert b. induction s as [|c r IH]; intros b; simpl; [reflexivity|].
  destruct (isspace c) eqn:E.
  - destruct b; simpl; apply IH.
  - simpl. rewrite E, word_break_sub_spaces, IH. reflexivity.
Qed.

Lemma words_lstrip s : words (lstrip s) = words s.
Proof.
  unfold lstrip. induction s as [|c r IH]; simpl; [reflexivity|].
  destruct (isspace c) eqn:E; [exact IH|]. simpl. rewrite E. reflexivity.
Qed.

Lemma words_rstrip s : words (rstrip s) = words s.
Proof.
  induction s as [|c r IH]; simpl; [reflexivity|].
  destruct (rstrip r) as [|c' r'] eqn:Er.
  - rewrite <- IH. destruct (isspace c) eqn:E; simpl; [reflexivity|].
    rewrite E. simpl. destruct (word_break r); reflexivity.
  - assert (Hb : word_break (c' :: r') = word_break r).
    { destruct r as [|c0 r0]; [discriminate|]. simpl in Er.
      destruct (rstrip r0); [destruct (isspace c0); [discriminate|]|];
        injection Er as <- _; reflexivity. }
    rewrite <- IH, <- Hb. reflexivity.
Qed.

Lemma words_nonempty s :
  s <> [] -> starts_with_space s = false -> words s <> [].
Proof.
  destruct s as [|c r]; [congruence|]. simpl. intros _ ->.
  destruct (word_break r); [discriminate|].
  destruct (words r); discriminate.
Qed.

Lemma join_sp_push c ws :
  ws <> [] -> join_sp (push_char c ws) = c :: join_sp ws.
Proof.
  destruct ws as [|w [|w' ws]]; [congruence| |]; reflexivity.
Qed.

(** A collapsed text without a trailing space is its words joined by
    single spaces, after a leading space if it has one. *)
Lemma join_words_collapsed s :
  collapsed false s = true -> ends_with_space s = false ->
  join_sp (words s) = lstrip s.
Proof.
  induction s as [|c r IH]; [reflexivity|]. intros Hc He.
  assert (Hr : collapsed false r = true) by exact (collapsed_tail _ _ _ Hc).
  assert (Her : ends_with_space r = false).
  { destruct r; [reflexivity|exact He]. }
  specialize (IH Hr Her). unfold lstrip in *. simpl in *.
  destruct (isspace c) eqn:E.
  - rewrite !andb_true_iff in Hc. destruct Hc as [_ Hc].
    destruct r as [|c' r']; [simpl in He; congruence|].
    simpl in Hc, IH |- *. destruct (isspace c'); [discriminate|exact IH].
  - destruct r as [|c' r']; [reflexivity|].
    cbn [word_break]. destruct (isspace c') eqn:E'.
    + cbn [words] in *. rewrite E' in *. cbn [Str.dropwhile] in IH.
      rewrite E' in IH. cbn [collapsed] in Hc. rewrite E' in Hc.
      rewrite !andb_true_iff in Hc. destruct Hc as [[_ Hsp] Hc].
      apply N.eqb_eq in Hsp. subst c'.
      destruct r' as [|c2 r2]; [simpl in He; congruence|].
      assert (E2 : isspace c2 = false).
      { simpl in Hc. destruct (isspace c2); [discriminate|reflexivity]. }
      cbn [Str.dropwhile] in IH. rewrite E2 in IH.
      assert (Hne : words (c2 :: r2) <> []).
      { apply words_nonempty; [discriminate|exact E2]. }
      destruct (words (c2 :: r2)) as [|w ws]; [congruence|].
      rewrite <- IH. reflexivity.
    + cbn [Str.dropwhile] in IH. rewrite E' in IH.
      rewrite join_sp_push.
      * rewrite IH. reflexivity.
      * apply words_nonempty; [discriminate|exact E'].
Qed.

Lemma clean_text_tidy x : tidy (clean_text x).
Proof.
  destruct x as [[|c r]|]; try (repeat split; reflexivity).
  unfold clean_text, strip.
  set (v := sub_spaces false _).
  assert (Hv : collapsed false v = true) by apply sub_spaces_collapsed.
  repeat split.
  - apply collapsed_rstrip. apply (collapsed_lstrip false), Hv.
  - apply rstrip_keeps_head, lstrip_no_leading_space.
  - apply rstrip_no_trailing_space.
Qed.

Lemma clean_text_fixed s : tidy s -> clean_text (Some s) = s.
Proof.
  intros (Hc & Hs & He). destruct s as [|c r]; [reflexivity|].
  unfold clean_text, strip.
  rewrite (collapsed_replace false LF) by (reflexivity || discriminate || exact Hc).
  rewrite (collapsed_replace false CR) by (reflexivity || discriminate || exact Hc).
  rewrite (collapsed_replace false TAB) by (reflexivity || discriminate || exact Hc).
  rewrite (collapsed_sub_spaces false) by exact Hc.
  rewrite lstrip_fixed by exact Hs. apply rstrip_fixed, He.
Qed.

Lemma clean_text_words s : words (clean_text (Some s)) = words s.
Proof.
  destruct s as [|c r]; [reflexivity|].
  unfold clean_text, strip.
  rewrite words_rstrip, words_lstrip, words_sub_spaces.
  rewrite !words_replace by reflexivity. reflexivity.
Qed.

Lemma tidy_no_other_space s c :
  tidy s -> In c s -> isspace c = true -> c = SP.
Proof.
  intros (Hc & _ & _). generalize false, Hc. clear Hc.
  induction s as [|a r IH]; intros b Hc Hin Hsp; [contradiction|].
  simpl in Hc. destruct Hin as [->|Hin].
  - rewrite Hsp, !andb_true_iff in Hc. destruct Hc as [[_ Hc] _].
    apply N.eqb_eq, Hc.
  - destruct (isspace a).
    + rewrite !andb_true_iff in Hc. apply (IH true); tauto.
    + apply (IH false); auto.
Qed.

End CleanTextFacts.

(** C10. [clean_text] is a total function with
    [clean_text (clean_text x) = clean_text x] for every [x],
    [clean_text "" = ""] and [clean_text None = ""].  Its result is the
    words of the input joined by single spaces: newlines, carriage returns
    and tabs are gone, every run of whitespace has become one space, and
    there is no whitespace at either end. *)
Theorem clean_text_normalizes :
  (forall x, clean_text (Some (clean_text x)) = clean_text x) /\
  clean_text (Some []) = [] /\
  clean_text None = [] /\
  (forall s, clean_text (Some s) = join_sp (words s)) /\
  (forall x,
      collapsed false (clean_text x) = true /\
      starts_with_space (clean_text x) = false /\
      ends_with_space (clean_text x) = false /\
      ~ In LF (clean_text x) /\ ~ In CR (clean_text x) /\
      ~ In TAB (clean_text x)).
Proof.
  split; [|split; [|split; [|split]]].
  - intros x. apply clean_text_fixed, clean_text_tidy.
  - reflexivity.
  - reflexivity.
  - intros s. rewrite <- clean_text_words.
    destruct (clean_text_tidy (Some s)) as (Hc & Hs & He).
    rewrite join_words_collapsed by assumption.
    symmetry. apply lstrip_fixed, Hs.
  - intros x. pose proof (clean_text_tidy x) as Ht.
    destruct Ht as (Hc & Hs & He). repeat split; try assumption.
    all: intros Hin;
      apply (tidy_no_other_space (clean_text x)) in Hin;
      [discriminate|repeat split; assumption|reflexivity].
Qed.

(* ------------------------------------------------------------------ *)
(** ** get_links *)

Lemma mem_In x xs : Str.mem x xs = true <-> In x xs.
Proof.
  unfold Str.mem, Str.eqb. rewrite existsb_exists. split.
  - intros (y & Hy & E). destruct (list_eq_dec N.eq_dec x y); congruence.
  - intros H. exists x. split; [exact H|].
    destruct (list_eq_dec N.eq_dec x x); congruence.
Qed.

Lemma before_no_sep c s : ~ In c (Str.before c s).
Proof.
  induction s as [|a r IH]; simpl; [tauto|].
  destruct (N.eqb_spec a c); simpl; [tauto|]. intros [H|H]; auto.
Qed.

Lemma before_fixed c s : ~ In c s -> Str.before c s = s.
Proof.
  induction s as [|a r IH]; simpl; [reflexivity|]. intros H.
  destruct (N.eqb_spec a c) as [->|]; [tauto|]. f_equal. apply IH. tauto.
Qed.

Section GetLinksFacts.

Context {lib : PyLib}.
Variable fetch : nat -> option (list str).
Variables max_pages max_links : nat.
Local Abbreviation discovered := (discovered fetch).

Lemma scan_page_spec (Q : str -> Prop) hrefs ls nf :
  NoDup ls -> Forall Q ls ->
  (forall l, from_anchor hrefs l -> Q l) ->
  exists ext,
    scan_page max_links hrefs ls nf = (ls ++ ext, nf + List.length ext) /\
    NoDup (ls ++ ext) /\ Forall Q (ls ++ ext).
Proof.
  revert ls nf. induction hrefs as [|href rest IH]; intros ls nf Hnd HQ Hfrom.
  - exists []. simpl. rewrite app_nil_r, Nat.add_0_r. auto.
  - assert (Hrest : forall l, from_anchor rest l -> Q l).
    { intros l (h & Hin & H). apply Hfrom. exists h. simpl. tauto. }
    cbn [scan_page].
    destruct (is_detail (resolve href)) eqn:Ed;
      [destruct (Str.mem (strip_query (resolve href)) ls) eqn:Em|].
    + destruct (max_links <=? List.length ls).
      * exists []. rewrite app_nil_r, Nat.add_0_r. auto.
      * apply IH; assumption.
    + set (l := strip_query (resolve href)) in *.
      assert (Hnd' : NoDup (ls ++ [l])).
      { apply NoDup_app; [exact Hnd|repeat constructor; simpl; tauto|].
        intros x Hx [<-|[]]. apply mem_In in Hx. congruence. }
      assert (HQ' : Forall Q (ls ++ [l])).
      { apply Forall_app. split; [exact HQ|]. constructor; [|constructor].
        apply Hfrom. exists href. simpl. auto. }
      destruct (max_links <=? List.length (ls ++ [l])).
      * exists [l]. simpl. rewrite Nat.add_1_r. auto.
      * destruct (IH (ls ++ [l]) (S nf) Hnd' HQ' Hrest) as (ext & E & H1 & H2).
        exists (l :: ext). rewrite E. simpl.
        rewrite <- app_assoc in *. simpl in *.
        split; [f_equal; lia|auto].
    + destruct (max_links <=? List.length ls).
      * exists []. rewrite app_nil_r, Nat.add_0_r. auto.
      * apply IH; assumption.
Qed.

Lemma pages_loop_spec n page ls log :
  NoDup ls -> Forall discovered ls -> growing log ->
  map fst log = seq 1 (List.length log) -> page = S (List.length log) ->
  let d := pages_loop fetch max_links n page ls log in
  NoDup (links d) /\ Forall discovered (links d) /\
  map fst (pages d) = seq 1 (List.length (pages d)) /\
  List.length (pages d) <= List.length log + n /\
  exists stop, pages d = log ++ stop /\
               (stop = [] \/ growing (removelast (pages d))).
Proof.
  revert page ls log. induction n as [|n IH];
    intros page ls log Hnd Hd Hg Hseq Hpage; cbn [pages_loop].
  - simpl. repeat split; auto; [lia|]. exists []. rewrite app_nil_r. auto.
  - assert (Hlog : forall o,
               map fst (log ++ [(page, o)])
               = seq 1 (List.length (log ++ [(page, o)]))).
    { intros o. rewrite map_app, length_app, seq_app, Hseq. simpl.
      subst page. reflexivity. }
    assert (Hlast : forall o, removelast (log ++ [(page, o)]) = log).
    { intros o. apply removelast_last. }
    destruct (fetch page) as [hrefs|] eqn:Ef.
    + destruct (scan_page_spec discovered hrefs ls 0 Hnd Hd)
        as (ext & E & Hnd' & Hd').
      { intros l Hl. exists page, hrefs. auto. }
      rewrite E. simpl Nat.add.
      destruct (List.length ext) as [|m] eqn:El.
      * simpl. rewrite Hlog, Hlast, length_app. simpl.
        repeat split; auto; [lia|]. eexists. split; [reflexivity|auto].
      * cbn [Nat.eqb].
        destruct (IH (S page) (ls ++ ext) (log ++ [(page, Scanned (S m))]))
          as (H1 & H2 & H3 & H4 & stop & H5 & H6); auto.
        { apply Forall_app. split; [exact Hg|]. repeat constructor.
          exists m. reflexivity. }
        { rewrite length_app. simpl. lia. }
        repeat split; auto.
        { rewrite length_app in H4. simpl in H4. lia. }
        eexists. split; [rewrite H5, <- app_assoc; reflexivity|].
        right. destruct H6 as [->|H6]; [|exact H6].
        rewrite H5, app_nil_r, Hlast. exact Hg.
    + simpl. rewrite Hlog, Hlast, length_app. simpl.
      repeat split; auto; [lia|]. eexists. split; [reflexivity|auto].
Qed.

Lemma get_links_spec :
  let d := get_links fetch max_pages max_links in
  NoDup (links d) /\ Forall discovered (links d) /\
  map fst (pages d) = seq 1 (List.length (pages d)) /\
  List.length (pages d) <= max_pages /\
  growing (removelast (pages d)).
Proof.
  destruct (pages_loop_spec max_pages 1 [] [])
    as (H1 & H2 & H3 & H4 & stop & H5 & H6);
    try solve [constructor | reflexivity].
  unfold get_links. repeat split; auto.
  destruct H6 as [->|H6]; [|exact H6]. rewrite H5. constructor.
Qed.

End GetLinksFacts.

Lemma scan_page_count {lib : PyLib} max_links hrefs ls nf :
  exists ext,
    scan_page max_links hrefs ls nf = (ls ++ ext, nf + List.length ext).
Proof.
  revert ls nf. induction hrefs as [|href rest IH]; intros ls nf.
  - exists []. simpl. rewrite app_nil_r, Nat.add_0_r. reflexivity.
  - cbn [scan_page].
    destruct (is_detail (resolve href));
      [destruct (Str.mem (strip_query (resolve href)) ls)|].
    2: { destruct (max_links <=? _).
         - exists [strip_query (resolve href)]. simpl.
           rewrite Nat.add_1_r. reflexivity.
         - destruct (IH (ls ++ [strip_query (resolve href)]) (S nf))
             as (ext & ->).
           exists (strip_query (resolve href) :: ext).
           rewrite <- app_assoc. simpl. f_equal. lia. }
    all: destruct (max_links <=? _); [|apply IH].
    all: exists []; simpl; rewrite app_nil_r, Nat.add_0_r; reflexivity.
Qed.

Lemma nth_error_removelast {A} (l : list A) i :
  S i < List.length l -> nth_error (removelast l) i = nth_error l i.
Proof.
  intros H. destruct l as [|a l']; [simpl in H; lia|].
  rewrite (app_removelast_last a (l := a :: l')) at 2 by discriminate.
  assert (Hlen : List.length (removelast (a :: l')) = List.length l').
  { assert (E := app_removelast_last a (l := a :: l')).
    apply (f_equal (@List.length A)) in E; [|discriminate].
    rewrite length_app in E. simpl in E. simpl. lia. }
  rewrite nth_error_app1; [reflexivity|]. simpl in H. lia.
Qed.

(** C9. When a fetched listing page adds no link to the result, it is the
    last page requested, whatever [max_pages] allows; the count of new
    links of a page is zero exactly when the scan leaves the list as it
    was.  With a second page that repeats the first, discovery stops
    after the second page and the third is not requested. *)
Theorem zero_growth_stops_discovery :
  (forall (lib : PyLib) fetch max_pages max_links i k,
      nth_error (pages (get_links fetch max_pages max_links)) i
      = Some (k, Scanned 0) ->
      k = S i /\
      List.length (pages (get_links fetch max_pages max_links)) = k) /\
  (forall (lib : PyLib) max_links hrefs ls ls' nf,
      scan_page max_links hrefs ls 0 = (ls', nf) ->
      (nf = 0 <-> ls' = ls)) /\
  pages (get_links
           (listing [[lit "/fr/maroc/a_1.htm"]; [lit "/fr/maroc/a_1.htm"];
                     [lit "/fr/maroc/a_3.htm"]]) MAX_PAGES MAX_LINKS)
  = [(1, Scanned 1); (2, Scanned 0)].
Proof.
  split; [|split].
  - intros lib fetch max_pages max_links i k Hi.
    destruct (get_links_spec fetch max_pages max_links)
      as (_ & _ & Hseq & _ & Hg).
    set (log := pages (get_links fetch max_pages max_links)) in *.
    assert (Hlt : i < List.length log).
    { apply nth_error_Some. congruence. }
    assert (Hk : k = S i).
    { assert (E : nth_error (map fst log) i = Some k).
      { rewrite nth_error_map, Hi. reflexivity. }
      rewrite Hseq in E. rewrite nth_error_seq in E.
      destruct (i <? List.length log) eqn:El; [|discriminate].
      injection E as <-. reflexivity. }
    split; [exact Hk|]. subst k.
    destruct (Nat.eq_dec (List.length log) (S i)) as [|Hne]; [assumption|].
    exfalso. assert (Hr : nth_error (removelast log) i = Some (S i, Scanned 0)).
    { rewrite nth_error_removelast; [exact Hi|lia]. }
    apply nth_error_In in Hr. unfold growing in Hg.
    rewrite Forall_forall in Hg. destruct (Hg _ Hr) as (n & Hn). discriminate.
  - intros lib max_links hrefs ls ls' nf E.
    destruct (scan_page_count max_links hrefs ls 0) as (ext & E').
    rewrite E in E'. injection E' as -> ->. simpl. split.
    + intros H. apply length_zero_iff_nil in H. subst. apply app_nil_r.
    + intros H. apply (f_equal (@List.length str)) in H.
      rewrite length_app in H. lia.
  - vm_compute. reflexivity.
Qed.

(** Two listing pages with the same single link: the second page is the
    last one requested although ten are allowed. *)
Lemma zero_growth_stops_discovery_witness :
  2 = 2 /\
  List.length
    (pages (get_links
              (listing [[lit "/fr/maroc/a_1.htm"]; [lit "/fr/maroc/a_1.htm"];
                        [lit "/fr/maroc/a_3.htm"]]) MAX_PAGES MAX_LINKS)) = 2.
Proof.
  destruct zero_growth_stops_discovery as (H & _ & _).
  apply (H ascii_lib _ MAX_PAGES MAX_LINKS 1 2). vm_compute. reflexivity.
Defined.

(** C4 (the code at the failing input).  With the constants of the
    source, 300 detail links on the first listing page and a new one on
    the second, the returned list has 301 links: the test against
    [MAX_LINKS] only leaves the scan of the current page. *)
Theorem link_cap_exceeded :
  List.length (links (get_links crowded_listing MAX_PAGES MAX_LINKS)) = 301 /\
  MAX_LINKS < 301.
Proof. split; [vm_compute; reflexivity|unfold MAX_LINKS; lia]. Qed.

(** C3 (as amended).  Every link that [get_links] returns occurs once,
    has no [?], and is an anchor reference of a fetched page, resolved
    against the base when it starts with [/], that matches the detail
    pattern, cut at its first [?]; when that reference has no [?] the link
    is the reference itself and matches the pattern.  A page with the
    anchors [/fr/maroc/a_12345.htm?x=1], [/fr/maroc/a_12345.htm] and
    [/fr/maroc/other] gives the one link
    [https://www.avito.ma/fr/maroc/a_12345.htm]. *)
Theorem discovered_links_invariant :
  (forall (lib : PyLib) fetch max_pages max_links,
      NoDup (links (get_links fetch max_pages max_links)) /\
      Forall (fun l =>
                ~ In 63%N l /\
                exists page hrefs href,
                  fetch page = Some hrefs /\ In href hrefs /\
                  is_detail (resolve href) = true /\
                  l = strip_query (resolve href) /\
                  (~ In 63%N (resolve href) ->
                   l = resolve href /\ is_detail l = true))
             (links (get_links fetch max_pages max_links))) /\
  links (get_links
           (listing [[lit "/fr/maroc/a_12345.htm?x=1";
                      lit "/fr/maroc/a_12345.htm";
                      lit "/fr/maroc/other"]]) MAX_PAGES MAX_LINKS)
  = [lit "https://www.avito.ma/fr/maroc/a_12345.htm"].
Proof.
  split; [|vm_compute; reflexivity].
  intros lib fetch max_pages max_links.
  destruct (get_links_spec fetch max_pages max_links) as (Hnd & Hd & _).
  split; [exact Hnd|]. revert Hd. apply Forall_impl.
  intros l (page & hrefs & Hf & href & Hin & Hdet & ->). split.
  - apply before_no_sep.
  - exists page, hrefs, href. repeat split; auto.
    + unfold strip_query. apply before_fixed. assumption.
    + unfold strip_query. rewrite before_fixed; assumption.
Qed.

Lemma discovered_links_invariant_witness :
  Forall (fun l => ~ In 63%N l)
         (links (get_links
                   (listing [[lit "/fr/maroc/a_12345.htm?x=1";
                              lit "/fr/maroc/a_12345.htm";
                              lit "/fr/maroc/other"]]) MAX_PAGES MAX_LINKS)).
Proof.
  destruct discovered_links_invariant as (H & _).
  destruct (H ascii_lib
              (listing [[lit "/fr/maroc/a_12345.htm?x=1";
                         lit "/fr/maroc/a_12345.htm";
                         lit "/fr/maroc/other"]]) MAX_PAGES MAX_LINKS)
    as (_ & HF).
  revert HF. apply Forall_impl. intros l (Hq & _). exact Hq.
Defined.

(** C3 (the claim as stated fails).  A page whose anchors are
    [https://www.avito.ma/fr/maroc/x?ref=a_1.htm] and [a_7.htm] gives the
    links [https://www.avito.ma/fr/maroc/x], which does not match the
    detail pattern, and [a_7.htm], which is not absolute. *)
Lemma discovered_links_not_all_detail :
  links (get_links
           (listing [[lit "https://www.avito.ma/fr/maroc/x?ref=a_1.htm";
                      lit "a_7.htm"]]) MAX_PAGES MAX_LINKS)
  = [lit "https://www.avito.ma/fr/maroc/x"; lit "a_7.htm"] /\
  ~ ListingLink_invariant
      (links (get_links
                (listing [[lit "https://www.avito.ma/fr/maroc/x?ref=a_1.htm";
                           lit "a_7.htm"]]) MAX_PAGES MAX_LINKS)).
Proof.
  split; [vm_compute; reflexivity|].
  intros (_ & HF). apply Forall_inv in HF. destruct HF as (_ & _ & H).
  vm_compute in H. discriminate.
Qed.

(* ------------------------------------------------------------------ *)
(** ** main *)

Section MainFacts.

Variable parse_publication : nat -> str -> outcome.

Lemma closes_app a b : closes (a ++ b) = closes a + closes b.
Proof. unfold closes. rewrite filter_app, length_app. reflexivity. Qed.

Lemma opens_app a b : opens (a ++ b) = opens a + opens b.
Proof. unfold opens. rewrite filter_app, length_app. reflexivity. Qed.

Lemma saves_app a b : saves (a ++ b) = saves a ++ saves b.
Proof. unfold saves. apply flat_map_app. Qed.

Lemma visited_app a b : visited (a ++ b) = visited a ++ visited b.
Proof. unfold visited. apply flat_map_app. Qed.

(** The loop neither opens nor closes a session and saves nothing. *)
Lemma visit_links_quiet i todo results trace :
  let '(_, t, _) := visit_links parse_publication i todo results trace in
  closes t = closes trace /\ opens t = opens trace /\
  saves t = saves trace.
Proof.
  revert i results trace. induction todo as [|link rest IH];
    intros i results trace; cbn [visit_links]; [auto|].
  destruct (parse_publication i link) as [[[|item items]|]| |].
  2: specialize (IH (S i) (results ++ [item :: items])
                    ((trace ++ [Visit link]) ++ [Pause])).
  1,3,4: specialize (IH (S i) results ((trace ++ [Visit link]) ++ [Pause])).
  1-4: destruct (visit_links _ _ _ _ _) as [[r t] ab];
       rewrite !closes_app, !opens_app, !saves_app in IH; simpl in IH;
       rewrite !Nat.add_0_r, !app_nil_r in IH; exact IH.
  rewrite closes_app, opens_app, saves_app. simpl.
  rewrite !Nat.add_0_r, app_nil_r. auto.
Qed.

(** Without an abort the loop ends normally, having visited every link
    and kept the record of each one that gave a record. *)
Lemma visit_links_complete i todo results trace :
  no_abort parse_publication i todo ->
  let '(r, t, ab) := visit_links parse_publication i todo results trace in
  ab = false /\ r = results ++ successes parse_publication i todo /\
  visited t = visited trace ++ todo.
Proof.
  revert i results trace. induction todo as [|link rest IH];
    intros i results trace Hna; cbn [visit_links successes].
  - rewrite !app_nil_r. auto.
  - destruct Hna as [Hne Hna].
    destruct (parse_publication i link) as [[[|item items]|]| |];
      [| | | |congruence].
    2: specialize (IH (S i) (results ++ [item :: items])
                      ((trace ++ [Visit link]) ++ [Pause]) Hna).
    1,3,4: specialize (IH (S i) results
                          ((trace ++ [Visit link]) ++ [Pause]) Hna).
    all: destruct (visit_links _ _ _ _ _) as [[r t] ab];
         destruct IH as (H1 & H2 & H3);
         rewrite !visited_app in H3; simpl in H3;
         rewrite app_nil_r, <- app_assoc in H3;
         rewrite <- ?app_assoc in H2; auto.
Qed.

Lemma main_session driver_ok quit_ok ls :
  let trace := fst (main parse_publication driver_ok quit_ok ls) in
  opens trace = closes trace /\
  closes trace = (if driver_ok then match ls with [] => 0 | _ => 1 end
                  else 0).
Proof.
  unfold main. destruct ls as [|l ls']; [destruct driver_ok; auto|].
  destruct driver_ok; [|auto].
  pose proof (visit_links_quiet 0 (l :: ls') [] [CreateDriver true]) as H.
  destruct (visit_links _ _ _ _ _) as [[r t] ab].
  destruct H as (Hc & Ho & _).
  destruct ab, quit_ok; simpl; rewrite ?closes_app, ?opens_app, Hc, Ho; auto.
Qed.

Lemma main_saves ls :
  ls <> [] -> no_abort parse_publication 0 ls ->
  let run := main parse_publication true true ls in
  snd run = true /\
  saves (fst run) = [successes parse_publication 0 ls] /\
  visited (fst run) = ls /\
  exists before, fst run = before ++ [Quit; SaveCsv (successes parse_publication 0 ls)].
Proof.
  intros Hne Hna. unfold main. destruct ls as [|l ls']; [congruence|].
  pose proof (visit_links_quiet 0 (l :: ls') [] [CreateDriver true]) as Hq.
  pose proof (visit_links_complete 0 (l :: ls') [] [CreateDriver true] Hna)
    as Hc.
  destruct (visit_links _ _ _ _ _) as [[r t] ab].
  destruct Hq as (_ & _ & Hs). destruct Hc as (-> & -> & Hv).
  simpl. rewrite !saves_app, !visited_app, Hs, Hv. simpl.
  split; [reflexivity|]. split; [reflexivity|].
  split; [rewrite !app_nil_r; reflexivity|].
  exists t. rewrite <- app_assoc. reflexivity.
Qed.

(** When [driver.quit()] raises, or the driver cannot be created,
    [save_csv] is not reached. *)
Lemma main_no_save driver_ok quit_ok ls :
  driver_ok && quit_ok = false ->
  let run := main parse_publication driver_ok quit_ok ls in
  saves (fst run) = [] /\ (ls <> [] -> snd run = false).
Proof.
  intros Hq. unfold main. destruct ls as [|l ls']; [split; [reflexivity|congruence]|].
  destruct driver_ok; [|split; reflexivity].
  simpl in Hq. subst quit_ok.
  pose proof (visit_links_quiet 0 (l :: ls') [] [CreateDriver true]) as H.
  destruct (visit_links _ _ _ _ _) as [[r t] ab].
  destruct H as (_ & _ & Hs). rewrite orb_true_r. simpl.
  rewrite saves_app, Hs. split; reflexivity.
Qed.

(** The links visited do not depend on [driver.quit()]. *)
Lemma main_visited quit_ok ls :
  ls <> [] -> no_abort parse_publication 0 ls ->
  visited (fst (main parse_publication true quit_ok ls)) = ls.
Proof.
  intros Hne Hna. unfold main. destruct ls as [|l ls']; [congruence|].
  pose proof (visit_links_complete 0 (l :: ls') [] [CreateDriver true] Hna)
    as Hc.
  destruct (visit_links _ _ _ _ _) as [[r t] ab].
  destruct Hc as (-> & _ & Hv).
  destruct quit_ok; simpl; rewrite !visited_app, Hv; simpl;
    rewrite ?app_nil_r; reflexivity.
Qed.

(** Each link gives its records on its own: those of a list of links
    are those of the links before one of them, then what that link
    gives, then those of the links after it. *)
Lemma successes_app i before after :
  successes parse_publication i (before ++ after)
  = successes parse_publication i before
    ++ successes parse_publication (i + List.length before) after.
Proof.
  revert i. induction before as [|l r IH]; intros i; simpl.
  - rewrite Nat.add_0_r. reflexivity.
  - replace (i + S (List.length r)) with (S i + List.length r) by lia.
    destruct (parse_publication i l) as [[[|item items]|]| |];
      rewrite IH; reflexivity.
Qed.

End MainFacts.

(** C2 (as amended).  A link whose processing raises an exception
    derived from [Exception], or gives no record or an empty one, is
    skipped and the others are not affected: the records of a list of
    links are those of the links before any one of them, what that link
    gives, and those of the links after it.  A run in which no exception
    outside [Exception] occurs visits every link, and when
    [driver.quit()] returns it hands over exactly the records of the
    links that gave one, in the order of the links; when [driver.quit()]
    raises it hands over nothing.  On every exit path the session that
    was opened is closed, exactly once when there is a link to visit and
    the driver was obtained, and never otherwise.  With three links of
    which the second cannot be loaded, the records of the first and the
    third are produced in that order and the session is closed once. *)
Theorem per_link_isolation :
  (forall parse_publication driver_ok quit_ok ls,
      opens (fst (main parse_publication driver_ok quit_ok ls))
      = closes (fst (main parse_publication driver_ok quit_ok ls)) /\
      closes (fst (main parse_publication driver_ok quit_ok ls))
      = if driver_ok then match ls with [] => 0 | _ => 1 end else 0) /\
  (forall parse_publication quit_ok ls,
      ls <> [] -> no_abort parse_publication 0 ls ->
      visited (fst (main parse_publication true quit_ok ls)) = ls /\
      saves (fst (main parse_publication true quit_ok ls))
      = if quit_ok then [successes parse_publication 0 ls] else []) /\
  (forall parse_publication before link after,
      successes parse_publication 0 (before ++ link :: after)
      = successes parse_publication 0 before
        ++ match parse_publication (List.length before) link with
           | Returned (Some (item :: items)) => [item :: items]
           | _ => []
           end
        ++ successes parse_publication (S (List.length before)) after) /\
  (saves (fst (main second_unreachable true true three_links))
   = [[to_dict (default_fields
                  0 (lit "https://www.avito.ma/fr/maroc/a_1.htm"));
       to_dict (default_fields
                  2 (lit "https://www.avito.ma/fr/maroc/a_3.htm"))]] /\
   closes (fst (main second_unreachable true true three_links)) = 1).
Proof.
  split; [|split; [|split]].
  - intros parse driver_ok quit_ok ls.
    exact (main_session parse driver_ok quit_ok ls).
  - intros parse quit_ok ls Hne Hna.
    split; [apply main_visited; assumption|].
    destruct quit_ok.
    + destruct (main_saves parse ls Hne Hna) as (_ & H1 & _). exact H1.
    + destruct (main_no_save parse true false ls eq_refl) as (H1 & _).
      exact H1.
  - intros parse before link after. rewrite successes_app. f_equal.
    simpl.
    destruct (parse (List.length before) link) as [[[|item items]|]| |];
      reflexivity.
  - split; vm_compute; reflexivity.
Qed.

Lemma per_link_isolation_witness :
  visited (fst (main second_fails true true three_links)) = three_links /\
  saves (fst (main second_fails true true three_links))
  = [successes second_fails 0 three_links].
Proof.
  destruct per_link_isolation as (_ & Hrun & _).
  apply (Hrun second_fails true three_links); [discriminate|].
  simpl. repeat split; discriminate.
Defined.

(** C2 (the claim as stated fails).  An exception that is not derived
    from [Exception] is not caught by the loop: when the third of three
    links is interrupted, the records of the first two are lost, although
    both links were processed.  And the session is not closed once for
    every sequence of links: with no link there is no session. *)
Lemma isolation_lost_on_interrupt :
  successes third_interrupted 0 three_links
  = [stub_record (lit "https://www.avito.ma/fr/maroc/a_1.htm");
     stub_record (lit "https://www.avito.ma/fr/maroc/a_2.htm")] /\
  saves (fst (main third_interrupted true true three_links)) = [] /\
  closes (fst (main second_fails true true [])) = 0 /\
  ~ (forall parse_publication ls,
        ls <> [] ->
        saves (fst (main parse_publication true true ls))
        = [successes parse_publication 0 ls]).
Proof.
  split; [reflexivity|]. split; [reflexivity|]. split; [reflexivity|].
  intros H. specialize (H third_interrupted three_links).
  assert (Hne : three_links <> []) by discriminate.
  specialize (H Hne). discriminate.
Qed.




(* ------------------------------------------------------------------ *)
(** ** save_csv *)

Lemma row_cells_known fieldnames row :
  (forall k, In k (map fst row) -> In k fieldnames) ->
  row_cells fieldnames row = Some (map (value_of row) fieldnames).
Proof.
  intros H. unfold row_cells.
  replace (forallb _ row) with true; [reflexivity|].
  symmetry. apply forallb_forall. intros [k v] Hin. apply mem_In.
  apply H. apply in_map_iff. exists (k, v). auto.
Qed.

Lemma row_cells_some fieldnames row cells :
  row_cells fieldnames row = Some cells ->
  known_keys fieldnames row /\ cells = map (value_of row) fieldnames.
Proof.
  unfold row_cells.
  destruct (forallb (fun kv => Str.mem (fst kv) fieldnames) row) eqn:Ek;
    [|discriminate].
  intros E. injection E as <-. split; [|reflexivity].
  intros k Hin. apply in_map_iff in Hin. destruct Hin as ([k' v] & <- & Hin).
  rewrite forallb_forall in Ek. apply mem_In. apply (Ek _ Hin).
Qed.

Lemma row_cells_none fieldnames row :
  row_cells fieldnames row = None -> ~ known_keys fieldnames row.
Proof.
  intros E Hk. rewrite (row_cells_known fieldnames row Hk) in E.
  discriminate.
Qed.

Lemma encodable_app a b : encodable (a ++ b) = encodable a && encodable b.
Proof. apply forallb_app. Qed.

Lemma encodable_quote_field v : encodable (quote_field v) = encodable v.
Proof.
  unfold quote_field. change (QUOTE :: ?x) with ([QUOTE] ++ x).
  rewrite !encodable_app. simpl. rewrite andb_true_r.
  induction v as [|c v IH]; [reflexivity|].
  cbn [flat_map]. rewrite encodable_app, IH.
  destruct (N.eqb_spec c QUOTE) as [->|_]; simpl; [reflexivity|].
  rewrite andb_true_r. reflexivity.
Qed.

(** A line can be encoded exactly when each of its values can. *)
Lemma encodable_csv_line cells :
  encodable (csv_line cells) = forallb encodable cells.
Proof.
  unfold csv_line. rewrite encodable_app. simpl. rewrite andb_true_r.
  induction cells as [|c cells IH]; [reflexivity|].
  cbn [map forallb]. rewrite <- IH.
  destruct cells as [|c' cells'].
  - cbn [map join]. rewrite encodable_quote_field.
    change (encodable []) with true. rewrite andb_true_r. reflexivity.
  - change (join [COMMA] (quote_field c :: map quote_field (c' :: cells')))
      with (quote_field c ++ [COMMA]
            ++ join [COMMA] (map quote_field (c' :: cells'))).
    rewrite !encodable_app, encodable_quote_field. reflexivity.
Qed.

Lemma write_rows_writable fieldnames rows out :
  Forall (writable fieldnames) rows ->
  write_rows fieldnames rows out
  = Saved (out ++ List.concat (map (fun row => csv_line (map (value_of row) fieldnames))
                              rows)).
Proof.
  revert out. induction rows as [|row rest IH]; intros out H; simpl.
  - rewrite app_nil_r. reflexivity.
  - destruct (Forall_inv H) as (Hk & He).
    rewrite row_cells_known by exact Hk.
    rewrite encodable_csv_line, He.
    rewrite IH by exact (Forall_inv_tail H). rewrite <- app_assoc.
    reflexivity.
Qed.

Lemma write_rows_saved fieldnames rows out0 out :
  write_rows fieldnames rows out0 = Saved out ->
  Forall (writable fieldnames) rows /\
  out = out0 ++ List.concat (map (fun row => csv_line (map (value_of row) fieldnames))
                                 rows).
Proof.
  revert out0. induction rows as [|row rest IH]; intros out0; simpl.
  - intros E. injection E as <-. rewrite app_nil_r. auto.
  - destruct (row_cells fieldnames row) as [cells|] eqn:Ec; [|discriminate].
    apply row_cells_some in Ec. destruct Ec as (Hk & ->).
    rewrite encodable_csv_line.
    destruct (forallb encodable (map (value_of row) fieldnames)) eqn:Ee;
      [|discriminate].
    intros E. apply IH in E. destruct E as (HF & ->). split.
    + constructor; [split; assumption|exact HF].
    + rewrite <- app_assoc. reflexivity.
Qed.

(** The first row that cannot be written ends the writing: the file
    keeps the lines before it. *)
Lemma write_rows_failed fieldnames before row after out :
  Forall (writable fieldnames) before -> ~ writable fieldnames row ->
  write_rows fieldnames (before ++ row :: after) out
  = Failed (out ++ List.concat (map (fun row => csv_line (map (value_of row) fieldnames))
                               before)).
Proof.
  revert out. induction before as [|b rest IH]; intros out H Hrow; simpl.
  - rewrite app_nil_r.
    destruct (row_cells fieldnames row) as [cells|] eqn:Ec; [|reflexivity].
    apply row_cells_some in Ec. destruct Ec as (Hk & ->).
    rewrite encodable_csv_line.
    destruct (forallb encodable (map (value_of row) fieldnames)) eqn:Ee;
      [|reflexivity].
    exfalso. apply Hrow. split; assumption.
  - destruct (Forall_inv H) as (Hk & He).
    rewrite row_cells_known by exact Hk.
    rewrite encodable_csv_line, He.
    rewrite IH by (exact (Forall_inv_tail H) || exact Hrow).
    rewrite <- app_assoc. reflexivity.
Qed.

Lemma save_csv_saved rows out :
  save_csv rows = Some out <-> save_csv_file rows = Saved out.
Proof.
  unfold save_csv. destruct (save_csv_file rows); split; congruence.
Qed.

(** The rows that [parse_publication] builds have the keys of the
    file. *)
Lemma to_dict_known r : known_keys keys (to_dict r).
Proof.
  intros k Hk. apply mem_In. simpl in Hk.
  repeat (destruct Hk as [<-|Hk]; [vm_compute; reflexivity|]).
  contradiction.
Qed.

(* ------------------------------------------------------------------ *)
(** ** The calendar *)

Section CalendarFacts.

Open Scope Z_scope.

Lemma month_day_spec (leap : bool) (n : Z) :
  0 <= n < 365 + (if leap then 1 else 0) ->
  let '(m, d) := month_day leap n in
  1 <= m <= 12 /\ 1 <= d <= days_in_month leap m /\
  days_before_month leap m + d = n + 1.
Proof.
  intros Hn.
  assert (Hall : year_days_ok leap (if leap then 366 else 365)%nat = true).
  { destruct leap; vm_compute; reflexivity. }
  unfold year_days_ok in Hall. rewrite forallb_forall in Hall.
  specialize (Hall (Z.to_nat n)). rewrite Z2Nat.id in Hall by lia.
  assert (Hin : In (Z.to_nat n) (seq 0 (if leap then 366 else 365)%nat)).
  { apply in_seq. destruct leap; lia. }
  specialize (Hall Hin). unfold month_day_ok in Hall.
  destruct (month_day leap n) as [m d].
  rewrite !andb_true_iff in Hall. destruct Hall as [[[[H1 H2] H3] H5] H4].
  apply Z.leb_le in H1, H2, H3, H5. apply Z.eqb_eq in H4. lia.
Qed.

Lemma days_before_year_split q a b c :
  0 <= a <= 3 -> 0 <= b <= 24 -> 0 <= c <= 3 ->
  days_before_year (q * 400 + 1 + a * 100 + b * 4 + c)
  = q * 146097 + a * 36524 + b * 1461 + c * 365.
Proof.
  intros Ha Hb Hc. unfold days_before_year.
  replace (q * 400 + 1 + a * 100 + b * 4 + c - 1)
    with (a * 100 + b * 4 + c + q * 400) by lia.
  replace ((a * 100 + b * 4 + c + q * 400) / 4)
    with ((a * 100 + b * 4 + c) / 4 + q * 100)
    by (replace (q * 400) with (q * 100 * 4) by lia; now rewrite Z.div_add).
  replace ((a * 100 + b * 4 + c + q * 400) / 100)
    with ((a * 100 + b * 4 + c) / 100 + q * 4)
    by (replace (q * 400) with (q * 4 * 100) by lia; now rewrite Z.div_add).
  rewrite Z.div_add by lia.
  assert (E4 : (a * 100 + b * 4 + c) / 4 = a * 25 + b).
  { symmetry. apply (Z.div_unique _ _ _ c); lia. }
  assert (E100 : (a * 100 + b * 4 + c) / 100 = a).
  { symmetry. apply (Z.div_unique _ _ _ (b * 4 + c)); lia. }
  assert (E400 : (a * 100 + b * 4 + c) / 400 = 0).
  { apply Z.div_small. lia. }
  rewrite E4, E100, E400. lia.
Qed.

Lemma is_leap_split q a b c :
  0 <= a <= 3 -> 0 <= b <= 24 -> 0 <= c <= 3 ->
  is_leap (q * 400 + 1 + a * 100 + b * 4 + c)
  = (c =? 3) && (negb (b =? 24) || (a =? 3)).
Proof.
  intros Ha Hb Hc. unfold is_leap.
  set (y := q * 400 + 1 + a * 100 + b * 4 + c).
  assert (M4 : y mod 4 = (c + 1) mod 4).
  { unfold y. replace (q * 400 + 1 + a * 100 + b * 4 + c)
      with (c + 1 + (q * 100 + a * 25 + b) * 4) by lia.
    apply Z.mod_add. lia. }
  assert (M100 : y mod 100 = b * 4 + c + 1 \/ (b = 24 /\ c = 3 /\ y mod 100 = 0)).
  { unfold y. replace (q * 400 + 1 + a * 100 + b * 4 + c)
      with (b * 4 + c + 1 + (q * 4 + a) * 100) by lia.
    rewrite Z.mod_add by lia.
    destruct (Z.eq_dec (b * 4 + c + 1) 100) as [E|E].
    - right. rewrite E. repeat split; solve [lia | reflexivity].
    - left. apply Z.mod_small. lia. }
  assert (M400 : y mod 400 = (a * 100 + b * 4 + c + 1) mod 400).
  { unfold y. replace (q * 400 + 1 + a * 100 + b * 4 + c)
      with (a * 100 + b * 4 + c + 1 + q * 400) by lia.
    apply Z.mod_add. lia. }
  assert (C : c = 0 \/ c = 1 \/ c = 2 \/ c = 3) by lia.
  destruct (Z.eqb_spec c 3) as [Ec|Ec].
  - subst c. rewrite M4. change ((3 + 1) mod 4) with 0. simpl.
    destruct (Z.eqb_spec b 24) as [Eb|Eb].
    + subst b. destruct M100 as [M|(_ & _ & M)].
      * exfalso. pose proof (Z.mod_pos_bound y 100 ltac:(lia)). lia.
      * rewrite M. simpl. destruct (Z.eqb_spec a 3) as [Ea|Ea].
        -- subst a. rewrite M400. reflexivity.
        -- rewrite (Z.mod_small (a * 100 + 24 * 4 + 3 + 1)) in M400 by lia.
           rewrite M400.
           destruct (Z.eqb_spec (a * 100 + 24 * 4 + 3 + 1) 0); [lia|reflexivity].
    + destruct M100 as [M|(M & _)]; [|lia]. rewrite M.
      destruct (Z.eqb_spec (b * 4 + 3 + 1) 0); [lia|]. reflexivity.
  - rewrite M4. rewrite Z.mod_small by lia.
    destruct (Z.eqb_spec (c + 1) 0); [lia|]. reflexivity.
Qed.

(** The ordinal of the date of an ordinal is that ordinal, and the
    date is a day of a month of a year from 1 on. *)
Lemma ymd2ord_ord2ymd n :
  1 <= n ->
  let '(y, m, d) := ord2ymd n in
  ymd2ord y m d = n /\ 1 <= y /\ 1 <= m <= 12 /\
  1 <= d <= days_in_month (is_leap y) m.
Proof.
  intros Hn. unfold ord2ymd, DI400Y, DI100Y, DI4Y.
  set (n0 := n - 1).
  set (q := n0 / 146097). set (r1 := n0 mod 146097).
  set (a := r1 / 36524). set (r2 := r1 mod 36524).
  set (b := r2 / 1461). set (r3 := r2 mod 1461).
  set (c := r3 / 365). set (r4 := r3 mod 365).
  assert (E0 : n0 = 146097 * q + r1) by (apply Z.div_mod; lia).
  assert (B1 : 0 <= r1 < 146097) by (apply Z.mod_pos_bound; lia).
  assert (E1 : r1 = 36524 * a + r2) by (apply Z.div_mod; lia).
  assert (B2 : 0 <= r2 < 36524) by (apply Z.mod_pos_bound; lia).
  assert (E2 : r2 = 1461 * b + r3) by (apply Z.div_mod; lia).
  assert (B3 : 0 <= r3 < 1461) by (apply Z.mod_pos_bound; lia).
  assert (E3 : r3 = 365 * c + r4) by (apply Z.div_mod; lia).
  assert (B4 : 0 <= r4 < 365) by (apply Z.mod_pos_bound; lia).
  assert (Ha : 0 <= a <= 4) by lia.
  assert (Hb : 0 <= b <= 24) by lia.
  assert (Hc : 0 <= c <= 4) by lia.
  assert (Hq : 0 <= q) by (apply Z.div_pos; lia).
  clearbody q r1 a r2 b r3 c r4. subst n0.
  destruct (Z.eqb_spec c 4) as [Ec|Ec]; [|destruct (Z.eqb_spec a 4) as [Ea|Ea]];
    cbn [orb].
  - (* the last day of a leap year that ends a cycle of four years *)
    assert (Hb' : b <= 23) by lia.
    assert (Ha' : a <= 3) by lia.
    replace (q * 400 + 1 + a * 100 + b * 4 + c - 1)
      with (q * 400 + 1 + a * 100 + b * 4 + 3) by lia.
    unfold ymd2ord.
    rewrite days_before_year_split, is_leap_split by lia.
    replace (days_before_month _ 12) with 335
      by (destruct (Z.eqb_spec b 24); [lia|reflexivity]).
    change (days_in_month _ 12) with 31. lia.
  - (* the last day of a cycle of four hundred years *)
    replace (q * 400 + 1 + a * 100 + b * 4 + c - 1)
      with (q * 400 + 1 + 3 * 100 + 24 * 4 + 3) by lia.
    unfold ymd2ord.
    rewrite days_before_year_split, is_leap_split by lia.
    change (days_before_month _ 12) with 335.
    change (days_in_month _ 12) with 31. lia.
  - set (leap := (c =? 3) && (negb (b =? 24) || (a =? 3))).
    pose proof (month_day_spec leap r4) as Hmd.
    destruct (month_day leap r4) as [m d].
    destruct Hmd as (Hm & Hd & Hsum); [destruct leap; lia|].
    unfold ymd2ord.
    rewrite days_before_year_split, is_leap_split by lia.
    fold leap. lia.
Qed.

Lemma time_fields secs :
  0 <= secs < 86400 ->
  secs / 3600 * 3600 + secs mod 3600 / 60 * 60 + secs mod 60 = secs.
Proof. intros H. Z.div_mod_to_equations. lia. Qed.

(** A year has 365 days, and one more when it is a leap year. *)
Lemma days_before_year_succ y :
  days_before_year (y + 1)
  = days_before_year y + 365 + (if is_leap y then 1 else 0).
Proof.
  unfold days_before_year, is_leap. cbv zeta.
  replace (y + 1 - 1) with y by lia.
  destruct (Z.eqb_spec (y mod 4) 0) as [E4|E4];
    destruct (Z.eqb_spec (y mod 100) 0) as [E100|E100];
    destruct (Z.eqb_spec (y mod 400) 0) as [E400|E400];
    cbn [andb orb negb]; Z.div_mod_to_equations; lia.
Qed.

Lemma days_before_year_later y k :
  0 <= k ->
  days_before_year y + 365 * (k + 1) + (if is_leap y then 1 else 0)
  <= days_before_year (y + 1 + k).
Proof.
  intros Hk. revert k Hk. apply natlike_ind.
  - rewrite Z.add_0_r, days_before_year_succ. lia.
  - intros k Hk IH. replace (y + 1 + Z.succ k) with (y + 1 + k + 1) by lia.
    rewrite days_before_year_succ.
    destruct (is_leap (y + 1 + k)); lia.
Qed.

Lemma days_before_year_mono y y' :
  y <= y' -> days_before_year y <= days_before_year y'.
Proof.
  intros H. destruct (Z.eq_dec y y') as [->|Hne]; [lia|].
  pose proof (days_before_year_later y (y' - y - 1) ltac:(lia)) as L.
  replace (y + 1 + (y' - y - 1)) with y' in L by lia.
  destruct (is_leap y); lia.
Qed.

Lemma month_cases m :
  1 <= m <= 12 ->
  m = 1 \/ m = 2 \/ m = 3 \/ m = 4 \/ m = 5 \/ m = 6 \/
  m = 7 \/ m = 8 \/ m = 9 \/ m = 10 \/ m = 11 \/ m = 12.
Proof. lia. Qed.

(** The day of the year of a day of a month. *)
Lemma day_of_year_bounds leap m d :
  1 <= m <= 12 -> 1 <= d <= days_in_month leap m ->
  1 <= days_before_month leap m + d <= 365 + (if leap then 1 else 0).
Proof.
  intros Hm Hd. apply month_cases in Hm.
  destruct leap;
    repeat (destruct Hm as [->|Hm];
            [cbv -[Z.le Z.add] in Hd; cbv -[Z.le Z.add]; lia|]);
    subst m; cbv -[Z.le Z.add] in Hd; cbv -[Z.le Z.add]; lia.
Qed.

Lemma days_before_month_step leap m :
  1 <= m <= 11 ->
  days_before_month leap (m + 1)
  = days_before_month leap m + days_in_month leap m.
Proof.
  intros Hm.
  assert (C : m = 1 \/ m = 2 \/ m = 3 \/ m = 4 \/ m = 5 \/ m = 6 \/
              m = 7 \/ m = 8 \/ m = 9 \/ m = 10 \/ m = 11) by lia.
  destruct leap;
    repeat (destruct C as [->|C]; [reflexivity|]); subst m; reflexivity.
Qed.

Lemma days_in_month_pos leap m : 1 <= m <= 12 -> 28 <= days_in_month leap m.
Proof.
  intros Hm. apply month_cases in Hm.
  destruct leap;
    repeat (destruct Hm as [->|Hm]; [cbv -[Z.le Z.add]; lia|]);
    subst m; cbv -[Z.le Z.add]; lia.
Qed.

Lemma days_before_month_later leap m k :
  0 <= k -> 1 <= m -> m + 1 + k <= 12 ->
  days_before_month leap m + days_in_month leap m
  <= days_before_month leap (m + 1 + k).
Proof.
  intros Hk. revert k Hk. apply (natlike_ind (fun k => 1 <= m -> m + 1 + k <= 12 -> _)).
  - intros H1 H2. rewrite Z.add_0_r, days_before_month_step by lia. lia.
  - intros k Hk IH H1 H2.
    replace (m + 1 + Z.succ k) with (m + 1 + k + 1) by lia.
    rewrite days_before_month_step by lia.
    pose proof (days_in_month_pos leap (m + 1 + k) ltac:(lia)).
    specialize (IH H1 ltac:(lia)). lia.
Qed.

(** Two days of the same year with the same day of the year are the
    same day. *)
Lemma day_of_year_inj leap m d m' d' :
  1 <= m <= 12 -> 1 <= d <= days_in_month leap m ->
  1 <= m' <= 12 -> 1 <= d' <= days_in_month leap m' ->
  days_before_month leap m + d = days_before_month leap m' + d' ->
  m = m' /\ d = d'.
Proof.
  intros Hm Hd Hm' Hd' E.
  destruct (Z.lt_trichotomy m m') as [L|[->|L]].
  - pose proof (days_before_month_later leap m (m' - m - 1)
                                        ltac:(lia) ltac:(lia) ltac:(lia)) as H.
    replace (m + 1 + (m' - m - 1)) with m' in H by lia. lia.
  - lia.
  - pose proof (days_before_month_later leap m' (m - m' - 1)
                                        ltac:(lia) ltac:(lia) ltac:(lia)) as H.
    replace (m' + 1 + (m - m' - 1)) with m in H by lia. lia.
Qed.

(** Two days of the calendar with the same ordinal are the same day. *)
Lemma ymd2ord_inj y m d y' m' d' :
  1 <= m <= 12 -> 1 <= d <= days_in_month (is_leap y) m ->
  1 <= m' <= 12 -> 1 <= d' <= days_in_month (is_leap y') m' ->
  ymd2ord y m d = ymd2ord y' m' d' ->
  y = y' /\ m = m' /\ d = d'.
Proof.
  intros Hm Hd Hm' Hd' E. unfold ymd2ord in E.
  pose proof (day_of_year_bounds (is_leap y) m d Hm Hd) as B.
  pose proof (day_of_year_bounds (is_leap y') m' d' Hm' Hd') as B'.
  destruct (Z.lt_trichotomy y y') as [L|[->|L]].
  - pose proof (days_before_year_later y (y' - y - 1) ltac:(lia)) as H.
    replace (y + 1 + (y' - y - 1)) with y' in H by lia.
    destruct (is_leap y); lia.
  - split; [reflexivity|].
    apply (day_of_year_inj (is_leap y')); try assumption. lia.
  - pose proof (days_before_year_later y' (y - y' - 1) ltac:(lia)) as H.
    replace (y' + 1 + (y - y' - 1)) with y in H by lia.
    destruct (is_leap y'); lia.
Qed.

(** The ordinals of the days of the years 1 to 9999. *)
Lemma valid_date_ordinal y m d :
  valid_date y m d -> 1 <= ymd2ord y m d <= MAXORDINAL.
Proof.
  intros (Hy & Hm & Hd). unfold ymd2ord, MAXORDINAL.
  pose proof (day_of_year_bounds (is_leap y) m d Hm Hd) as B.
  pose proof (days_before_year_mono 1 y ltac:(lia)) as L.
  pose proof (days_before_year_mono (y + 1) 10000 ltac:(lia)) as U.
  rewrite days_before_year_succ in U.
  change (days_before_year 1) with 0 in L.
  change (days_before_year 10000) with 3652059 in U.
  destruct (is_leap y); lia.
Qed.

(** The date of an ordinal is a day of the years 1 to 9999. *)
Lemma ord2ymd_valid n :
  1 <= n <= MAXORDINAL ->
  let '(y, m, d) := ord2ymd n in
  ymd2ord y m d = n /\ valid_date y m d.
Proof.
  intros Hn. pose proof (ymd2ord_ord2ymd n ltac:(lia)) as H.
  destruct (ord2ymd n) as [[y m] d].
  destruct H as (E & Hy & Hm & Hd). split; [exact E|].
  split; [|split; assumption]. split; [exact Hy|].
  destruct (Z.le_gt_cases y 9999) as [L|G]; [exact L|exfalso].
  pose proof (days_before_year_mono 10000 y ltac:(lia)) as M.
  change (days_before_year 10000) with 3652059 in M.
  pose proof (day_of_year_bounds (is_leap y) m d Hm Hd) as B.
  unfold ymd2ord, MAXORDINAL in *. lia.
Qed.

(** A time of the calendar is given by its place on the line of
    seconds. *)
Lemma timeline_inj dt1 dt2 :
  valid_datetime dt1 -> valid_datetime dt2 ->
  timeline dt1 = timeline dt2 ->
  year dt1 = year dt2 /\ month dt1 = month dt2 /\ day dt1 = day dt2 /\
  hour dt1 = hour dt2 /\ minute dt1 = minute dt2 /\ second dt1 = second dt2.
Proof.
  intros ((Hy1 & Hm1 & Hd1) & Hh1 & Hmi1 & Hs1 & _)
         ((Hy2 & Hm2 & Hd2) & Hh2 & Hmi2 & Hs2 & _) E.
  unfold timeline, toordinal in E.
  assert (Eo : ymd2ord (year dt1) (month dt1) (day dt1)
               = ymd2ord (year dt2) (month dt2) (day dt2)) by lia.
  destruct (ymd2ord_inj _ _ _ _ _ _ Hm1 Hd1 Hm2 Hd2 Eo) as (Ey & Em & Ed).
  repeat split; try assumption; lia.
Qed.

(** Subtraction moves the date back by the seconds of the difference. *)
Lemma datetime_sub_timeline dt td :
  let t := timeline dt - (td_days td * 86400 + td_seconds td) in
  (86400 <= t < (MAXORDINAL + 1) * 86400 ->
   exists dt', datetime_sub dt td = Some dt' /\ timeline dt' = t /\
               valid_date (year dt') (month dt') (day dt') /\
               0 <= hour dt' < 24 /\ 0 <= minute dt' < 60 /\
               0 <= second dt' < 60 /\ microsecond dt' = microsecond dt) /\
  (~ 86400 <= t < (MAXORDINAL + 1) * 86400 -> datetime_sub dt td = None).
Proof.
  unfold timeline, datetime_sub, MAXORDINAL.
  set (secs := hour dt * 3600 + minute dt * 60 + second dt - td_seconds td).
  set (days := toordinal dt - td_days td + secs / 86400).
  assert (Hs : 0 <= secs mod 86400 < 86400) by (apply Z.mod_pos_bound; lia).
  assert (Ed : secs = 86400 * (secs / 86400) + secs mod 86400)
    by (apply Z.div_mod; lia).
  assert (Et : toordinal dt * 86400 + hour dt * 3600 + minute dt * 60
               + second dt - (td_days td * 86400 + td_seconds td)
               = days * 86400 + secs mod 86400) by (unfold days; lia).
  rewrite Et. cbv zeta. split.
  - intros Hr. assert (Hdays : 0 < days <= 3652059) by lia.
    replace ((0 <? days) && (days <=? 3652059)) with true
      by (symmetry; apply andb_true_iff; split;
          [apply Z.ltb_lt|apply Z.leb_le]; lia).
    pose proof (ord2ymd_valid days ltac:(unfold MAXORDINAL; lia)) as Hrt.
    destruct (ord2ymd days) as [[y m] d]. destruct Hrt as (Hrt & Hv).
    eexists. split; [reflexivity|]. unfold toordinal. simpl.
    rewrite Hrt. pose proof (time_fields _ Hs) as Htf.
    split; [lia|]. split; [exact Hv|].
    repeat split; try lia.
    + apply Z.div_pos; lia.
    + apply Z.div_lt_upper_bound; lia.
    + apply Z.div_pos; [apply Z.mod_pos_bound|]; lia.
    + apply Z.div_lt_upper_bound; [lia|].
      pose proof (Z.mod_pos_bound (secs mod 86400) 3600 ltac:(lia)). lia.
    + apply Z.mod_pos_bound; lia.
    + apply Z.mod_pos_bound; lia.
  - intros Hr.
    replace ((0 <? days) && (days <=? 3652059)) with false; [reflexivity|].
    symmetry. apply andb_false_iff.
    destruct (Z.ltb_spec 0 days); [right|left; reflexivity].
    apply Z.leb_gt. lia.
Qed.

End CalendarFacts.

(* ------------------------------------------------------------------ *)
(** ** parse_publication_date *)

Section RelativeDateFacts.

Context {lib : PyLib}.
Open Scope Z_scope.

Lemma make_timedelta_seconds days seconds td :
  make_timedelta days seconds = Some td ->
  td_days td * 86400 + td_seconds td = days * 86400 + seconds.
Proof.
  unfold make_timedelta.
  destruct (Z.abs (days + seconds / 86400) <=? 999999999); [|discriminate].
  intros E. injection E as <-. simpl.
  pose proof (Z.div_mod seconds 86400 ltac:(lia)). lia.
Qed.

Lemma make_timedelta_overflow days seconds :
  make_timedelta days seconds = None ->
  0 <= days -> 0 <= seconds ->
  999999999 * 86400 < days * 86400 + seconds.
Proof.
  unfold make_timedelta.
  destruct (Z.leb_spec (Z.abs (days + seconds / 86400)) 999999999);
    [discriminate|].
  intros _ Hd Hs.
  pose proof (Z.div_mod seconds 86400 ltac:(lia)).
  pose proof (Z.mod_pos_bound seconds 86400 ltac:(lia)).
  assert (0 <= seconds / 86400) by (apply Z.div_pos; lia). lia.
Qed.

Lemma delta_of_seconds u n td :
  delta_of u n = Some td ->
  td_days td * 86400 + td_seconds td = seconds_of u n.
Proof.
  destruct u; simpl; intros H; apply make_timedelta_seconds in H; lia.
Qed.

Lemma delta_of_overflow u n :
  delta_of u n = None -> 0 <= n -> 999999999 * 86400 < seconds_of u n.
Proof.
  destruct u; simpl; intros H Hn;
    apply make_timedelta_overflow in H; lia.
Qed.

(** With a unit in the text, the result is the time that many seconds
    before [now], or the text when that time is before the year 1. *)
Lemma relative_date_unit now text u :
  unit_in text = Some u -> valid_datetime now -> 0 <= count_in text ->
  let t := timeline now - seconds_of u (count_in text) in
  (86400 <= t ->
   exists dt, relative_date now text = strftime dt /\ valid_datetime dt /\
              timeline dt = t /\ microsecond dt = microsecond now) /\
  (t < 86400 -> relative_date now text = text).
Proof.
  intros Hu (Hdate & Hh & Hm & Hs & Hus) Hn t. unfold relative_date.
  rewrite Hu.
  assert (Hnow : timeline now < (MAXORDINAL + 1) * 86400).
  { apply valid_date_ordinal in Hdate.
    unfold timeline, toordinal, MAXORDINAL in *. lia. }
  destruct (delta_of u (count_in text)) as [td|] eqn:Ed.
  - apply delta_of_seconds in Ed.
    destruct (datetime_sub_timeline now td) as (Hin & Hout).
    rewrite Ed in Hin, Hout. fold t in Hin, Hout. split.
    + intros Ht. destruct Hin as (dt & -> & H).
      * assert (0 <= seconds_of u (count_in text))
          by (destruct u; simpl; lia).
        unfold t. lia.
      * destruct H as (Ht' & Hv & Hh' & Hm' & Hs' & Hus').
        exists dt. split; [reflexivity|]. split; [|split; assumption].
        unfold valid_datetime. rewrite Hus'. tauto.
    + intros Ht. rewrite Hout; [reflexivity|lia].
  - apply delta_of_overflow in Ed; [|exact Hn]. split; [|reflexivity].
    intros Ht. exfalso. unfold t, MAXORDINAL in *. lia.
Qed.

Lemma relative_date_no_unit now text :
  unit_in text = None -> relative_date now text = text.
Proof. intros H. unfold relative_date. rewrite H. reflexivity. Qed.

End RelativeDateFacts.

(* ------------------------------------------------------------------ *)
(** ** parse_publication *)

Lemma hex32_length n : List.length (hex32 n) = 32.
Proof. unfold hex32. rewrite length_map, length_seq. reflexivity. Qed.

Lemma uuid_str_length n : List.length (uuid_str n) = 36.
Proof.
  unfold uuid_str. pose proof (hex32_length n) as H.
  repeat rewrite ?length_app, ?length_firstn, ?length_skipn, ?H.
  reflexivity.
Qed.

Lemma find_rest_none f els :
  (forall e, In e els -> f e = false) -> find_rest f els = None.
Proof.
  induction els as [|e rest IH]; intros H; simpl; [reflexivity|].
  rewrite (H e) by (left; reflexivity). apply IH.
  intros e' Hin. apply H. right. exact Hin.
Qed.

Lemma find_first_none f els :
  (forall e, In e els -> f e = false) -> find_first f els = None.
Proof. intros H. unfold find_first. rewrite find_rest_none; auto. Qed.

Lemma filter_none (f : node -> bool) els :
  (forall e, In e els -> f e = false) -> filter f els = [].
Proof.
  induction els as [|e rest IH]; intros H; simpl; [reflexivity|].
  rewrite (H e) by (left; reflexivity). apply IH.
  intros e' Hin. apply H. right. exact Hin.
Qed.

Section ParsePublicationFacts.

Context {lib : PyLib}.
Variable fromisoformat : str -> option datetime.
Variables (now : datetime) (random : N) (url : str).

Lemma parse_publication_record (BeautifulSoup : str -> list node) view :
  get_raises view = false -> page_source view <> [] ->
  parse_publication BeautifulSoup fromisoformat now random view url
  = Returned (Some (to_dict
                      (extract fromisoformat now random url
                               (BeautifulSoup (page_source view))
                               (equipments_of view)))).
Proof.
  intros Hget Hsrc. unfold parse_publication, fetch_page_with_selenium.
  rewrite Hget. destruct (page_source view); [congruence|reflexivity].
Qed.

Lemma extract_defaults soup equipments :
  let r := extract fromisoformat now random url soup equipments in
  let els := soup_elements soup in
  List.length (f_id r) = 36 /\ f_url r = url /\
  (find_first (has_name "h1") els = None -> f_title r = []) /\
  (find_first (fun n => has_name "p" n && has_class "sc-16573058-12" n) els
   = None -> f_price r = []) /\
  (find_first (fun n => has_name "span" n && has_class "sc-16573058-17" n) els
   = None -> f_location r = []) /\
  (find_first (has_name "time") els = None -> f_publication_time r = []) /\
  (find_first (has_attr "data-testid" "SellerName") els = None ->
   f_seller r = []) /\
  (find_rest is_category_label els = None -> f_category r = []) /\
  (forall label after,
      find_rest is_category_label els = Some (label, after) ->
      find_first (has_name "span") after = None -> f_category r = []) /\
  (find_first (fun n => has_name "div" n && has_class "sc-9bb253d7-0" n) els
   = None -> f_description r = []) /\
  (find_first (has_name "ol") els = None -> f_breadcrumb r = lit "[]") /\
  (filter (fun n => has_name "div" n && has_class "sc-cd1c365e-1" n) els = [] ->
   f_properties r = lit "{}") /\
  (equipments = [] -> f_equipments r = lit "[]") /\
  (filter (has_name "img") els = [] -> f_images r = lit "[]").
Proof.
  cbv zeta. unfold extract. cbn [f_id f_url f_title f_price f_location
    f_publication_time f_seller f_category f_description f_breadcrumb
    f_properties f_equipments f_images].
  split; [apply uuid_str_length|]. split; [reflexivity|].
  repeat split.
  1-3,5,8: intros ->; reflexivity.
  - unfold parse_publication_date. intros ->. reflexivity.
  - unfold category_of. intros ->. reflexivity.
  - unfold category_of. intros label after -> ->. reflexivity.
  - unfold breadcrumb_of. intros ->. reflexivity.
  - unfold properties_of. intros ->. reflexivity.
  - intros ->. reflexivity.
  - unfold images_of. intros ->. reflexivity.
Qed.

Lemma extract_marker_free soup :
  Forall (fun e => is_marker e = false) (soup_elements soup) ->
  extract fromisoformat now random url soup [] = default_fields random url.
Proof.
  intros H. rewrite Forall_forall in H.
  assert (Hm : forall e, In e (soup_elements soup) ->
               has_name "h1" e = false /\ has_name "p" e = false /\
               has_name "span" e = false /\ has_name "time" e = false /\
               has_name "ol" e = false /\ has_name "div" e = false /\
               has_name "img" e = false /\
               has_attr "data-testid" "SellerName" e = false).
  { intros e Hin. specialize (H e Hin). unfold is_marker in H.
    rewrite !orb_false_iff in H. tauto. }
  destruct (extract_defaults soup [])
    as (_ & _ & H1 & H2 & H3 & H4 & H5 & H6 & _ & H7 & H8 & H9 & H10 & H11).
  assert (E : forall r,
             f_id r = uuid_str (uuid4 random) -> f_url r = url ->
             f_title r = [] -> f_price r = [] -> f_location r = [] ->
             f_publication_time r = [] -> f_seller r = [] ->
             f_category r = [] -> f_description r = [] ->
             f_breadcrumb r = lit "[]" -> f_properties r = lit "{}" ->
             f_equipments r = lit "[]" -> f_images r = lit "[]" ->
             r = default_fields random url).
  { intros [] ? ? ? ? ? ? ? ? ? ? ? ? ?. simpl in *. subst. reflexivity. }
  apply E; try reflexivity.
  - apply H1, find_first_none. intros e Hin. apply Hm, Hin.
  - apply H2, find_first_none. intros e Hin.
    destruct (Hm e Hin) as (_ & -> & _). reflexivity.
  - apply H3, find_first_none. intros e Hin.
    destruct (Hm e Hin) as (_ & _ & -> & _). reflexivity.
  - apply H4, find_first_none. intros e Hin. apply Hm, Hin.
  - apply H5, find_first_none. intros e Hin. apply Hm, Hin.
  - apply H6, find_rest_none. intros e Hin. unfold is_category_label.
    destruct (Hm e Hin) as (_ & _ & -> & _). reflexivity.
  - apply H7, find_first_none. intros e Hin.
    destruct (Hm e Hin) as (_ & _ & _ & _ & _ & -> & _). reflexivity.
  - apply H8, find_first_none. intros e Hin. apply Hm, Hin.
  - apply H9, filter_none. intros e Hin.
    destruct (Hm e Hin) as (_ & _ & _ & _ & _ & -> & _). reflexivity.
  - apply H11, filter_none. intros e Hin. apply Hm, Hin.
Qed.

End ParsePublicationFacts.

(** C7 (as amended).  For every rendered document that is not empty,
    [parse_publication] raises nothing after the page was fetched and
    returns a record with the thirteen fields.  The id has 36 characters
    and the url is the one given; every other field whose anchor is absent
    holds its default: the empty text, and the JSON text of the empty list
    or of the empty dict for the four structured fields.  A document none
    of whose tags is a marker gives the record of defaults. *)
Theorem extraction_total_with_defaults :
  (forall (lib : PyLib) BeautifulSoup fromisoformat now random view url,
      get_raises view = false -> page_source view <> [] ->
      parse_publication BeautifulSoup fromisoformat now random view url
      = Returned (Some (to_dict
                          (extract fromisoformat now random url
                                   (BeautifulSoup (page_source view))
                                   (equipments_of view))))) /\
  (forall r, map fst (to_dict r) = spec_field_order) /\
  (forall (lib : PyLib) fromisoformat now random url soup equipments,
      let r := extract fromisoformat now random url soup equipments in
      let els := soup_elements soup in
      List.length (f_id r) = 36 /\ f_url r = url /\
      (find_first (has_name "h1") els = None -> f_title r = []) /\
      (find_first (fun n => has_name "p" n && has_class "sc-16573058-12" n) els
       = None -> f_price r = []) /\
      (find_first (fun n => has_name "span" n && has_class "sc-16573058-17" n) els
       = None -> f_location r = []) /\
      (find_first (has_name "time") els = None -> f_publication_time r = []) /\
      (find_first (has_attr "data-testid" "SellerName") els = None ->
       f_seller r = []) /\
      (find_rest is_category_label els = None -> f_category r = []) /\
      (forall label after,
          find_rest is_category_label els = Some (label, after) ->
          find_first (has_name "span") after = None -> f_category r = []) /\
      (find_first (fun n => has_name "div" n && has_class "sc-9bb253d7-0" n) els
       = None -> f_description r = []) /\
      (find_first (has_name "ol") els = None -> f_breadcrumb r = lit "[]") /\
      (filter (fun n => has_name "div" n && has_class "sc-cd1c365e-1" n) els = [] ->
       f_properties r = lit "{}") /\
      (equipments = [] -> f_equipments r = lit "[]") /\
      (filter (has_name "img") els = [] -> f_images r = lit "[]")) /\
  (forall (lib : PyLib) fromisoformat now random url soup,
      Forall (fun e => is_marker e = false) (soup_elements soup) ->
      extract fromisoformat now random url soup [] = default_fields random url).
Proof.
  split; [|split; [|split]].
  - intros. apply parse_publication_record; assumption.
  - intros r. reflexivity.
  - intros. apply extract_defaults.
  - intros lib fromisoformat now random url soup Hfree.
    exact (extract_marker_free fromisoformat now random url soup Hfree).
Qed.

Lemma extraction_total_with_defaults_witness :
  parse_publication (fun _ => bare_soup) (fun _ => None) feb_1_2024 5
                    bare_view (lit "https://www.avito.ma/fr/maroc/a_1.htm")
  = Returned (Some (to_dict
                      (default_fields
                         5 (lit "https://www.avito.ma/fr/maroc/a_1.htm")))).
Proof.
  destruct extraction_total_with_defaults as (Hrec & _ & _ & Hfree).
  rewrite (Hrec ascii_lib) by (reflexivity || discriminate).
  rewrite (Hfree ascii_lib); [reflexivity|].
  repeat constructor.
Defined.

(** C7 (the claim as stated fails).  For the empty document
    [parse_publication] returns [None], not a record. *)
Lemma extraction_none_on_empty_document :
  parse_publication (fun _ => bare_soup) (fun _ => None) feb_1_2024 5
                    empty_view (lit "https://www.avito.ma/fr/maroc/a_1.htm")
  = Returned None /\
  ~ (forall view,
        get_raises view = false ->
        exists data,
          parse_publication (fun _ => bare_soup) (fun _ => None) feb_1_2024 5
                            view (lit "https://www.avito.ma/fr/maroc/a_1.htm")
          = Returned (Some data)).
Proof.
  split; [reflexivity|].
  intros H. destruct (H empty_view eq_refl) as (data & E). discriminate.
Qed.

(* ================================================================== *)
(** * Further properties of the waits *)

Lemma poll_loop_polls_ge samples n k prev :
  k <= polls (poll_loop samples n k prev).
Proof.
  revert k prev. induction n as [|n IH]; intros k prev; simpl; [lia|].
  destruct ((0 <? samples k) && (samples k =? prev)); simpl; [lia|].
  specialize (IH (S k) (samples k)). lia.
Qed.

Lemma poll_loop_first samples n :
  poll_loop samples (S n) 0 0 = poll_loop samples n 1 (samples 0).
Proof. simpl. destruct (samples 0); reflexivity. Qed.

Lemma poll_loop_polls_gt samples n k prev :
  k < polls (poll_loop samples (S n) k prev).
Proof.
  simpl. destruct ((0 <? samples k) && (samples k =? prev)); simpl; [lia|].
  pose proof (poll_loop_polls_ge samples n (S k) (samples k)). lia.
Qed.

Lemma poll_loop_stable_count samples n k prev :
  stable (poll_loop samples n k prev) = true ->
  0 < last_count (poll_loop samples n k prev).
Proof.
  revert k prev. induction n as [|n IH]; intros k prev; simpl; [discriminate|].
  destruct ((0 <? samples k) && (samples k =? prev)) eqn:E; simpl.
  - intros _. apply andb_true_iff in E. destruct E as [E _].
    apply Nat.ltb_lt in E. exact E.
  - apply IH.
Qed.

(** The first poll never ends the equipment wait: the loop always looks
    at least twice, and a stable end reports a count that is not zero. *)
Theorem equipment_poll_looks_twice samples :
  2 <= polls (wait_equipment_stable samples) /\
  (stable (wait_equipment_stable samples) = true ->
   0 < last_count (wait_equipment_stable samples)).
Proof.
  unfold wait_equipment_stable, POLL_BOUND. split.
  - rewrite (poll_loop_first samples 9).
    pose proof (poll_loop_polls_gt samples 8 1 (samples 0)). lia.
  - apply poll_loop_stable_count.
Qed.

Lemma equipment_poll_looks_twice_witness :
  0 < last_count (wait_equipment_stable (sampled [0; 2; 2])).
Proof.
  apply (equipment_poll_looks_twice (sampled [0; 2; 2])). reflexivity.
Defined.

Lemma poll_loop_zero n k :
  poll_loop (fun _ => 0) n k 0
  = {| polls := k + n; last_count := 0; stable := false |}.
Proof.
  revert k. induction n as [|n IH]; intros k; simpl.
  - rewrite Nat.add_0_r. reflexivity.
  - rewrite IH. f_equal. lia.
Qed.

(** A page that never shows an equipment image uses all ten polls and the
    wait ends unstable; a page whose count is already settled at a value
    above zero is left after the second poll. *)
Theorem equipment_poll_extremes :
  wait_equipment_stable (fun _ => 0)
  = {| polls := 10; last_count := 0; stable := false |} /\
  (forall c, 0 < c ->
             wait_equipment_stable (fun _ => c)
             = {| polls := 2; last_count := c; stable := true |}).
Proof.
  unfold wait_equipment_stable, POLL_BOUND. split.
  - apply (poll_loop_zero 10 0).
  - intros c Hc. rewrite (poll_loop_first (fun _ => c) 9).
    change (poll_loop (fun _ => c) 9 1 c)
      with (if (0 <? c) && (c =? c)
            then {| polls := 2; last_count := c; stable := true |}
            else poll_loop (fun _ => c) 8 2 c).
    replace (0 <? c) with true by (symmetry; apply Nat.ltb_lt; exact Hc).
    rewrite Nat.eqb_refl. reflexivity.
Qed.

Lemma equipment_poll_extremes_witness :
  wait_equipment_stable (fun _ => 7)
  = {| polls := 2; last_count := 7; stable := true |}.
Proof.
  destruct equipment_poll_extremes as (_ & H). apply (H 7). lia.
Defined.

Lemma heading_loop_spec present n k :
  let r := heading_loop present n k in
  (h_found r = true ->
   k < h_polls r <= k + n /\ present (h_polls r - 1) = true /\
   h_sleeps r = h_polls r - 1 /\
   forall i, k <= i < h_polls r - 1 -> present i = false) /\
  (h_found r = false ->
   h_polls r = k + n /\ h_sleeps r = k + n /\
   forall i, k <= i < k + n -> present i = false).
Proof.
  revert k. induction n as [|n IH]; intros k; cbn [heading_loop].
  - simpl. split; [discriminate|]. intros _.
    repeat split; solve [lia | intros; lia].
  - destruct (present k) eqn:E; cbn zeta.
    + simpl. split; [|discriminate]. intros _.
      rewrite ?Nat.sub_0_r.
      repeat split; solve [lia | exact E | intros; lia].
    + destruct (IH (S k)) as (Hf & Hn). split.
      * intros Hr. destruct (Hf Hr) as (H1 & H2 & H3 & H4).
        repeat split; try lia; try assumption.
        intros i Hi. destruct (Nat.eq_dec i k) as [->|]; [exact E|].
        apply H4. lia.
      * intros Hr. destruct (Hn Hr) as (H1 & H2 & H3).
        repeat split; try lia.
        intros i Hi. destruct (Nat.eq_dec i k) as [->|]; [exact E|].
        apply H3. lia.
Qed.

(** The heading wait polls at most 20 times.  It stops at the first poll
    that finds a heading, having slept once per poll before it; when no
    poll finds one it gives up after 20 polls and 20 sleeps, and the page
    is processed all the same. *)
Theorem heading_wait_bounded present :
  h_polls (wait_heading present) <= 20 /\
  (forall i, i < 20 -> present i = true ->
             (forall j, j < i -> present j = false) ->
             wait_heading present
             = {| h_polls := S i; h_sleeps := i; h_found := true |}) /\
  ((forall i, i < 20 -> present i = false) ->
   wait_heading present
   = {| h_polls := 20; h_sleeps := 20; h_found := false |}).
Proof.
  unfold wait_heading, HEADING_BOUND.
  destruct (heading_loop_spec present 20 0) as (Hf & Hn).
  destruct (heading_loop present 20 0) as [p s f] eqn:Er. simpl in *.
  split; [|split].
  - destruct f; [destruct (Hf eq_refl)|destruct (Hn eq_refl)]; lia.
  - intros i Hi Hp Hbefore. destruct f.
    + destruct (Hf eq_refl) as (H1 & H2 & H3 & H4).
      assert (p - 1 = i).
      { destruct (Nat.lt_trichotomy (p - 1) i) as [Hlt|[Heq|Hgt]].
        - rewrite (Hbefore (p - 1) Hlt) in H2. discriminate.
        - exact Heq.
        - rewrite (H4 i) in Hp by lia. discriminate. }
      f_equal; lia.
    + destruct (Hn eq_refl) as (_ & _ & H3).
      rewrite (H3 i) in Hp by lia. discriminate.
  - intros Hnone. destruct f.
    + destruct (Hf eq_refl) as (H1 & H2 & _).
      rewrite (Hnone (p - 1)) in H2 by lia. discriminate.
    + destruct (Hn eq_refl) as (-> & -> & _). reflexivity.
Qed.

Lemma heading_wait_bounded_witness :
  wait_heading (fun k => 3 <=? k)
  = {| h_polls := 4; h_sleeps := 3; h_found := true |}.
Proof.
  destruct (heading_wait_bounded (fun k => 3 <=? k)) as (_ & H & _).
  apply (H 3); [lia|reflexivity|].
  intros j Hj. apply Nat.leb_gt. exact Hj.
Defined.

Lemma poll_loop_sleeps_bounds samples n k prev sleeps :
  sleeps <= poll_loop_sleeps samples n k prev sleeps <= sleeps + n.
Proof.
  revert k prev sleeps. induction n as [|n IH]; intros k prev sleeps; simpl.
  - lia.
  - destruct ((0 <? samples k) && (samples k =? prev)); [lia|].
    specialize (IH (S k) (samples k) (S sleeps)). lia.
Qed.

Lemma poll_loop_sleeps_first samples n :
  poll_loop_sleeps samples (S n) 0 0 0
  = poll_loop_sleeps samples n 1 (samples 0) 1.
Proof. simpl. destruct (samples 0); reflexivity. Qed.

Lemma poll_loop_sleeps_polls samples n k prev sleeps :
  poll_loop_sleeps samples n k prev sleeps + k
  + (if stable (poll_loop samples n k prev) then 1 else 0)
  = sleeps + polls (poll_loop samples n k prev).
Proof.
  revert k prev sleeps. induction n as [|n IH]; intros k prev sleeps; simpl.
  - lia.
  - destruct ((0 <? samples k) && (samples k =? prev)); simpl; [lia|].
    specialize (IH (S k) (samples k) (S sleeps)). lia.
Qed.

(** The sleeps of one call of [fetch_page_with_selenium] add up to at
    least 1.2 seconds and at most 13 seconds, whatever the page does; the
    equipment wait sleeps once per poll, less once when it ends stable. *)
Theorem fetch_sleep_bounds present samples :
  12 <= sleep_tenths present samples <= 130 /\
  poll_loop_sleeps samples POLL_BOUND 0 0 0
  + (if stable (wait_equipment_stable samples) then 1 else 0)
  = polls (wait_equipment_stable samples).
Proof.
  split.
  - unfold sleep_tenths, POLL_BOUND.
    assert (Hs : h_sleeps (wait_heading present) <= 20).
    { unfold wait_heading, HEADING_BOUND in *.
      destruct (heading_loop_spec present 20 0) as (Hf & Hn).
      destruct (h_found (heading_loop present 20 0));
        [destruct (Hf eq_refl)|destruct (Hn eq_refl)]; lia. }
    pose proof (poll_loop_sleeps_bounds samples 10 0 0 0) as Hu.
    assert (Hl : 1 <= poll_loop_sleeps samples 10 0 0 0).
    { rewrite (poll_loop_sleeps_first samples 9).
      pose proof (poll_loop_sleeps_bounds samples 9 1 (samples 0) 1). lia. }
    lia.
  - unfold wait_equipment_stable.
    pose proof (poll_loop_sleeps_polls samples POLL_BOUND 0 0 0). lia.
Qed.

(* ================================================================== *)
(** * Further properties of get_links *)

Section DiscoveryFacts.

Context {lib : PyLib}.
Variable fetch : nat -> option (list str).
Variable max_links : nat.

Lemma scan_page_length hrefs ls nf :
  List.length (fst (scan_page max_links hrefs ls nf))
  <= Nat.max (S (List.length ls)) max_links.
Proof.
  revert ls nf. induction hrefs as [|href rest IH]; intros ls nf.
  - cbn [scan_page fst]. lia.
  - cbn [scan_page].
    destruct (is_detail (resolve href));
      [destruct (Str.mem (strip_query (resolve href)) ls)|].
    2: { destruct (Nat.leb_spec max_links
                     (List.length (ls ++ [strip_query (resolve href)]))) as [H|H].
         - cbn [fst]. rewrite length_app. cbn [List.length]. lia.
         - specialize (IH (ls ++ [strip_query (resolve href)]) (S nf)).
           rewrite length_app in *. cbn [List.length] in *. lia. }
    all: destruct (Nat.leb_spec max_links (List.length ls));
      [cbn [fst]; lia|specialize (IH ls nf); lia].
Qed.

Lemma pages_loop_length n page ls log :
  1 <= page -> List.length ls + 2 <= max_links + page ->
  List.length (links (pages_loop fetch max_links n page ls log)) + 2
  <= max_links + page + n.
Proof.
  revert page ls log. induction n as [|n IH]; intros page ls log Hp H;
    cbn [pages_loop].
  - simpl. lia.
  - destruct (fetch page) as [hrefs|]; [|simpl; lia].
    pose proof (scan_page_length hrefs ls 0) as Hl.
    destruct (scan_page max_links hrefs ls 0) as [ls' nf]. cbn [fst] in Hl.
    destruct (nf =? 0); [cbn [links]; lia|].
    specialize (IH (S page) ls' (log ++ [(page, Scanned nf)])). lia.
Qed.

Lemma pages_loop_sound n page ls log :
  log_sound fetch log ->
  log_sound fetch (pages (pages_loop fetch max_links n page ls log)).
Proof.
  unfold log_sound.
  revert page ls log. induction n as [|n IH]; intros page ls log H;
    cbn [pages_loop]; [exact H|].
  destruct (fetch page) as [hrefs|] eqn:Ef.
  - destruct (scan_page max_links hrefs ls 0) as [ls' nf].
    assert (H' : Forall (fun e => match snd e with
                                  | FetchFailed => fetch (fst e) = None
                                  | Scanned _ => fetch (fst e) <> None
                                  end) (log ++ [(page, Scanned nf)])).
    { apply Forall_app. split; [exact H|]. repeat constructor. simpl.
      congruence. }
    destruct (nf =? 0); [exact H'|]. apply IH, H'.
  - simpl. apply Forall_app. split; [exact H|]. repeat constructor. exact Ef.
Qed.

Lemma pages_loop_extends n page ls log :
  exists ext,
    links (pages_loop fetch max_links (S n) page ls log)
    = links (pages_loop fetch max_links n page ls log) ++ ext.
Proof.
  revert page ls log. induction n as [|n IH]; intros page ls log.
  - cbn [pages_loop]. destruct (fetch page) as [hrefs|].
    + destruct (scan_page_count max_links hrefs ls 0) as (ext & ->).
      exists ext. destruct (_ =? 0); reflexivity.
    + exists []. simpl. rewrite app_nil_r. reflexivity.
  - change (pages_loop fetch max_links (S (S n)) page ls log)
      with (match fetch page with
            | None => {| links := ls; pages := log ++ [(page, FetchFailed)] |}
            | Some hrefs =>
                let '(links, new_found) := scan_page max_links hrefs ls 0 in
                let log := log ++ [(page, Scanned new_found)] in
                if new_found =? 0 then {| links := links; pages := log |}
                else pages_loop fetch max_links (S n) (S page) links log
            end).
    change (pages_loop fetch max_links (S n) page ls log)
      with (match fetch page with
            | None => {| links := ls; pages := log ++ [(page, FetchFailed)] |}
            | Some hrefs =>
                let '(links, new_found) := scan_page max_links hrefs ls 0 in
                let log := log ++ [(page, Scanned new_found)] in
                if new_found =? 0 then {| links := links; pages := log |}
                else pages_loop fetch max_links n (S page) links log
            end).
    destruct (fetch page) as [hrefs|].
    + destruct (scan_page max_links hrefs ls 0) as [ls' nf].
      destruct (nf =? 0); [exists []; rewrite app_nil_r; reflexivity|].
      apply IH.
    + exists []. rewrite app_nil_r. reflexivity.
Qed.

Lemma pages_loop_failure n m page ls log :
  fetch (page + n) = None ->
  links (pages_loop fetch max_links (n + S m) page ls log)
  = links (pages_loop fetch max_links n page ls log).
Proof.
  revert page ls log. induction n as [|n IH]; intros page ls log Hf.
  - rewrite Nat.add_0_r in Hf. simpl. rewrite Hf. reflexivity.
  - cbn [Nat.add pages_loop]. destruct (fetch page) as [hrefs|]; [|reflexivity].
    destruct (scan_page max_links hrefs ls 0) as [ls' nf].
    destruct (nf =? 0); [reflexivity|].
    apply IH. rewrite <- Hf. f_equal. lia.
Qed.

End DiscoveryFacts.

(** The list that [get_links] returns can pass the cap, but by less than
    one link per listing page: with a cap of at least one it has at most
    [max_links + max_pages - 1] links, and a run of a single page keeps
    to the cap. *)
Theorem link_count_bound {lib : PyLib} fetch max_pages max_links :
  1 <= max_links ->
  List.length (links (get_links fetch max_pages max_links))
  <= max_links + (max_pages - 1) /\
  List.length (links (get_links fetch 1 max_links)) <= max_links.
Proof.
  intros H. unfold get_links. split.
  - pose proof (pages_loop_length fetch max_links max_pages 1 [] []) as Hl.
    cbn [List.length] in Hl. lia.
  - pose proof (pages_loop_length fetch max_links 1 1 [] []) as Hl.
    cbn [List.length] in Hl. lia.
Qed.

Lemma link_count_bound_witness :
  List.length
    (links (get_links (listing [[lit "/a_1.htm"]; [lit "/a_2.htm"]]) 2 1))
  <= 1 + (2 - 1).
Proof.
  destruct (link_count_bound
              (listing [[lit "/a_1.htm"]; [lit "/a_2.htm"]]) 2 1) as [H _].
  - lia.
  - exact H.
Defined.

(** The listing pages are requested in order from page 1, at most
    [max_pages] of them; every page but the last one requested added a
    link, a page logged as failed is one whose request failed, and a
    failed page is the last one requested. *)
Theorem request_log_invariant {lib : PyLib} fetch max_pages max_links :
  let log := pages (get_links fetch max_pages max_links) in
  map fst log = seq 1 (List.length log) /\
  List.length log <= max_pages /\
  growing (removelast log) /\
  log_sound fetch log /\
  (forall i k, nth_error log i = Some (k, FetchFailed) ->
               List.length log = S i).
Proof.
  destruct (get_links_spec fetch max_pages max_links)
    as (_ & _ & Hseq & Hlen & Hg).
  cbv zeta. repeat split; try assumption.
  - unfold get_links. apply pages_loop_sound. constructor.
  - intros i k Hi.
    set (log := pages (get_links fetch max_pages max_links)) in *.
    assert (Hlt : i < List.length log) by (apply nth_error_Some; congruence).
    destruct (Nat.eq_dec (List.length log) (S i)) as [|Hne]; [assumption|].
    exfalso.
    assert (Hr : nth_error (removelast log) i = Some (k, FetchFailed)).
    { rewrite nth_error_removelast; [exact Hi|lia]. }
    apply nth_error_In in Hr. unfold growing in Hg.
    rewrite Forall_forall in Hg. destruct (Hg _ Hr) as (n & Hn). discriminate.
Qed.

(** Allowing one more listing page never loses or reorders a link: the
    list found with [max_pages] pages is the beginning of the list found
    with one page more. *)
Theorem more_pages_extend_links {lib : PyLib} fetch max_pages max_links :
  exists ext,
    links (get_links fetch (S max_pages) max_links)
    = links (get_links fetch max_pages max_links) ++ ext.
Proof. unfold get_links. apply pages_loop_extends. Qed.

(** A listing page whose request fails ends the discovery with the
    links of the pages before it: the result is that of a run limited to
    those pages, and it is empty when the first page fails. *)
Theorem fetch_failure_keeps_links {lib : PyLib} fetch max_pages max_links k :
  fetch (S k) = None -> k < max_pages ->
  links (get_links fetch max_pages max_links)
  = links (get_links fetch k max_links) /\
  (k = 0 -> links (get_links fetch max_pages max_links) = []).
Proof.
  intros Hf Hk. unfold get_links.
  assert (E : links (pages_loop fetch max_links max_pages 1 [] [])
              = links (pages_loop fetch max_links k 1 [] [])).
  { replace max_pages with (k + S (max_pages - k - 1)) by lia.
    apply pages_loop_failure. exact Hf. }
  split; [exact E|]. intros ->. rewrite E. reflexivity.
Qed.

Lemma fetch_failure_keeps_links_witness :
  links (get_links (listing [[lit "/fr/maroc/a_1.htm"]]) MAX_PAGES MAX_LINKS)
  = links (get_links (listing [[lit "/fr/maroc/a_1.htm"]]) 1 MAX_LINKS).
Proof.
  destruct (fetch_failure_keeps_links
              (listing [[lit "/fr/maroc/a_1.htm"]]) MAX_PAGES MAX_LINKS 1)
    as [H _].
  - reflexivity.
  - unfold MAX_PAGES. lia.
  - exact H.
Defined.

(* ================================================================== *)
(** * Further properties of main *)

Section RunFacts.

Variable parse_publication : nat -> str -> outcome.

Lemma pauses_app a b : pauses (a ++ b) = pauses a + pauses b.
Proof. unfold pauses. rewrite filter_app, length_app. reflexivity. Qed.

(** What the loop adds to the trace: visits and pauses only, for a
    beginning of the links. *)
Lemma visit_links_steps i todo results trace :
  let '(_, t, ab) := visit_links parse_publication i todo results trace in
  exists body rest,
    t = trace ++ body /\ Forall (fun e => is_step e = true) body /\
    todo = visited body ++ rest /\ (ab = false -> rest = []) /\
    pauses body + (if ab then 1 else 0) = List.length (visited body).
Proof.
  revert i results trace. induction todo as [|link rest IH];
    intros i results trace; cbn [visit_links].
  - exists [], []. rewrite app_nil_r. repeat split; auto.
  - assert (Hstep : forall r,
      (let '(_, t, ab) := visit_links parse_publication (S i) rest r
                                      ((trace ++ [Visit link]) ++ [Pause]) in
       exists body rest0,
         t = ((trace ++ [Visit link]) ++ [Pause]) ++ body /\
         Forall (fun e => is_step e = true) body /\
         rest = visited body ++ rest0 /\ (ab = false -> rest0 = []) /\
         pauses body + (if ab then 1 else 0) = List.length (visited body)) ->
      let '(_, t, ab) := visit_links parse_publication (S i) rest r
                                     ((trace ++ [Visit link]) ++ [Pause]) in
      exists body rest0,
        t = trace ++ body /\ Forall (fun e => is_step e = true) body /\
        link :: rest = visited body ++ rest0 /\ (ab = false -> rest0 = []) /\
        pauses body + (if ab then 1 else 0) = List.length (visited body)).
    { intros r. destruct (visit_links _ _ _ _ _) as [[r' t] ab].
      intros (body & rest0 & -> & HF & -> & Hab & Hp).
      exists (Visit link :: Pause :: body), rest0.
      split; [rewrite <- !app_assoc; reflexivity|].
      split; [repeat constructor; exact HF|].
      split; [reflexivity|]. split; [exact Hab|].
      unfold pauses in *. simpl. lia. }
    destruct (parse_publication i link) as [[[|item items]|]| |].
    1-4: apply Hstep, IH.
    exists [Visit link], rest. repeat split; auto. discriminate.
Qed.

Lemma visit_links_app i a b results trace :
  visit_links parse_publication i (a ++ b) results trace
  = let '(r, t, ab) := visit_links parse_publication i a results trace in
    if ab then (r, t, true)
    else visit_links parse_publication (i + List.length a) b r t.
Proof.
  revert i results trace. induction a as [|link rest IH];
    intros i results trace.
  - simpl. rewrite Nat.add_0_r. reflexivity.
  - cbn [app visit_links List.length].
    destruct (parse_publication i link) as [[[|item items]|]| |];
      [rewrite IH|rewrite IH|rewrite IH|rewrite IH|reflexivity];
      replace (S i + List.length rest) with (i + S (List.length rest)) by lia;
      reflexivity.
Qed.

End RunFacts.

(** In every run that gets its driver and has a link to visit, the
    driver is created first, then come only visits and pauses, then the
    driver is quit; after that nothing is visited, and at most the call of
    [save_csv] follows.  This holds whether [driver.quit()] returns or
    raises. *)
Theorem session_brackets_visits parse_publication quit_ok ls :
  ls <> [] ->
  exists body tail,
    fst (main parse_publication true quit_ok ls)
    = CreateDriver true :: body ++ Quit :: tail /\
    Forall (fun e => is_step e = true) body /\
    (tail = [] \/ exists rows, tail = [SaveCsv rows]).
Proof.
  intros Hne. unfold main. destruct ls as [|l ls']; [congruence|].
  pose proof (visit_links_steps parse_publication 0 (l :: ls') []
                                [CreateDriver true]) as H.
  destruct (visit_links _ _ _ _ _) as [[r t] ab].
  destruct H as (body & rest & -> & HF & _).
  destruct ab, quit_ok; simpl.
  1,2,4: exists body, []; auto.
  exists body, [SaveCsv r]. rewrite <- app_assoc. simpl.
  split; [reflexivity|]. split; [exact HF|]. right. exists r. reflexivity.
Qed.

Lemma session_brackets_visits_witness :
  exists body tail,
    fst (main second_fails true true three_links)
    = CreateDriver true :: body ++ Quit :: tail /\
    Forall (fun e => is_step e = true) body /\
    (tail = [] \/ exists rows, tail = [SaveCsv rows]).
Proof.
  apply (session_brackets_visits second_fails true three_links). discriminate.
Defined.

(** A run that is not aborted pauses once after every link, whether the
    link gave a record or not and whether [driver.quit()] returns or
    raises, and saves at most one row per link. *)
Theorem one_pause_per_link parse_publication quit_ok ls :
  ls <> [] -> no_abort parse_publication 0 ls ->
  pauses (fst (main parse_publication true quit_ok ls)) = List.length ls /\
  List.length (successes parse_publication 0 ls) <= List.length ls /\
  (forall rows,
      In rows (saves (fst (main parse_publication true quit_ok ls))) ->
      List.length rows <= List.length ls).
Proof.
  intros Hne Hna.
  assert (Hlen : List.length (successes parse_publication 0 ls)
                 <= List.length ls).
  { clear. generalize 0. induction ls as [|l r IH]; intros i; simpl; [lia|].
    specialize (IH (S i)).
    destruct (parse_publication i l) as [[[|item items]|]| |]; simpl; lia. }
  split; [|split; [exact Hlen|]].
  2: { intros rows Hin. destruct quit_ok.
       - destruct (main_saves parse_publication ls Hne Hna) as (_ & H & _).
         rewrite H in Hin. destruct Hin as [<-|[]]. exact Hlen.
       - destruct (main_no_save parse_publication true false ls eq_refl)
           as (H & _).
         rewrite H in Hin. destruct Hin. }
  - unfold main. destruct ls as [|l ls']; [congruence|].
    pose proof (visit_links_steps parse_publication 0 (l :: ls') []
                                  [CreateDriver true]) as H.
    pose proof (visit_links_complete parse_publication 0 (l :: ls') []
                                     [CreateDriver true] Hna) as Hc.
    destruct (visit_links _ _ _ _ _) as [[r t] ab].
    destruct Hc as (-> & _ & _).
    destruct H as (body & rest & -> & _ & Hv & Hrest & Hp).
    rewrite (Hrest eq_refl), app_nil_r in Hv.
    destruct quit_ok; cbn [fst orb negb]; rewrite !pauses_app, Hv;
      change (pauses [CreateDriver true]) with 0;
      change (pauses [Quit]) with 0; change (pauses [SaveCsv r]) with 0; lia.
Qed.

Lemma one_pause_per_link_witness :
  pauses (fst (main second_fails true true three_links)) = 3 /\
  List.length (successes second_fails 0 three_links) <= 3.
Proof.
  destruct (one_pause_per_link second_fails true three_links)
    as (H1 & H2 & _).
  - discriminate.
  - simpl. repeat split; discriminate.
  - split; [exact H1|exact H2].
Defined.

(** When the processing of a link is interrupted by an exception that
    [except Exception] does not catch, no later link is visited, the driver
    is still quit once, and [save_csv] is not called: the records of the
    links before are not written.  This holds whether [driver.quit()]
    returns or raises. *)
Theorem abort_loses_records parse_publication quit_ok before link after :
  no_abort parse_publication 0 before ->
  parse_publication (List.length before) link = Aborted ->
  let run := main parse_publication true quit_ok (before ++ link :: after) in
  snd run = false /\
  visited (fst run) = before ++ [link] /\
  closes (fst run) = 1 /\
  saves (fst run) = [].
Proof.
  intros Hna Hab. unfold main.
  destruct (before ++ link :: after) eqn:E; [destruct before; discriminate|].
  rewrite <- E. clear E.
  rewrite visit_links_app.
  pose proof (visit_links_quiet parse_publication 0 before []
                                [CreateDriver true]) as Hq.
  pose proof (visit_links_complete parse_publication 0 before []
                                   [CreateDriver true] Hna) as Hc.
  destruct (visit_links parse_publication 0 before [] [CreateDriver true])
    as [[r t] ab].
  destruct Hc as (-> & _ & Hv). destruct Hq as (Hcl & _ & Hs).
  cbn [visit_links Nat.add]. rewrite Hab. cbn [fst snd orb].
  rewrite !visited_app, !closes_app, !saves_app, Hv, Hcl, Hs. simpl.
  rewrite app_nil_r. auto.
Qed.

Lemma abort_loses_records_witness :
  saves (fst (main third_interrupted true true three_links)) = [] /\
  closes (fst (main third_interrupted true true three_links)) = 1.
Proof.
  destruct (abort_loses_records
              third_interrupted true
              [lit "https://www.avito.ma/fr/maroc/a_1.htm";
               lit "https://www.avito.ma/fr/maroc/a_2.htm"]
              (lit "https://www.avito.ma/fr/maroc/a_3.htm") [])
    as (_ & _ & H1 & H2).
  - simpl. repeat split; discriminate.
  - reflexivity.
  - split; [exact H2|exact H1].
Defined.



(* ================================================================== *)
(** * Further properties of clean_text *)

Section CleanTextMore.

Local Arguments isspace : simpl never.

Lemma filter_nonspace_replace x s :
  isspace x = true ->
  filter nonspace (Str.replace x SP s) = filter nonspace s.
Proof.
  intros Hx. unfold Str.replace, nonspace.
  induction s as [|c r IH]; simpl; [reflexivity|].
  rewrite IH. destruct (N.eqb_spec c x) as [->|]; [|reflexivity].
  rewrite Hx. reflexivity.
Qed.

Lemma filter_nonspace_sub_spaces b s :
  filter nonspace (sub_spaces b s) = filter nonspace s.
Proof.
  unfold nonspace. revert b. induction s as [|c r IH]; intros b; simpl;
    [reflexivity|].
  destruct (isspace c) eqn:E; simpl.
  - destruct b; simpl; apply IH.
  - rewrite E. simpl. f_equal. apply IH.
Qed.

Lemma filter_nonspace_lstrip s :
  filter nonspace (lstrip s) = filter nonspace s.
Proof.
  unfold lstrip, nonspace. induction s as [|c r IH]; simpl; [reflexivity|].
  destruct (isspace c) eqn:E; simpl; [exact IH|]. rewrite E. reflexivity.
Qed.

Lemma filter_nonspace_rstrip s :
  filter nonspace (rstrip s) = filter nonspace s.
Proof.
  unfold nonspace. induction s as [|c r IH]; simpl; [reflexivity|].
  rewrite <- IH. destruct (rstrip r) as [|c' r'].
  - destruct (isspace c) eqn:E; simpl; [reflexivity|]. rewrite E. reflexivity.
  - reflexivity.
Qed.

Lemma length_sub_spaces b s : List.length (sub_spaces b s) <= List.length s.
Proof.
  revert b. induction s as [|c r IH]; intros b; simpl; [lia|].
  destruct (isspace c);
    [destruct b; simpl; specialize (IH true); lia
    |simpl; specialize (IH false); lia].
Qed.

Lemma length_lstrip s : List.length (lstrip s) <= List.length s.
Proof.
  unfold lstrip. induction s as [|c r IH]; simpl; [lia|].
  destruct (isspace c); simpl; lia.
Qed.

Lemma length_rstrip s : List.length (rstrip s) <= List.length s.
Proof.
  induction s as [|c r IH]; simpl; [lia|].
  destruct (rstrip r); [destruct (isspace c)|]; simpl in *; lia.
Qed.

Lemma words_blank s : words s = [] <-> forallb isspace s = true.
Proof.
  induction s as [|c r IH]; simpl; [tauto|].
  destruct (isspace c); simpl; [exact IH|].
  split; [|discriminate].
  destruct (word_break r); [discriminate|].
  destruct (words r); discriminate.
Qed.

Lemma join_sp_nil ws :
  Forall (fun w => w <> []) ws -> join_sp ws = [] -> ws = [].
Proof.
  intros HF. destruct ws as [|w ws']; [reflexivity|].
  apply Forall_inv in HF. destruct w; [congruence|].
  destruct ws'; discriminate.
Qed.

Lemma words_not_empty s : Forall (fun w => w <> []) (words s).
Proof.
  induction s as [|c r IH]; simpl; [constructor|].
  destruct (isspace c); [exact IH|].
  destruct (word_break r).
  - constructor; [discriminate|exact IH].
  - destruct (words r) as [|w ws]; simpl.
    + constructor; [discriminate|constructor].
    + constructor; [discriminate|]. apply (Forall_inv_tail IH).
Qed.

Lemma clean_text_join s : clean_text (Some s) = join_sp (words s).
Proof.
  rewrite <- clean_text_words.
  destruct (clean_text_tidy (Some s)) as (Hc & Hs & He).
  rewrite join_words_collapsed by assumption.
  symmetry. apply lstrip_fixed, Hs.
Qed.

End CleanTextMore.

(** [clean_text] touches whitespace only: the characters of the input
    that are not whitespace come out unchanged and in the same order, and
    the result is never longer than the input. *)
Theorem clean_text_keeps_nonspace s :
  filter nonspace (clean_text (Some s)) = filter nonspace s /\
  List.length (clean_text (Some s)) <= List.length s.
Proof.
  destruct s as [|c r]; [split; [reflexivity|simpl; lia]|].
  unfold clean_text, strip. split.
  - rewrite filter_nonspace_rstrip, filter_nonspace_lstrip,
      filter_nonspace_sub_spaces.
    rewrite !filter_nonspace_replace by reflexivity. reflexivity.
  - set (v := Str.replace TAB SP (Str.replace CR SP (Str.replace LF SP (c :: r)))).
    assert (Hv : List.length v = List.length (c :: r)).
    { unfold v, Str.replace. rewrite !length_map. reflexivity. }
    pose proof (length_rstrip (lstrip (sub_spaces false v))).
    pose proof (length_lstrip (sub_spaces false v)).
    pose proof (length_sub_spaces false v). lia.
Qed.

(** The result of [clean_text] is empty exactly when the input has
    nothing but whitespace in it. *)
Theorem clean_text_empty_iff_blank s :
  clean_text (Some s) = [] <-> forallb isspace s = true.
Proof.
  rewrite clean_text_join, <- words_blank. split.
  - apply join_sp_nil, words_not_empty.
  - intros ->. reflexivity.
Qed.

(* ================================================================== *)
(** * What the patterns match *)

Lemma match_here_plain l p s :
  match_here (map (fun c => One (N.eqb c)) l ++ p) s = true <->
  exists r, s = l ++ r /\ match_here p r = true.
Proof.
  revert s. induction l as [|a l IH]; intros s; cbn [map app].
  - split; [intros H; exists s; auto|intros (r & -> & H); exact H].
  - cbn [match_here]. destruct s as [|c r].
    + split; [discriminate|intros (r & E & _); discriminate].
    + rewrite andb_true_iff, IH, N.eqb_eq. split.
      * intros (-> & r' & -> & H). exists r'. auto.
      * intros (r' & E & H). injection E as -> ->. eauto.
Qed.

Lemma match_here_many1_cons f p c r :
  match_here (Many1 f :: p) (c :: r)
  = f c && (match_here (Many1 f :: p) r || match_here p r).
Proof. reflexivity. Qed.

Lemma match_here_many1 f p s :
  match_here (Many1 f :: p) s = true <->
  exists ds r, ds <> [] /\ forallb f ds = true /\ s = ds ++ r /\
               match_here p r = true.
Proof.
  induction s as [|c s IH].
  - split; [discriminate|].
    intros (ds & r & Hne & _ & E & _). destruct ds; [congruence|discriminate].
  - rewrite match_here_many1_cons, andb_true_iff, orb_true_iff, IH. split.
    + intros (Hc & [(ds & r & _ & Hds & -> & Hm)|Hm]).
      * exists (c :: ds), r. simpl. rewrite Hc, Hds.
        repeat split; [discriminate|exact Hm].
      * exists [c], s. simpl. rewrite Hc.
        repeat split; [discriminate|exact Hm].
    + intros (ds & r & Hne & Hds & E & Hm).
      destruct ds as [|d ds]; [congruence|].
      simpl in E, Hds. injection E as -> ->.
      apply andb_true_iff in Hds. destruct Hds as [Hd Hds].
      split; [exact Hd|]. destruct ds as [|d' ds].
      * right. exact Hm.
      * left. exists (d' :: ds), r. repeat split; [discriminate|assumption..].
Qed.

Lemma search_spec p s :
  search p s = true <->
  exists pre suf, s = pre ++ suf /\ match_here p suf = true.
Proof.
  induction s as [|c s IH]; cbn [search]; rewrite orb_true_iff.
  - split.
    + intros [H|H]; [exists [], []; auto|discriminate].
    + intros (pre & suf & E & H).
      destruct pre; [|discriminate]. destruct suf; [|discriminate]. auto.
  - rewrite IH. split.
    + intros [H|(pre & suf & -> & H)].
      * exists [], (c :: s). auto.
      * exists (c :: pre), suf. auto.
    + intros (pre & suf & E & H). destruct pre as [|a pre].
      * simpl in E. subst suf. auto.
      * injection E as -> ->. right. eauto.
Qed.

Lemma at_end_spec s : at_end s = true <-> s = [] \/ s = [LF].
Proof.
  destruct s as [|c [|c' s]]; simpl.
  - tauto.
  - rewrite N.eqb_eq. split.
    + intros ->. auto.
    + intros [H|H]; [discriminate|congruence].
  - split; [discriminate|intros [H|H]; discriminate].
Qed.

(** A reference counts as a detail page exactly when it ends with an
    underscore, one or more digits and [.htm], or with these and one
    final newline; what comes before does not matter. *)
Theorem detail_pattern_language {lib : PyLib} href :
  is_detail href = true <->
  exists pre ds e,
    href = pre ++ lit "_" ++ ds ++ lit ".htm" ++ e /\
    ds <> [] /\ forallb isdecimal ds = true /\ (e = [] \/ e = [LF]).
Proof.
  unfold is_detail, detail_pattern, chars. rewrite search_spec. split.
  - intros (pre & suf & -> & H).
    apply match_here_plain in H. destruct H as (r1 & -> & H).
    apply match_here_many1 in H. destruct H as (ds & r2 & Hne & Hds & -> & H).
    apply match_here_plain in H. destruct H as (e & -> & H).
    cbn [match_here] in H. rewrite andb_true_r in H.
    apply at_end_spec in H. exists pre, ds, e. auto.
  - intros (pre & ds & e & -> & Hne & Hds & He).
    exists pre, (lit "_" ++ ds ++ lit ".htm" ++ e). split; [reflexivity|].
    apply match_here_plain. exists (ds ++ lit ".htm" ++ e).
    split; [reflexivity|].
    apply match_here_many1. exists ds, (lit ".htm" ++ e).
    repeat split; try assumption.
    apply match_here_plain. exists e. split; [reflexivity|].
    cbn [match_here]. rewrite andb_true_r. apply at_end_spec, He.
Qed.

Section FirstDigits.

Context {lib : PyLib}.

Lemma takewhile_split f s :
  exists post,
    s = takewhile f s ++ post /\ forallb f (takewhile f s) = true /\
    match post with [] => True | c :: _ => f c = false end.
Proof.
  induction s as [|c r (post & E & Hall & Hpost)]; simpl.
  - exists []. auto.
  - destruct (f c) eqn:Ec.
    + exists post. simpl. rewrite Ec, Hall. rewrite <- E. auto.
    + exists (c :: r). auto.
Qed.

Lemma dropwhile_split f s :
  exists pre,
    s = pre ++ Str.dropwhile f s /\ forallb f pre = true /\
    match Str.dropwhile f s with [] => True | c :: _ => f c = false end.
Proof.
  induction s as [|c r (pre & E & Hall & Hd)]; simpl.
  - exists []. auto.
  - destruct (f c) eqn:Ec.
    + exists (c :: pre). simpl. rewrite Ec, Hall, <- E. auto.
    + exists []. auto.
Qed.

End FirstDigits.



(* ================================================================== *)
(** * Further properties of save_csv *)

Lemma read_quoted_field v rest :
  match rest with [] => True | c :: _ => c <> QUOTE end ->
  read_quoted
    (flat_map (fun c => if N.eqb c QUOTE then [QUOTE; QUOTE] else [c]) v
     ++ QUOTE :: rest)
  = Some (v, rest).
Proof.
  intros Hrest. induction v as [|a v IH].
  - simpl. destruct rest as [|c r]; [reflexivity|].
    destruct (N.eqb_spec c QUOTE); [contradiction|reflexivity].
  - cbn [flat_map]. destruct (N.eqb_spec a QUOTE) as [->|Ha].
    + cbn [app read_quoted]. rewrite !N.eqb_refl, IH. reflexivity.
    + cbn [app read_quoted].
      destruct (N.eqb_spec a QUOTE); [contradiction|]. rewrite IH.
      reflexivity.
Qed.

Lemma quote_field_app v rest :
  quote_field v ++ rest
  = QUOTE :: flat_map (fun c => if N.eqb c QUOTE then [QUOTE; QUOTE] else [c]) v
          ++ QUOTE :: rest.
Proof. unfold quote_field. simpl. rewrite <- app_assoc. reflexivity. Qed.

Lemma read_record_line cells more fuel :
  cells <> [] -> List.length cells <= fuel ->
  read_record fuel (csv_line cells ++ more) = Some (cells, more).
Proof.
  unfold csv_line. revert fuel.
  induction cells as [|v cells IH]; intros fuel Hne Hfuel; [congruence|].
  destruct fuel as [|fuel]; [simpl in Hfuel; lia|].
  destruct cells as [|v' cells'].
  - cbn [map join]. rewrite <- app_assoc, quote_field_app.
    cbn [app read_record].
    rewrite N.eqb_refl, read_quoted_field by discriminate.
    reflexivity.
  - change (join [COMMA] (map quote_field (v :: v' :: cells')))
      with (quote_field v ++ [COMMA]
            ++ join [COMMA] (map quote_field (v' :: cells'))).
    rewrite <- !app_assoc, quote_field_app.
    cbn [app read_record].
    rewrite N.eqb_refl, read_quoted_field by discriminate.
    rewrite N.eqb_refl.
    specialize (IH fuel ltac:(discriminate) ltac:(simpl in *; lia)).
    rewrite <- app_assoc in IH. cbn [app] in IH. rewrite IH. reflexivity.
Qed.

Lemma csv_line_length cells :
  List.length cells <= List.length (csv_line cells).
Proof.
  unfold csv_line. rewrite length_app. simpl.
  induction cells as [|v [|v' cells] IH]; simpl in *; [lia|lia|].
  rewrite !length_app, ?length_app in *. simpl in *. lia.
Qed.

Lemma read_records_lines lines fuel :
  Forall (fun cells => cells <> []) lines ->
  List.length lines <= fuel ->
  read_records fuel (List.concat (map csv_line lines)) = Some lines.
Proof.
  revert fuel. induction lines as [|cells lines IH]; intros fuel HF Hfuel.
  - destruct fuel; reflexivity.
  - destruct fuel as [|fuel]; [simpl in Hfuel; lia|].
    cbn [map List.concat].
    assert (Hs : exists c s, csv_line cells ++ List.concat (map csv_line lines)
                             = c :: s).
    { unfold csv_line. destruct (join [COMMA] (map quote_field cells));
        simpl; eauto. }
    destruct Hs as (c & s & Hs). cbn [read_records]. rewrite Hs.
    cbn [read_records]. rewrite <- Hs.
    rewrite read_record_line.
    + rewrite IH; [reflexivity|exact (Forall_inv_tail HF)|simpl in Hfuel; lia].
    + exact (Forall_inv HF).
    + rewrite length_app. pose proof (csv_line_length cells). lia.
Qed.

(** Reading back the file that [save_csv] wrote gives the header and
    then, for every record, its thirteen values in the order of the
    header, whatever characters the values contain. *)
Theorem csv_round_trip rows out :
  save_csv rows = Some out ->
  csv_reader out
  = Some (keys :: map (fun row => map (value_of row) keys) rows).
Proof.
  intros E. apply save_csv_saved, write_rows_saved in E.
  destruct E as (_ & ->). unfold csv_reader.
  set (lines := keys :: map (fun row => map (value_of row) keys) rows).
  assert (E : csv_line keys
              ++ List.concat
                   (map (fun row => csv_line (map (value_of row) keys)) rows)
              = List.concat (map csv_line lines)).
  { unfold lines. cbn [map List.concat]. rewrite map_map. reflexivity. }
  rewrite E. apply read_records_lines.
  - unfold lines. constructor; [discriminate|].
    apply Forall_forall. intros cells Hin.
    apply in_map_iff in Hin. destruct Hin as (row & <- & _). discriminate.
  - clear. induction lines as [|l ls IH]; simpl; [lia|].
    rewrite length_app.
    assert (1 <= List.length (csv_line l)).
    { unfold csv_line. rewrite length_app. simpl. lia. }
    lia.
Qed.

Lemma csv_round_trip_witness :
  exists out,
    save_csv [awkward_row] = Some out /\
    csv_reader out = Some [keys; map (value_of awkward_row) keys].
Proof.
  eexists. split.
  - vm_compute. reflexivity.
  - apply (csv_round_trip [awkward_row]). vm_compute. reflexivity.
Defined.

(** [save_csv] writes the whole file exactly when every row has only
    field names as keys and values that [utf-8] encodes.  Otherwise it
    raises at the first row that is not so, and the file keeps the header
    and the lines of the rows before that one.  A record that
    [parse_publication] built can be written exactly when each of its
    fields can be encoded. *)
Theorem save_csv_failures :
  (forall rows,
      (exists out, save_csv rows = Some out) <->
      Forall (writable keys) rows) /\
  (forall before row after,
      Forall (writable keys) before -> ~ writable keys row ->
      save_csv (before ++ row :: after) = None /\
      save_csv_file (before ++ row :: after)
      = Failed (csv_line keys
                ++ List.concat
                     (map (fun row => csv_line (map (value_of row) keys))
                          before))) /\
  (forall r, writable keys (to_dict r) <-> record_encodable r).
Proof.
  split; [|split].
  - intros rows. split.
    + intros (out & E). apply save_csv_saved, write_rows_saved in E. apply E.
    + intros HF. eexists. apply save_csv_saved.
      unfold save_csv_file. apply write_rows_writable. exact HF.
  - intros before row after HF Hrow.
    assert (E := write_rows_failed keys before row after (csv_line keys)
                                   HF Hrow).
    unfold save_csv, save_csv_file. rewrite E. auto.
  - intros r. unfold writable, record_encodable. split.
    + intros (_ & H). exact H.
    + intros H. split; [apply to_dict_known|exact H].
Qed.

Lemma save_csv_failures_witness :
  save_csv [awkward_row; surrogate_row; awkward_row] = None /\
  save_csv_file [awkward_row; surrogate_row; awkward_row]
  = Failed (csv_line keys ++ csv_line (map (value_of awkward_row) keys) ++ []).
Proof.
  destruct save_csv_failures as (_ & H & _).
  apply (H [awkward_row] surrogate_row [awkward_row]).
  - constructor; [|constructor]. split; [|vm_compute; reflexivity].
    intros k Hk. simpl in Hk. destruct Hk as [<-|[]]. apply mem_In.
    vm_compute. reflexivity.
  - intros (_ & He). vm_compute in He. discriminate.
Defined.

(* ================================================================== *)
(** * Further properties of parse_publication *)

Lemma str_eqb_eq a b : Str.eqb a b = true <-> a = b.
Proof.
  unfold Str.eqb. destruct (list_eq_dec N.eq_dec a b); split;
    congruence.
Qed.

Section DedupFacts.

Context {A : Type}.
Variable pick : A -> option str.

Lemma fold_add_new xs acc :
  NoDup acc ->
  NoDup (fold_left (add_new pick) xs acc) /\
  forall v, In v (fold_left (add_new pick) xs acc) <->
            In v acc \/ exists x, In x xs /\ pick x = Some v.
Proof.
  revert acc. induction xs as [|x xs IH]; intros acc Hnd; simpl.
  - split; [exact Hnd|]. intros v. split; [auto|].
    intros [H|(x & [] & _)]. exact H.
  - assert (Hnd' : NoDup (add_new pick acc x)).
    { unfold add_new. destruct (pick x) as [v|]; [|exact Hnd].
      destruct (Str.mem v acc) eqn:Em; [exact Hnd|].
      apply NoDup_app; [exact Hnd|repeat constructor; simpl; tauto|].
      intros y Hy [<-|[]]. apply mem_In in Hy. congruence. }
    destruct (IH _ Hnd') as (H1 & H2). split; [exact H1|].
    intros v. rewrite H2. unfold add_new.
    destruct (pick x) as [w|] eqn:Ep.
    + destruct (Str.mem w acc) eqn:Em.
      * apply mem_In in Em. split.
        -- intros [H|(y & Hy & Hp)]; [auto|right; eauto].
        -- intros [H|(y & [<-|Hy] & Hp)]; [auto| |right; eauto].
           left. congruence.
      * rewrite in_app_iff. simpl. split.
        -- intros [[H|[<-|[]]]|(y & Hy & Hp)]; [auto|right; eauto|right; eauto].
        -- intros [H|(y & [<-|Hy] & Hp)]; [auto| |right; eauto].
           left. right. left. congruence.
    + split.
      * intros [H|(y & Hy & Hp)]; [auto|right; eauto].
      * intros [H|(y & [<-|Hy] & Hp)]; [auto|congruence|right; eauto].
Qed.

End DedupFacts.

Lemma add_image_add_new images img :
  add_image images img = add_new listing_image images img.
Proof.
  unfold add_image, add_new, listing_image.
  destruct (attr (lit "src") img) as [[|c src]|]; try reflexivity.
  destruct (Str.contains (lit "content.avito.ma") (c :: src)
            && negb (Str.contains (lit "?t=card") (c :: src))); simpl;
    [|reflexivity].
  destruct (Str.mem (c :: src) images); reflexivity.
Qed.

Lemma add_equipment_add_new equipments alt :
  add_equipment equipments alt = add_new equipment_label equipments alt.
Proof.
  unfold add_equipment, add_new, equipment_label.
  destruct alt as [[|c a]|]; reflexivity.
Qed.

Lemma fold_left_ext {A B} (f g : A -> B -> A) xs acc :
  (forall a x, f a x = g a x) -> fold_left f xs acc = fold_left g xs acc.
Proof.
  intros H. revert acc. induction xs as [|x xs IH]; intros acc; simpl;
    [reflexivity|]. rewrite H. apply IH.
Qed.

(** The image list of a record has no duplicate, and holds exactly the
    sources of the [img] tags of the page that are not empty, contain the
    asset host and do not contain the thumbnail marker. *)
Theorem images_are_filtered_sources soup :
  NoDup (images_of (soup_elements soup)) /\
  forall src,
    In src (images_of (soup_elements soup)) <->
    exists img,
      In img (soup_elements soup) /\ has_name "img" img = true /\
      attr (lit "src") img = Some src /\ src <> [] /\
      Str.contains (lit "content.avito.ma") src = true /\
      Str.contains (lit "?t=card") src = false.
Proof.
  unfold images_of.
  rewrite (fold_left_ext add_image (add_new listing_image))
    by apply add_image_add_new.
  destruct (fold_add_new listing_image
              (filter (has_name "img") (soup_elements soup)) [])
    as (Hnd & Hin); [constructor|].
  split; [exact Hnd|]. intros src. rewrite Hin. split.
  - intros [[]|(img & Himg & Hp)].
    apply filter_In in Himg. destruct Himg as (Hel & Hname).
    exists img. unfold listing_image in Hp.
    destruct (attr (lit "src") img) as [[|c s]|]; try discriminate.
    destruct (Str.contains (lit "content.avito.ma") (c :: s)) eqn:E1;
      [|discriminate].
    destruct (Str.contains (lit "?t=card") (c :: s)) eqn:E2; [discriminate|].
    simpl in Hp. injection Hp as <-.
    repeat split; try assumption. discriminate.
  - intros (img & Hel & Hname & Hsrc & Hne & E1 & E2). right.
    exists img. split; [apply filter_In; auto|].
    unfold listing_image. rewrite Hsrc.
    destruct src as [|c s]; [congruence|]. rewrite E1, E2. reflexivity.
Qed.

(** The equipment labels have no duplicate and no empty label, and each
    is the [alt] of an equipment image; when the extraction does not
    raise, every such [alt] is among them. *)
Theorem equipments_are_distinct_labels view :
  NoDup (equipments_of view) /\
  (forall a, In a (equipments_of view) ->
             a <> [] /\ In (Some a) (equip_alts view)) /\
  (equip_raises view = None ->
   forall a, a <> [] -> In (Some a) (equip_alts view) ->
             In a (equipments_of view)).
Proof.
  unfold equipments_of.
  set (seen := match equip_raises view with
               | Some k => firstn k (equip_alts view)
               | None => equip_alts view
               end).
  rewrite (fold_left_ext add_equipment (add_new equipment_label))
    by apply add_equipment_add_new.
  destruct (fold_add_new equipment_label seen []) as (Hnd & Hin);
    [constructor|].
  assert (Hpick : forall alt a, equipment_label alt = Some a <->
                                alt = Some a /\ a <> []).
  { intros [[|c s]|] a; simpl; split; try discriminate;
      try (intros [H _]; discriminate).
    - intros [H Hne]. injection H as <-. congruence.
    - intros H. injection H as <-. split; [reflexivity|discriminate].
    - intros [H _]. injection H as <-. reflexivity. }
  split; [exact Hnd|]. split.
  - intros a Ha. apply Hin in Ha. destruct Ha as [[]|(alt & Halt & Hp)].
    apply Hpick in Hp. destruct Hp as (-> & Hne). split; [exact Hne|].
    unfold seen in Halt. destruct (equip_raises view) as [k|];
      [|exact Halt].
    rewrite <- (firstn_skipn k (equip_alts view)).
    apply in_or_app. left. exact Halt.
  - intros Hraise a Hne Ha. apply Hin. right. exists (Some a).
    unfold seen. rewrite Hraise. split; [exact Ha|]. apply Hpick. auto.
Qed.

Lemma equipments_are_distinct_labels_witness :
  In (lit "Ascenseur")
     (equipments_of {| get_raises := false;
                       equip_alts := [Some (lit "Ascenseur"); None;
                                      Some (lit "Ascenseur")];
                       equip_raises := None; page_source := [] |}).
Proof.
  destruct (equipments_are_distinct_labels
              {| get_raises := false;
                 equip_alts := [Some (lit "Ascenseur"); None;
                                Some (lit "Ascenseur")];
                 equip_raises := None; page_source := [] |})
    as (_ & _ & H).
  apply H; [reflexivity|discriminate|left; reflexivity].
Defined.

Section DictFacts.

Lemma dict_get_set_same d k v : dict_get (dict_set d k v) k = Some v.
Proof.
  induction d as [|[k' v'] d IH]; simpl.
  - replace (Str.eqb k k) with true by (symmetry; apply str_eqb_eq; reflexivity).
    reflexivity.
  - destruct (Str.eqb k' k) eqn:E; simpl; rewrite E; [reflexivity|exact IH].
Qed.

Lemma dict_get_set_other d k v k' :
  k' <> k -> dict_get (dict_set d k v) k' = dict_get d k'.
Proof.
  intros Hne. induction d as [|[k0 v0] d IH]; simpl.
  - destruct (Str.eqb k k') eqn:E; [|reflexivity].
    apply str_eqb_eq in E. congruence.
  - destruct (Str.eqb k0 k) eqn:E; simpl.
    + apply str_eqb_eq in E. subst k0.
      destruct (Str.eqb k k') eqn:E'; [|reflexivity].
      apply str_eqb_eq in E'. congruence.
    + rewrite IH. reflexivity.
Qed.

Lemma dict_set_keys d k v :
  map fst (dict_set d k v)
  = if Str.mem k (map fst d) then map fst d else map fst d ++ [k].
Proof.
  induction d as [|[k' v'] d IH]; simpl; [reflexivity|].
  unfold Str.mem in *. simpl.
  destruct (Str.eqb k' k) eqn:E.
  - replace (Str.eqb k k') with true; [reflexivity|].
    symmetry. apply str_eqb_eq. apply str_eqb_eq in E. congruence.
  - replace (Str.eqb k k') with false.
    + simpl. rewrite IH. destruct (existsb (Str.eqb k) (map fst d)); reflexivity.
    + symmetry. destruct (Str.eqb k k') eqn:E'; [|reflexivity].
      apply str_eqb_eq in E'. subst k'.
      assert (Str.eqb k k = true) by (apply str_eqb_eq; reflexivity).
      congruence.
Qed.

Lemma dict_set_nodup d k v :
  NoDup (map fst d) -> NoDup (map fst (dict_set d k v)).
Proof.
  intros Hnd. rewrite dict_set_keys.
  destruct (Str.mem k (map fst d)) eqn:E; [exact Hnd|].
  apply NoDup_app; [exact Hnd|repeat constructor; simpl; tauto|].
  intros x Hx [<-|[]]. apply mem_In in Hx. congruence.
Qed.

End DictFacts.

Section PropertiesFacts.

Context {lib : PyLib}.

Lemma add_property_label_value d p :
  add_property d p
  = match label_value p with
    | Some (k, v) => dict_set d k v
    | None => d
    end.
Proof.
  unfold add_property, label_value.
  destruct (find_first (fun n => has_name "span" n && has_class "fjZBup" n)
                       (descendants p)) as [value|];
    destruct (find_first (fun n => has_name "span" n && has_class "bXFCIH" n)
                         (descendants p)) as [label|]; reflexivity.
Qed.

Lemma fold_add_property_nodup blocks d :
  NoDup (map fst d) -> NoDup (map fst (fold_left add_property blocks d)).
Proof.
  revert d. induction blocks as [|p blocks IH]; intros d Hnd; simpl;
    [exact Hnd|].
  apply IH. rewrite add_property_label_value.
  destruct (label_value p) as [[k v]|]; [apply dict_set_nodup|]; exact Hnd.
Qed.

Lemma fold_add_property_untouched blocks d k :
  Forall (fun q => forall v, label_value q <> Some (k, v)) blocks ->
  dict_get (fold_left add_property blocks d) k = dict_get d k.
Proof.
  revert d. induction blocks as [|p blocks IH]; intros d HF; simpl;
    [reflexivity|].
  rewrite IH by exact (Forall_inv_tail HF).
  rewrite add_property_label_value. apply Forall_inv in HF.
  destruct (label_value p) as [[k' v']|]; [|reflexivity].
  apply dict_get_set_other. intros ->. apply (HF v'). reflexivity.
Qed.

Lemma fold_add_property_source blocks d k v :
  dict_get (fold_left add_property blocks d) k = Some v ->
  dict_get d k = Some v \/
  exists p, In p blocks /\ label_value p = Some (k, v).
Proof.
  revert d. induction blocks as [|p blocks IH]; intros d; simpl; [auto|].
  intros H. apply IH in H. destruct H as [H|(q & Hq & Hl)]; [|eauto].
  rewrite add_property_label_value in H.
  destruct (label_value p) as [[k' v']|] eqn:El; [|auto].
  destruct (list_eq_dec N.eq_dec k k') as [->|Hne].
  - rewrite dict_get_set_same in H. injection H as ->. right. eauto.
  - rewrite dict_get_set_other in H by exact Hne. auto.
Qed.

End PropertiesFacts.

(** The properties of a record have one entry per label.  Every entry
    comes from a property block of the page that has both a label and a
    value, and when several blocks carry the same label the value of the
    last one is kept. *)
Theorem properties_keep_last_value {lib : PyLib} soup :
  let els := soup_elements soup in
  NoDup (map fst (properties_of els)) /\
  (forall k v,
      dict_get (properties_of els) k = Some v ->
      exists p, In p els /\ is_property_block p = true /\
                label_value p = Some (k, v)) /\
  (forall before p after k v,
      filter is_property_block els = before ++ p :: after ->
      label_value p = Some (k, v) ->
      Forall (fun q => forall v', label_value q <> Some (k, v')) after ->
      dict_get (properties_of els) k = Some v).
Proof.
  cbv zeta. unfold properties_of.
  change (fun n => has_name "div" n && has_class "sc-cd1c365e-1" n)
    with is_property_block.
  split; [|split].
  - apply fold_add_property_nodup. constructor.
  - intros k v H. apply fold_add_property_source in H.
    destruct H as [H|(p & Hp & Hl)]; [discriminate|].
    apply filter_In in Hp. destruct Hp as (Hin & Hb). eauto.
  - intros before p after k v E Hl Hafter. rewrite E.
    rewrite fold_left_app. cbn [fold_left].
    rewrite fold_add_property_untouched by exact Hafter.
    rewrite add_property_label_value, Hl. apply dict_get_set_same.
Qed.

Lemma properties_keep_last_value_witness :
  dict_get (properties_of
              (soup_elements [property_block "Surface" "80 m2";
                              property_block "Surface" "95 m2"]))
           (lit "Surface")
  = Some (lit "95 m2").
Proof.
  destruct (properties_keep_last_value
              [property_block "Surface" "80 m2";
               property_block "Surface" "95 m2"]) as (_ & _ & H).
  apply (H [property_block "Surface" "80 m2"]
           (property_block "Surface" "95 m2") []).
  - vm_compute. reflexivity.
  - vm_compute. reflexivity.
  - constructor.
Defined.

Lemma tidy_nil : tidy [].
Proof. repeat split; reflexivity. Qed.

Lemma text_or_empty_tidy el : tidy (text_or_empty el).
Proof.
  destruct el as [e|]; [apply clean_text_tidy|apply tidy_nil].
Qed.

(** The title, price, location, seller, category and description of a
    record are clean texts: their only whitespace is single spaces between
    words, whatever the markup of the page. *)
Theorem record_texts_are_clean {lib : PyLib} fromisoformat now random url
        soup equipments :
  let r := extract fromisoformat now random url soup equipments in
  tidy (f_title r) /\ tidy (f_price r) /\ tidy (f_location r) /\
  tidy (f_seller r) /\ tidy (f_category r) /\ tidy (f_description r).
Proof.
  cbv zeta. unfold extract. cbn [f_title f_price f_location f_seller
    f_category f_description].
  repeat split; try apply text_or_empty_tidy.
  all: unfold category_of;
    destruct (find_rest is_category_label (soup_elements soup)) as [[l a]|];
    [apply text_or_empty_tidy|apply tidy_nil].
Qed.

(** No item of the breadcrumb is empty, and none begins or ends with
    whitespace. *)
Theorem breadcrumb_items_not_blank els :
  Forall (fun item => item <> [] /\ starts_with_space item = false /\
                      ends_with_space item = false)
         (breadcrumb_of els).
Proof.
  unfold breadcrumb_of.
  destruct (find_first (has_name "ol") els) as [ol|]; [|constructor].
  apply Forall_flat_map. apply Forall_forall. intros li _.
  unfold breadcrumb_item, strip.
  set (t := lstrip (remove_sub (lit "Home Icon")
                               (clean_text (Some (get_text li))) 0)).
  assert (Hs : starts_with_space (rstrip t) = false)
    by (apply rstrip_keeps_head, lstrip_no_leading_space).
  assert (He : ends_with_space (rstrip t) = false)
    by apply rstrip_no_trailing_space.
  destruct (rstrip t) as [|c r]; constructor; [|constructor].
  repeat split; [discriminate|exact Hs|exact He].
Qed.

(** Saving records that [parse_publication] built, all of whose fields
    can be encoded, does not fail; and whenever saving such records did
    not fail, the file reads back as the header followed by one line per
    record, in the order of the records, with the breadcrumb in the
    seventh column, the category in the eighth and the seller in the
    ninth. *)
Theorem records_file_reads_back records :
  (Forall record_encodable records ->
   exists out, save_csv (map to_dict records) = Some out) /\
  (forall out,
      save_csv (map to_dict records) = Some out ->
      csv_reader out = Some (keys :: map record_cells records)).
Proof.
  split.
  - intros He. eexists. apply save_csv_saved. unfold save_csv_file.
    apply write_rows_writable. apply Forall_forall. intros row Hin.
    apply in_map_iff in Hin. destruct Hin as (r & <- & Hr).
    split; [apply to_dict_known|].
    rewrite Forall_forall in He. exact (He r Hr).
  - intros out E. apply save_csv_saved, write_rows_saved in E.
    destruct E as (_ & ->). unfold csv_reader.
    set (lines := keys :: map record_cells records).
    assert (E : csv_line keys
                ++ List.concat
                     (map (fun row => csv_line (map (value_of row) keys))
                          (map to_dict records))
                = List.concat (map csv_line lines)).
    { unfold lines. cbn [map List.concat]. rewrite !map_map. reflexivity. }
    rewrite E. apply read_records_lines.
    + unfold lines. constructor; [discriminate|].
      apply Forall_forall. intros cells Hin.
      apply in_map_iff in Hin. destruct Hin as (r & <- & _). discriminate.
    + clear. induction lines as [|l ls IH]; simpl; [lia|].
      rewrite length_app.
      assert (1 <= List.length (csv_line l)).
      { unfold csv_line. rewrite length_app. simpl. lia. }
      lia.
Qed.

Lemma records_file_reads_back_witness :
  exists out,
    save_csv [to_dict (default_fields
                         5 (lit "https://www.avito.ma/fr/maroc/a_1.htm"))]
    = Some out /\
    csv_reader out
    = Some [keys;
            record_cells (default_fields
                            5 (lit "https://www.avito.ma/fr/maroc/a_1.htm"))].
Proof.
  destruct (records_file_reads_back
              [default_fields 5 (lit "https://www.avito.ma/fr/maroc/a_1.htm")])
    as (H1 & H2).
  destruct H1 as (out & E).
  - constructor; [vm_compute; reflexivity|constructor].
  - exists out. split; [exact E|]. apply H2. exact E.
Defined.

(* ================================================================== *)
(** * The identifier of a record *)

Section UuidFacts.

Open Scope N_scope.

Lemma hex_char_is_hex d : d < 16 -> is_hex (hex_char d) = true.
Proof.
  intros H. unfold hex_char, is_hex.
  destruct (N.ltb_spec d 10).
  - replace (48 <=? 48 + d) with true by (symmetry; apply N.leb_le; lia).
    replace (48 + d <=? 57) with true by (symmetry; apply N.leb_le; lia).
    reflexivity.
  - replace (97 <=? 87 + d) with true by (symmetry; apply N.leb_le; lia).
    replace (87 + d <=? 102) with true by (symmetry; apply N.leb_le; lia).
    apply orb_true_r.
Qed.

Lemma mod16_land x : x mod 16 = N.land x 15.
Proof. change 16 with (2 ^ 4). rewrite <- N.land_ones. reflexivity. Qed.

(** The four bits of the version are 0100. *)
Lemma uuid4_version random : N.shiftr (uuid4 random) 76 mod 16 = 4.
Proof.
  unfold uuid4. rewrite mod16_land.
  rewrite N.shiftr_lor, N.shiftr_ldiff.
  change (N.shiftr (N.shiftl 4 76) 76) with 4.
  change (N.shiftr (N.shiftl 61440 64) 76) with 15.
  rewrite N.land_lor_distr_l, N.land_ldiff. reflexivity.
Qed.

(** The two high bits of the variant are 10. *)
Lemma uuid4_variant random :
  exists low, low < 4 /\ N.shiftr (uuid4 random) 60 mod 16 = 8 + low.
Proof.
  unfold uuid4.
  set (m := random mod 2 ^ 128).
  set (a := N.lor (N.ldiff m (N.shiftl 49152 48)) (N.shiftl 32768 48)).
  set (n := N.lor (N.ldiff a (N.shiftl 61440 64)) (N.shiftl 4 76)).
  exists (N.shiftr n 60 mod 4). split; [apply N.mod_lt; discriminate|].
  assert (Hhigh : N.shiftr n 62 mod 4 = 2).
  { change 4 with (2 ^ 2). rewrite <- N.land_ones. unfold n, a.
    repeat first [rewrite N.shiftr_lor | rewrite N.shiftr_ldiff].
    change (N.shiftr (N.shiftl 4 76) 62) with (N.shiftl 4 14).
    change (N.shiftr (N.shiftl 61440 64) 62) with (N.shiftl 15 14).
    change (N.shiftr (N.shiftl 32768 48) 62) with 2.
    change (N.shiftr (N.shiftl 49152 48) 62) with 3.
    apply N.bits_inj. intros i.
    rewrite N.land_spec.
    repeat first [rewrite N.lor_spec | rewrite N.ldiff_spec].
    destruct (N.ltb_spec i 2) as [Hi|Hi].
    - assert (Hc : i = 0 \/ i = 1) by lia.
      destruct Hc as [-> | ->];
        [generalize (N.testbit (N.shiftr m 62) 0)
        |generalize (N.testbit (N.shiftr m 62) 1)];
        intros b; destruct b; reflexivity.
    - rewrite (N.ones_spec_high 2 i) by exact Hi.
      rewrite andb_false_r. symmetry.
      apply N.bits_above_log2. change (N.log2 2) with 1. lia. }
  assert (E : N.shiftr n 62 = N.shiftr n 60 / 4).
  { replace 62 with (60 + 2) by reflexivity.
    rewrite <- N.shiftr_shiftr. apply N.shiftr_div_pow2. }
  rewrite E in Hhigh.
  set (x := N.shiftr n 60) in *.
  pose proof (N.div_mod x 4 ltac:(discriminate)) as Hx.
  pose proof (N.mod_lt x 4 ltac:(discriminate)) as Hlt.
  pose proof (N.div_mod (x / 4) 4 ltac:(discriminate)) as Hq.
  rewrite Hhigh in Hq.
  assert (Hx16 : x = 16 * (x / 4 / 4) + (8 + x mod 4)) by lia.
  rewrite Hx16 at 1.
  rewrite N.add_comm, N.mul_comm, N.Div0.mod_add.
  apply N.mod_small. lia.
Qed.

End UuidFacts.

(** The identifier of a record is written as a version 4 UUID: 36
    characters, dashes at the positions 8, 13, 18 and 23 and lower-case
    hexadecimal digits elsewhere, the digit 4 at position 14 and one of
    8, 9, a, b at position 19, whatever the random bytes. *)
Theorem record_id_is_uuid4 random :
  let id := uuid_str (uuid4 random) in
  List.length id = 36 /\
  (forall i, i < 36 ->
             nth i id 0%N
             = DASH <-> (i = 8 \/ i = 13 \/ i = 18 \/ i = 23)) /\
  (forall i, i < 36 -> i <> 8 -> i <> 13 -> i <> 18 -> i <> 23 ->
             is_hex (nth i id 0%N) = true) /\
  nth 14 id 0%N = 52%N /\
  In (nth 19 id 0%N) [56; 57; 97; 98]%N.
Proof.
  cbv zeta.
  assert (Hhex : forall k, is_hex (hex_char (N.shiftr (uuid4 random) k mod 16))
                           = true).
  { intros k. apply hex_char_is_hex. apply N.mod_lt. discriminate. }
  assert (Hnd : forall k, hex_char (N.shiftr (uuid4 random) k mod 16) <> DASH).
  { intros k E. specialize (Hhex k). rewrite E in Hhex. discriminate. }
  split; [apply uuid_str_length|].
  assert (Hall : forall i, i < 36 ->
            (nth i (uuid_str (uuid4 random)) 0%N = DASH /\
             (i = 8 \/ i = 13 \/ i = 18 \/ i = 23)) \/
            (is_hex (nth i (uuid_str (uuid4 random)) 0%N) = true /\
             nth i (uuid_str (uuid4 random)) 0%N <> DASH /\
             i <> 8 /\ i <> 13 /\ i <> 18 /\ i <> 23)).
  { intros i Hi. unfold uuid_str, hex32.
    cbn [seq map firstn skipn app lit list_ascii_of_string Nat.sub].
    do 36 (destruct i as [|i];
           [cbn [nth];
            first [left; split; [reflexivity|lia]
                  |right; split; [apply Hhex|]; split; [apply Hnd|lia]]|]).
    lia. }
  split; [|split; [|split]].
  - intros i Hi. destruct (Hall i Hi) as [(H1 & H2)|(_ & H1 & H2)].
    + tauto.
    + split; [contradiction|lia].
  - intros i Hi H8 H13 H18 H23.
    destruct (Hall i Hi) as [(_ & H)|(H & _)]; [lia|exact H].
  - unfold uuid_str, hex32.
    cbn [seq map firstn skipn app lit list_ascii_of_string Nat.sub nth].
    change (4 * N.of_nat 19)%N with 76%N. rewrite uuid4_version. reflexivity.
  - unfold uuid_str, hex32.
    cbn [seq map firstn skipn app lit list_ascii_of_string Nat.sub nth].
    change (4 * N.of_nat 15)%N with 60%N.
    destruct (uuid4_variant random) as (low & Hlow & ->).
    assert (Hc : (low = 0 \/ low = 1 \/ low = 2 \/ low = 3)%N) by lia.
    destruct Hc as [->|[->|[->| ->]]]; simpl; auto.
Qed.

Lemma record_id_is_uuid4_witness :
  is_hex (nth 0 (uuid_str (uuid4 5)) 0%N) = true.
Proof.
  destruct (record_id_is_uuid4 5) as (_ & _ & H & _).
  apply H; lia.
Defined.

(* ================================================================== *)
(** * The JSON text of the structured fields *)

Section JsonFacts.

Open Scope N_scope.

Lemma json_escape_plain c :
  32 <= c -> c <> QUOTE -> c <> BACKSLASH -> json_escape c = [c].
Proof.
  intros H32 Hq Hb. unfold json_escape, QUOTE, BACKSLASH, LF, CR, TAB in *.
  repeat match goal with
         | |- context [N.eqb c ?k] =>
             destruct (N.eqb_spec c k); [lia|]
         end.
  destruct (N.ltb_spec c 32); [lia|reflexivity].
Qed.

Lemma read_json_string_cons_plain c s :
  32 <= c -> c <> QUOTE -> c <> BACKSLASH ->
  read_json_string (c :: s)
  = match read_json_string s with
    | Some (v, rest) => Some (c :: v, rest)
    | None => None
    end.
Proof.
  intros H32 Hq Hb. cbn [read_json_string].
  destruct (N.eqb_spec c QUOTE); [contradiction|].
  destruct (N.eqb_spec c BACKSLASH); [contradiction|]. reflexivity.
Qed.

Lemma read_json_escaped c s v rest :
  read_json_string s = Some (v, rest) ->
  c < 32 \/ c = QUOTE \/ c = BACKSLASH ->
  read_json_string (json_escape c ++ s) = Some (c :: v, rest).
Proof.
  intros Hs Hc.
  assert (Hcases : c < 32 \/ c = 34 \/ c = 92) by exact Hc.
  assert (Hall : In c [0; 1; 2; 3; 4; 5; 6; 7; 8; 9; 10; 11; 12; 13; 14; 15;
                       16; 17; 18; 19; 20; 21; 22; 23; 24; 25; 26; 27; 28;
                       29; 30; 31; 34; 92]).
  { destruct Hcases as [H|[->| ->]]; [|simpl; tauto|simpl; tauto].
    destruct c as [|p]; [simpl; tauto|].
    do 5 (destruct p as [p|p|]; try (simpl; tauto); try lia). }
  simpl in Hall.
  repeat (destruct Hall as [<-|Hall];
          [cbn [json_escape N.eqb Pos.eqb N.ltb N.compare Pos.compare
                Pos.compare_cont app lit list_ascii_of_string map
                N_of_ascii N_of_digits hex_char N.div N.modulo];
           vm_compute json_escape; cbn [app read_json_string];
           vm_compute (N.eqb _ _); cbn iota; try (vm_compute (hex4 _ _ _ _));
           try (vm_compute (unescape _)); rewrite Hs; reflexivity|]).
  contradiction.
Qed.

Lemma read_json_string_round_trip s rest :
  read_json_string (flat_map json_escape s ++ QUOTE :: rest) = Some (s, rest).
Proof.
  induction s as [|c s IH]; [reflexivity|].
  cbn [flat_map]. rewrite <- app_assoc.
  destruct (N.ltb_spec c 32) as [Hlt|Hge].
  - apply read_json_escaped; auto.
  - destruct (N.eq_dec c QUOTE) as [Hq|Hq];
      [apply read_json_escaped; auto|].
    destruct (N.eq_dec c BACKSLASH) as [Hb|Hb];
      [apply read_json_escaped; auto|].
    rewrite json_escape_plain by assumption. cbn [app].
    rewrite read_json_string_cons_plain by assumption.
    rewrite IH. reflexivity.
Qed.

End JsonFacts.

Lemma json_string_app s rest :
  json_string s ++ rest = QUOTE :: flat_map json_escape s ++ QUOTE :: rest.
Proof. unfold json_string. simpl. rewrite <- app_assoc. reflexivity. Qed.

Lemma read_json_items_round_trip l fuel :
  l <> [] -> List.length l <= fuel ->
  read_json_items fuel (join (lit ", ") (map json_string l) ++ lit "]")
  = Some l.
Proof.
  revert fuel. induction l as [|v l IH]; intros fuel Hne Hfuel; [congruence|].
  destruct fuel as [|fuel]; [simpl in Hfuel; lia|].
  destruct l as [|v' l'].
  - cbn [map join]. rewrite json_string_app.
    cbn [read_json_items]. rewrite N.eqb_refl, read_json_string_round_trip.
    reflexivity.
  - change (join (lit ", ") (map json_string (v :: v' :: l')))
      with (json_string v ++ lit ", "
            ++ join (lit ", ") (map json_string (v' :: l'))).
    rewrite <- !app_assoc, json_string_app.
    cbn [read_json_items]. rewrite N.eqb_refl, read_json_string_round_trip.
    specialize (IH fuel ltac:(discriminate) ltac:(simpl in *; lia)).
    cbn [lit list_ascii_of_string map app]. cbn [lit list_ascii_of_string map app] in IH.
    change (N.eqb (N_of_ascii ",") 93) with false.
    change (N.eqb (N_of_ascii ",") COMMA) with true.
    change (N.eqb (N_of_ascii " ") SP) with true. cbn iota.
    rewrite IH. reflexivity.
Qed.

Lemma join_json_length xs :
  List.length xs <= List.length (join (lit ", ") (map json_string xs)) + 1.
Proof.
  induction xs as [|x [|x' xs] IH]; [simpl; lia|simpl; lia|].
  change (join (lit ", ") (map json_string (x :: x' :: xs)))
    with (json_string x ++ lit ", "
          ++ join (lit ", ") (map json_string (x' :: xs))).
  rewrite !length_app. simpl List.length in *. lia.
Qed.

Lemma json_body_long v l :
  exists c1 c2 t,
    join (lit ", ") (map json_string (v :: l)) ++ lit "]" = c1 :: c2 :: t.
Proof.
  destruct l as [|v' l'].
  - cbn [map join]. rewrite json_string_app.
    destruct (flat_map json_escape v); simpl; eauto.
  - change (join (lit ", ") (map json_string (v :: v' :: l')))
      with (json_string v ++ lit ", "
            ++ join (lit ", ") (map json_string (v' :: l'))).
    rewrite <- !app_assoc, json_string_app.
    destruct (flat_map json_escape v); simpl; eauto.
Qed.

Lemma read_json_list_json_list l : read_json_list (json_list l) = Some l.
Proof.
  destruct l as [|v l]; [reflexivity|].
  unfold json_list.
  pose proof (read_json_items_round_trip (v :: l)) as Hitems.
  pose proof (join_json_length (v :: l)) as Hlen.
  destruct (json_body_long v l) as (c1 & c2 & t & Eb).
  set (body := join (lit ", ") (map json_string (v :: l)) ++ lit "]") in *.
  change (read_json_list (91%N :: body) = Some (v :: l)).
  assert (Hbody : read_json_items (List.length body) body = Some (v :: l)).
  { apply Hitems; [discriminate|].
    unfold body. rewrite length_app. simpl List.length at 3. lia. }
  rewrite Eb in *. exact Hbody.
Qed.


(* ================================================================== *)
(** * The records handed to save_csv *)

Section HandedOver.

Variable parse_publication : nat -> str -> outcome.
Variable P : dict -> Prop.
Hypothesis HP :
  forall i link data, parse_publication i link = Returned (Some data) -> P data.

(** The loop keeps only records that [parse_publication] returned. *)
Lemma visit_links_results i todo results trace :
  Forall P results ->
  Forall P (fst (fst (visit_links parse_publication i todo results trace))).
Proof.
  revert i results trace. induction todo as [|link rest IH];
    intros i results trace HF; cbn [visit_links]; [exact HF|].
  destruct (parse_publication i link) as [[[|item items]|]| |] eqn:E;
    try (apply IH; exact HF); [|exact HF].
  apply IH. apply Forall_app. split; [exact HF|].
  constructor; [|constructor]. exact (HP i link _ E).
Qed.

Lemma main_hands_over driver_ok quit_ok ls rows :
  In rows (saves (fst (main parse_publication driver_ok quit_ok ls))) ->
  Forall P rows.
Proof.
  unfold main. destruct ls as [|l ls']; [intros []|].
  destruct driver_ok; [|intros []].
  pose proof (visit_links_quiet parse_publication 0 (l :: ls') []
                                [CreateDriver true]) as Hq.
  pose proof (visit_links_results 0 (l :: ls') [] [CreateDriver true]
                                  (Forall_nil P)) as Hr.
  destruct (visit_links _ _ _ _ _) as [[r t] ab].
  destruct Hq as (_ & _ & Hs). cbn [fst] in Hr.
  destruct ab, quit_ok; cbn [orb negb fst]; rewrite !saves_app, Hs; simpl.
  1,2,4: intros [].
  intros [<-|[]]. exact Hr.
Qed.

End HandedOver.

Lemma parse_publication_returns {lib : PyLib} BeautifulSoup fromisoformat
      now random view url data :
  parse_publication BeautifulSoup fromisoformat now random view url
  = Returned (Some data) ->
  exists soup equipments,
    data = to_dict (extract fromisoformat now random url soup equipments).
Proof.
  unfold parse_publication.
  destruct (fetch_page_with_selenium view) as [[html equipments]|];
    [|discriminate].
  destruct html as [|c html]; [discriminate|].
  intros E. injection E as <-. eauto.
Qed.

(** C6.  Every record handed to [save_csv] has exactly the thirteen keys
    id, url, title, price, location, publication_time, seller, category,
    description, breadcrumb, properties, equipments, images, each once
    and in this order, which is the order of the attribute list; its
    values are texts, those of the four structured fields being the JSON
    texts that [extract] builds.  This holds of every record that
    [parse_publication] returns, and of every row of every call of
    [save_csv] in a run, whatever the pages show, whether or not the
    driver is obtained and whether or not [driver.quit()] returns.  All
    thirteen keys are column names of the file. *)
Theorem record_field_order :
  spec_field_order
  = [ lit "id"; lit "url"; lit "title"; lit "price"; lit "location";
      lit "publication_time"; lit "seller"; lit "category";
      lit "description"; lit "breadcrumb"; lit "properties";
      lit "equipments"; lit "images" ] /\
  (forall (lib : PyLib) BeautifulSoup fromisoformat now random view url data,
      parse_publication BeautifulSoup fromisoformat now random view url
      = Returned (Some data) ->
      map fst data = spec_field_order /\
      exists soup equipments,
        let r := extract fromisoformat now random url soup equipments in
        map snd data
        = [ f_id r; f_url r; f_title r; f_price r; f_location r;
            f_publication_time r; f_seller r; f_category r; f_description r;
            json_list (breadcrumb_of (soup_elements soup));
            json_dict (properties_of (soup_elements soup));
            json_list equipments;
            json_list (images_of (soup_elements soup)) ]) /\
  (forall (lib : PyLib) BeautifulSoup fromisoformat
          (now : nat -> datetime) (random : nat -> N) (view : nat -> page_view)
          driver_ok quit_ok ls rows data,
      In rows
         (saves (fst (main (fun i link =>
                              parse_publication BeautifulSoup fromisoformat
                                                (now i) (random i) (view i)
                                                link)
                           driver_ok quit_ok ls))) ->
      In data rows ->
      map fst data = spec_field_order /\ NoDup (map fst data) /\
      List.length data = 13) /\
  (forall k, In k spec_field_order -> In k keys).
Proof.
  split; [reflexivity|]. split; [|split].
  - intros lib BS fromiso now random view url data E.
    apply parse_publication_returns in E.
    destruct E as (soup & equipments & ->).
    split; [reflexivity|]. exists soup, equipments. reflexivity.
  - intros lib BS fromiso now random view driver_ok quit_ok ls rows data
           Hrows Hdata.
    assert (H : Forall (fun d => map fst d = spec_field_order) rows).
    { revert Hrows. apply main_hands_over.
      intros i link d E. apply parse_publication_returns in E.
      destruct E as (soup & equipments & ->). reflexivity. }
    rewrite Forall_forall in H. specialize (H data Hdata).
    split; [exact H|]. split.
    + rewrite H. vm_compute.
      repeat (constructor;
              [intros Hin;
               repeat (destruct Hin as [Hin|Hin]; [discriminate Hin|]);
               exact Hin|]).
      constructor.
    + rewrite <- (length_map fst), H. reflexivity.
  - intros k Hk. apply mem_In. vm_compute in Hk.
    repeat (destruct Hk as [<-|Hk]; [vm_compute; reflexivity|]).
    contradiction.
Qed.

Lemma record_field_order_witness :
  In [to_dict (default_fields 0 (lit "https://www.avito.ma/fr/maroc/a_1.htm"));
      to_dict (default_fields 2 (lit "https://www.avito.ma/fr/maroc/a_3.htm"))]
     (saves (fst (main second_unreachable true true three_links))) /\
  map fst (to_dict (default_fields
                      2 (lit "https://www.avito.ma/fr/maroc/a_3.htm")))
  = spec_field_order /\
  In (lit "seller") keys.
Proof.
  destruct record_field_order as (_ & _ & Hrun & Hkeys).
  assert (Hs : saves (fst (main second_unreachable true true three_links))
               = [[to_dict (default_fields
                              0 (lit "https://www.avito.ma/fr/maroc/a_1.htm"));
                   to_dict (default_fields
                              2 (lit "https://www.avito.ma/fr/maroc/a_3.htm"))]])
    by (vm_compute; reflexivity).
  split; [rewrite Hs; left; reflexivity|]. split.
  - destruct (Hrun ascii_lib (fun _ => bare_soup) (fun _ => None)
                   (fun _ => feb_1_2024) N.of_nat
                   (fun i => if i =? 1 then unreachable_view else bare_view)
                   true true three_links
                   [to_dict (default_fields
                               0 (lit "https://www.avito.ma/fr/maroc/a_1.htm"));
                    to_dict (default_fields
                               2 (lit "https://www.avito.ma/fr/maroc/a_3.htm"))]
                   (to_dict (default_fields
                               2 (lit "https://www.avito.ma/fr/maroc/a_3.htm"))))
      as (H & _).
    + change (In [to_dict (default_fields
                             0 (lit "https://www.avito.ma/fr/maroc/a_1.htm"));
                  to_dict (default_fields
                             2 (lit "https://www.avito.ma/fr/maroc/a_3.htm"))]
                 (saves (fst (main second_unreachable true true three_links)))).
      rewrite Hs. left. reflexivity.
    + right. left. reflexivity.
    + exact H.
  - apply Hkeys. vm_compute. tauto.
Defined.

(* ================================================================== *)
(** * The relative dates of parse_publication_date *)


